(** * pylint-ignore: the ignore-file catalog engine ([ignorefile.py])

    A shallow embedding of [src/pylint_ignore/ignorefile.py] and the
    properties of its catalog parser, anchor resolver, fuzzy matcher and
    serializer.

    Conventions of the embedding.
    - A Python [str] is a [string]; a character is a code point below 256
      (the Latin-1 range), so the character classes below are the
      restriction of Python's Unicode classes to that range.
    - A Python [int] is a [Z].
    - An exception is a value of [exn]; a call that may raise returns a
      [result].
    - A [dict] that is iterated ([Catalog], an [OrderedDict]) or filled
      key by key ([EntryValues]) is an association list in insertion
      order, with Python's update-in-place semantics. *)

From Stdlib Require Import String Ascii List ZArith Lia Bool Arith.
From Stdlib Require Import Permutation Sorted QArith DecimalString DecimalPos.
Import ListNotations.

Local Open Scope string_scope.
Local Open Scope Z_scope.

(* ================================================================== *)
(** * Part I: the model *)
(* ================================================================== *)

(** ** Exceptions and results *)

Inductive exn : Type :=
| ObsoleteEntry (msg : string)
| KeyError (key : string)
| ValueError (msg : string)
| IndexError
| ZeroDivisionError
| StopIteration
| AttributeError
| OSError (path : string).

Inductive result (A : Type) : Type :=
| Ok (a : A)
| Raise (e : exn).
Arguments Ok {A} a.
Arguments Raise {A} e.

Definition bind {A B} (m : result A) (f : A -> result B) : result B :=
  match m with
  | Ok a => f a
  | Raise e => Raise e
  end.

Declare Scope py_scope.
Delimit Scope py_scope with py.
Notation "x <- m ;; k" := (bind m (fun x => k))
  (at level 61, m at next level, right associativity) : py_scope.
Notation "' pat <- m ;; k" := (bind m (fun x => match x with pat => k end))
  (at level 61, pat pattern, m at next level, right associativity) : py_scope.
Local Open Scope py_scope.

(** ** Python's [str] primitives *)

Module Py.

Definition nl : ascii := "010"%char.
Definition cr : ascii := "013"%char.

Definition code (c : ascii) : N := N_of_ascii c.

Definition between (lo hi : N) (c : ascii) : bool :=
  ((lo <=? code c) && (code c <=? hi))%N.

(** [str.isspace] on one character, which is also the class [\s] of [re]. *)
Definition isspace (c : ascii) : bool :=
  between 9 13 c || between 28 32 c || (code c =? 133)%N || (code c =? 160)%N.

(** The class [\d] of [re]. *)
Definition isdigit (c : ascii) : bool := between 48 57 c.

(** The class [\w] of [re]: alphanumeric characters and the underscore. *)
Definition isword (c : ascii) : bool :=
  between 48 57 c || between 65 90 c || (code c =? 95)%N || between 97 122 c
  || (code c =? 170)%N || between 178 179 c || (code c =? 181)%N
  || between 185 186 c || between 188 190 c || between 192 214 c
  || between 216 246 c || between 248 255 c.

(** The line boundaries of [str.splitlines]. *)
Definition islinebreak (c : ascii) : bool :=
  between 10 13 c || between 28 30 c || (code c =? 133)%N.

Definition str1 (c : ascii) : string := String c EmptyString.

Definition isempty (s : string) : bool :=
  match s with EmptyString => true | _ => false end.

(** [len(s)] *)
Definition len (s : string) : Z := Z.of_nat (String.length s).

(** [s.lstrip()] *)
Fixpoint lstrip (s : string) : string :=
  match s with
  | EmptyString => EmptyString
  | String c s' => if isspace c then lstrip s' else s
  end.

(** [s.rstrip()] *)
Fixpoint rstrip (s : string) : string :=
  match s with
  | EmptyString => EmptyString
  | String c s' =>
      match rstrip s' with
      | EmptyString => if isspace c then EmptyString else str1 c
      | r => String c r
      end
  end.

(** [s.strip()] *)
Definition strip (s : string) : string := lstrip (rstrip s).

(** [s.lstrip(chars)] for a one-character [chars]. *)
Fixpoint lstrip_char (a : ascii) (s : string) : string :=
  match s with
  | EmptyString => EmptyString
  | String c s' => if Ascii.eqb c a then lstrip_char a s' else s
  end.

(** [s.startswith(p)] *)
Definition startswith (p s : string) : bool := String.prefix p s.

(** [s[:n]] *)
Fixpoint slice_to (n : nat) (s : string) : string :=
  match n, s with
  | S n', String c s' => String c (slice_to n' s')
  | _, _ => EmptyString
  end.

(** [s.split()]: the maximal runs of non-whitespace characters. *)
Fixpoint split_aux (s tok : string) : list string :=
  match s with
  | EmptyString => if isempty tok then [] else [tok]
  | String c s' =>
      if isspace c
      then (if isempty tok then split_aux s' "" else tok :: split_aux s' "")
      else split_aux s' (tok ++ str1 c)
  end.

Definition split (s : string) : list string := split_aux s "".

(** [s.splitlines(keepends)]: [\r\n] is one boundary. *)
Fixpoint splitlines_aux (keepends : bool) (s cur : string) : list string :=
  match s with
  | EmptyString => if isempty cur then [] else [cur]
  | String c s' =>
      if islinebreak c then
        match s' with
        | String c2 s'' =>
            if Ascii.eqb c cr && Ascii.eqb c2 nl
            then (cur ++ (if keepends then String c (str1 c2) else ""))
                   :: splitlines_aux keepends s'' ""
            else (cur ++ (if keepends then str1 c else ""))
                   :: splitlines_aux keepends s' ""
        | EmptyString => [cur ++ (if keepends then str1 c else "")]
        end
      else splitlines_aux keepends s' (cur ++ str1 c)
  end.

Definition splitlines (keepends : bool) (s : string) : list string :=
  splitlines_aux keepends s "".

(** Iterating over a text file object: the lines, each with its ["\n"]. The
    text is what [read] would return, after newline translation. *)
Fixpoint readlines_aux (s cur : string) : list string :=
  match s with
  | EmptyString => if isempty cur then [] else [cur]
  | String c s' =>
      if Ascii.eqb c nl
      then (cur ++ str1 c) :: readlines_aux s' ""
      else readlines_aux s' (cur ++ str1 c)
  end.

Definition readlines (s : string) : list string := readlines_aux s "".

(** ["".join(l)] and [sep.join(l)] *)
Definition join0 (l : list string) : string := String.concat "" l.
Definition join (sep : string) (l : list string) : string :=
  String.concat sep l.

(** [str(n)] *)
Definition str (n : Z) : string := NilZero.string_of_int (Z.to_int n).

(** [int(s)] on the strings the code gives it, which are matches of [\d+]:
    any other string is a [ValueError]. *)
Definition int (s : string) : result Z :=
  match NilZero.uint_of_string s with
  | Some d => Ok (Z.of_uint d)
  | None => Raise (ValueError s)
  end.

(** [f"{s:>{w}}"]: right-aligned in a field of width [w]. *)
Fixpoint spaces (n : nat) : string :=
  match n with
  | O => ""
  | S n' => String " " (spaces n')
  end.

Definition rjust (w : Z) (s : string) : string :=
  spaces (Z.to_nat (w - len s)) ++ s.

(** [l[i]]: a negative index counts from the end. *)
Definition getitem {A} (l : list A) (i : Z) : result A :=
  let n := Z.of_nat (List.length l) in
  let j := if i <? 0 then i + n else i in
  if (j <? 0) || (n <=? j) then Raise IndexError
  else match nth_error l (Z.to_nat j) with
       | Some a => Ok a
       | None => Raise IndexError
       end.

(** [l[a:b]]: negative bounds count from the end, and all are clipped. *)
Definition clip_index (n i : Z) : Z :=
  if i <? 0 then Z.max 0 (i + n) else Z.min i n.

Definition slice {A} (l : list A) (a b : Z) : list A :=
  let n := Z.of_nat (List.length l) in
  let a' := clip_index n a in
  let b' := clip_index n b in
  firstn (Z.to_nat (b' - a')) (skipn (Z.to_nat a') l).

(** [range(n)] *)
Definition range (n : nat) : list Z := map Z.of_nat (seq 0 n).

(** *** CPython's iteration order of a set display [{a, b}] of two ints.

    The display adds [a], then [b], to an empty table of 8 slots; iteration
    reads the slots in increasing order. An element goes to slot
    [hash & 7]; when that is taken, the probe sequence is
    [i = (5 * i + 1 + perturb) & 7] with [perturb] the hash shifted right
    by 5 bits at every step (a table this small has no linear probes). *)

Definition hash_modulus : Z := 2 ^ 61 - 1.

Definition hash_int (n : Z) : Z :=
  let h := Z.sgn n * (Z.abs n mod hash_modulus) in
  if h =? -1 then -2 else h.

Fixpoint probe (fuel : nat) (taken i perturb : Z) : Z :=
  if negb (i =? taken) then i
  else match fuel with
       | O => i
       | S fuel' =>
           let perturb' := Z.shiftr perturb 5 in
           probe fuel' taken (Z.land (5 * i + 1 + perturb') 7) perturb'
       end.

Definition set2 (a b : Z) : list Z :=
  if a =? b then [a]
  else
    let sa := Z.land (hash_int a) 7 in
    let hb := hash_int b in
    let sb := probe 14 sa (Z.land hb 7) (hb mod 2 ^ 64) in
    if sa <? sb then [a; b] else [b; a].

End Py.

(** ** The fragment of Python's [re] that the three patterns use

    A backtracking matcher in continuation-passing style: [k] is what is
    left of the pattern, and the first alternative that lets [k] succeed
    wins, as in [re]. Every repetition in the patterns is over a single
    character class, so [RStar] and [RPlus] take a class. [pos] counts the
    characters consumed so far. *)

Module Re.

Inductive cclass : Type :=
| CSpace   (* \s *)
| CDigit   (* \d *)
| CWord    (* \w *)
| CDot.    (* .  : anything but a newline *)

Definition cmatch (cc : cclass) (c : ascii) : bool :=
  match cc with
  | CSpace => Py.isspace c
  | CDigit => Py.isdigit c
  | CWord => Py.isword c
  | CDot => negb (Ascii.eqb c Py.nl)
  end.

Inductive re : Type :=
| RLit (s : string)               (* a literal string *)
| RClass (cc : cclass)            (* one character of a class *)
| RStar (cc : cclass)             (* greedy [cc*] *)
| RPlus (cc : cclass)             (* greedy [cc+] *)
| RSeq (r1 r2 : re)
| RAlt (r1 r2 : re)               (* [r1|r2], left first *)
| ROpt (r : re)                   (* greedy [(r)?] *)
| RGroup (name : string) (r : re) (* [(?P<name>r)] *)
| RBol                            (* [^] *)
| REol.                           (* [$]: the end, or before a last newline *)

Definition captures : Type := list (string * string).

Fixpoint cap_get (name : string) (caps : captures) : option string :=
  match caps with
  | [] => None
  | (n, v) :: caps' => if String.eqb n name then Some v else cap_get name caps'
  end.

Definition cont : Type := nat -> string -> captures -> option captures.

Definition orelse {A} (x y : option A) : option A :=
  match x with
  | Some a => Some a
  | None => y
  end.

Fixpoint lit (l : string) (pos : nat) (s : string) (caps : captures)
    (k : cont) : option captures :=
  match l with
  | EmptyString => k pos s caps
  | String a l' =>
      match s with
      | String c s' =>
          if Ascii.eqb a c then lit l' (S pos) s' caps k else None
      | EmptyString => None
      end
  end.

(** Greedy: as many characters as possible, then one fewer, ... *)
Fixpoint star (cc : cclass) (pos : nat) (s : string) (caps : captures)
    (k : cont) : option captures :=
  match s with
  | String c s' =>
      if cmatch cc c
      then orelse (star cc (S pos) s' caps k) (k pos s caps)
      else k pos s caps
  | EmptyString => k pos s caps
  end.

Definition at_eol (s : string) : bool :=
  match s with
  | EmptyString => true
  | String c EmptyString => Ascii.eqb c Py.nl
  | _ => false
  end.

Fixpoint run (r : re) (pos : nat) (s : string) (caps : captures)
    (k : cont) : option captures :=
  match r with
  | RLit l => lit l pos s caps k
  | RClass cc =>
      match s with
      | String c s' => if cmatch cc c then k (S pos) s' caps else None
      | EmptyString => None
      end
  | RStar cc => star cc pos s caps k
  | RPlus cc =>
      match s with
      | String c s' => if cmatch cc c then star cc (S pos) s' caps k else None
      | EmptyString => None
      end
  | RSeq r1 r2 =>
      run r1 pos s caps (fun pos' s' caps' => run r2 pos' s' caps' k)
  | RAlt r1 r2 => orelse (run r1 pos s caps k) (run r2 pos s caps k)
  | ROpt r1 => orelse (run r1 pos s caps k) (k pos s caps)
  | RGroup name r1 =>
      run r1 pos s caps
        (fun pos' s' caps' =>
           k pos' s' ((name, Py.slice_to (pos' - pos) s) :: caps'))
  | RBol => if Nat.eqb pos 0 then k pos s caps else None
  | REol => if at_eol s then k pos s caps else None
  end.

(** [pattern.match(s)]: anchored at the start, not at the end. The result
    maps each group that took part in the match to its text. *)
Definition rmatch (r : re) (s : string) : option captures :=
  run r 0 s [] (fun _ _ caps => Some caps).

(** [m.group(name)]; a group that took no part in the match is [None]. *)
Definition group (name : string) (m : captures) : option string :=
  cap_get name m.

Fixpoint rseq (rs : list re) : re :=
  match rs with
  | [] => RLit ""
  | [r] => r
  | r :: rs' => RSeq r (rseq rs')
  end.

End Re.

Import Re.

(** [ENTRY_HEADER_RE] (in [re.VERBOSE] the blanks of the pattern mean
    nothing):
    [^ \#\#\s File\s (?P<path> .* ) \s-\s Line\s (?P<lineno> \d+ ) \s-\s
     (?P<msg_id> \w\d+ ) \s \( (?P<symbol> .* ) \) $] *)
Definition ENTRY_HEADER_RE : re :=
  rseq [ RBol; RLit "##"; RClass CSpace;
        RLit "File"; RClass CSpace; RGroup "path" (RStar CDot);
        RClass CSpace; RLit "-"; RClass CSpace;
        RLit "Line"; RClass CSpace; RGroup "lineno" (RPlus CDigit);
        RClass CSpace; RLit "-"; RClass CSpace;
        RGroup "msg_id" (RSeq (RClass CWord) (RPlus CDigit));
        RClass CSpace;
        RLit "("; RGroup "symbol" (RStar CDot); RLit ")";
        REol ].

(** [LIST_ITEM_RE]:
    [^ \s* -\s ` (?P<key> message|author|date ) \s* :\s (?P<value> .* ) ` $] *)
Definition LIST_ITEM_RE : re :=
  rseq [ RBol; RStar CSpace; RLit "-"; RClass CSpace; RLit "`";
        RGroup "key" (RAlt (RLit "message") (RAlt (RLit "author") (RLit "date")));
        RStar CSpace; RLit ":"; RClass CSpace;
        RGroup "value" (RStar CDot); RLit "`";
        REol ].

(** One numbered context line: [(?: \s+ \d+ : \s? .* )?] *)
Definition ctx_line_re : re :=
  ROpt (rseq [ RPlus CSpace; RPlus CDigit; RLit ":"; ROpt (RClass CSpace);
              RStar CDot ]).

Definition fence_re : re := RAlt (RLit "```") (RLit "~~~").

(** [SOURCE_TEXT_RE]: an opening fence and optional language, an optional
    definition line followed by an ellipsis, up to two context lines, the
    line marked [>], up to two context lines, a closing fence. The two
    fences and the definition group are unnamed groups of the pattern, which
    the code never reads. *)
(** The definition line followed by an ellipsis:
    [( (?: \s+ (?P<def_lineno> \d+ ) : \s (?P<def_line> .* ) )? \s+ \.\.\. )?] *)
Definition def_group_re : re :=
  ROpt (rseq [ ROpt (rseq [ RPlus CSpace; RGroup "def_lineno" (RPlus CDigit);
                            RLit ":"; RClass CSpace;
                            RGroup "def_line" (RStar CDot) ]);
               RPlus CSpace; RLit "..." ]).

Definition SOURCE_TEXT_RE : re :=
  rseq [ fence_re; ROpt (RGroup "language" (RPlus CWord));
        def_group_re;
        ctx_line_re;
        ctx_line_re;
        RStar CSpace; RLit ">"; RPlus CSpace;
        RGroup "source_lineno" (RPlus CDigit); RLit ":"; RClass CSpace;
        RGroup "source_line" (RStar CDot);
        ctx_line_re;
        ctx_line_re;
        RStar CSpace;
        fence_re ].

(** ** The data model *)

Record SourceText : Type := mkSourceText {
  new_lineno : Z;
  old_lineno : Z;
  source_line : string;
  text : string;
  start_idx : Z;
  end_idx : Z;
  def_line_idx : option Z;
  def_line : option string
}.

Definition MaybeSourceText : Type := option SourceText.

(** The fields of [Key] carry the prefix [key_]: [Entry] has fields of the
    same names. *)
Record Key : Type := mkKey {
  key_msg_id : string;
  key_path : string;
  key_symbol : string;
  key_msg_text : string;
  key_source_line : string
}.

Record Entry : Type := mkEntry {
  msg_id : string;
  path : string;
  symbol : string;
  msg_text : string;
  author : string;
  date : string;
  srctxt : MaybeSourceText
}.

Definition Key_eqb (a b : Key) : bool :=
  String.eqb (key_msg_id a) (key_msg_id b)
  && String.eqb (key_path a) (key_path b)
  && String.eqb (key_symbol a) (key_symbol b)
  && String.eqb (key_msg_text a) (key_msg_text b)
  && String.eqb (key_source_line a) (key_source_line b).

(** ** Dictionaries in insertion order *)

Module Dict.
Section Dict.
Context {K V : Type} (eqb : K -> K -> bool).

Definition t : Type := list (K * V).

Fixpoint get (k : K) (d : t) : option V :=
  match d with
  | [] => None
  | (k', v) :: d' => if eqb k' k then Some v else get k d'
  end.

(** [k in d] *)
Definition mem (k : K) (d : t) : bool :=
  match get k d with Some _ => true | None => false end.

(** [d[k] = v]: a key that is present keeps its place. *)
Fixpoint set (k : K) (v : V) (d : t) : t :=
  match d with
  | [] => [(k, v)]
  | (k', v') :: d' =>
      if eqb k' k then (k', v) :: d' else (k', v') :: set k v d'
  end.

Definition keys (d : t) : list K := map fst d.
Definition values (d : t) : list V := map snd d.

(** [d.popitem()]: the item inserted last. *)
Definition popitem (d : t) : t := removelast d.
End Dict.
End Dict.

Definition Catalog : Type := @Dict.t Key Entry.

(** [catalog[key]] *)
Definition catalog_getitem (catalog : Catalog) (key : Key) : result Entry :=
match Dict.get Key_eqb key catalog with
| Some e => Ok e
| None => Raise (KeyError (key_msg_id key))
end.

(** ** The fuzzy matcher *)

Definition FUZZY_MATCH_MAX_EDIT_DISTANCE_ABS : Z := 4.
Definition FUZZY_MATCH_MAX_EDIT_DISTANCE_PCT : Z := 20.

(** [pylev.levenshtein] is a function of a third-party package: the
  Levenshtein edit distance, which it computes row by row. [lev_row c t
  prev left] is the row of the prefix that ends with [c], from the row
  [prev] before it; [left] is the entry to the left. *)
Fixpoint lev_row (c : ascii) (t : string) (prev : list nat) (left : nat)
  : list nat :=
match t, prev with
| String d t', diag :: ((up :: _) as prev') =>
    let cost := if Ascii.eqb c d then O else 1%nat in
    let v := Nat.min (Nat.min (S up) (S left)) (diag + cost) in
    v :: lev_row c t' prev' v
| _, _ => []
end.

Fixpoint lev_rows (s t : string) (row : list nat) (i : nat) : list nat :=
match s with
| EmptyString => row
| String c s' => lev_rows s' t (S i :: lev_row c t row (S i)) (S i)
end.

Definition levenshtein (s t : string) : Z :=
Z.of_nat (last (lev_rows s t (seq 0 (S (String.length t))) 0) 0%nat).

(** [100 * dist / max(len(a), len(b))]: Python's true division, which raises
  on a zero divisor. The quotient is a float in Python; it is compared with
  the integer 20 only, and for [0 <= dist <= 4] the float is above 20
  exactly when the rational is, so the model keeps the rational. *)
Definition dist_pct (dist : Z) (a b : string) : result Q :=
let m := Z.max (Py.len a) (Py.len b) in
if m =? 0 then Raise ZeroDivisionError
else Ok (Qmake (100 * dist) (Z.to_pos m)).

Definition Qgtb (x y : Q) : bool := negb (Qle_bool x y).

Definition is_candidate (search_key key : Key) : bool :=
String.eqb (key_msg_id search_key) (key_msg_id key)
&& String.eqb (key_path search_key) (key_path key)
&& String.eqb (key_symbol search_key) (key_symbol key).

(** The loop over [candidate_keys], with [matches] as accumulator. *)
Fixpoint find_matches (catalog : Catalog) (search_key : Key)
  (candidate_keys : list Key) (matches : list Entry) : result (list Entry) :=
match candidate_keys with
| [] => Ok matches
| key :: rest =>
    let msg_text_dist :=
      levenshtein (key_msg_text key) (key_msg_text search_key) in
    let src_line_dist :=
      levenshtein (key_source_line key) (key_source_line search_key) in
    if msg_text_dist >? FUZZY_MATCH_MAX_EDIT_DISTANCE_ABS
    then find_matches catalog search_key rest matches
    else if src_line_dist >? FUZZY_MATCH_MAX_EDIT_DISTANCE_ABS
    then find_matches catalog search_key rest matches
    else
      msg_text_dist_pct <-
        dist_pct msg_text_dist (key_msg_text key) (key_msg_text search_key) ;;
      src_line_dist_pct <-
        dist_pct src_line_dist (key_source_line key)
          (key_source_line search_key) ;;
      if Qgtb msg_text_dist_pct (inject_Z FUZZY_MATCH_MAX_EDIT_DISTANCE_PCT)
      then find_matches catalog search_key rest matches
      else if Qgtb src_line_dist_pct
                (inject_Z FUZZY_MATCH_MAX_EDIT_DISTANCE_PCT)
      then find_matches catalog search_key rest matches
      else
        e <- catalog_getitem catalog key ;;
        find_matches catalog search_key rest (matches ++ [e])
end.

Definition find_entry (catalog : Catalog) (search_key : Key)
  : result (option Entry) :=
let has_exact_match := Dict.mem Key_eqb search_key catalog in
if has_exact_match then
  e <- catalog_getitem catalog search_key ;; Ok (Some e)
else
  let candidate_keys :=
    filter (is_candidate search_key) (Dict.keys catalog) in
  matches <- find_matches catalog search_key candidate_keys [] ;;
  match matches with
  | [e] => Ok (Some e)
  | _ => Ok None
  end.

(** ** Files *)

(** What a path holds: a readable text file (its decoded text, after
  newline translation), a file that is not valid UTF-8, or something that
  cannot be opened for reading. A path with nothing is [None]. *)
Inductive file : Type :=
| Text (content : string)
| Undecodable
| Unreadable.

Definition FileSystem : Type := string -> option file.

(** [path.exists()] *)
Definition exists_ (fs : FileSystem) (p : string) : bool :=
match fs p with Some _ => true | None => false end.

(** [open(p).read()]: [UnicodeDecodeError] is a subclass of [ValueError]. *)
Definition read_text (fs : FileSystem) (p : string) : result string :=
match fs p with
| Some (Text s) => Ok s
| Some Undecodable => Raise (ValueError "utf-8")
| Some Unreadable => Raise (OSError p)
| None => Raise (OSError p)
end.

(** ** The source line cache *)

Definition SrcCache : Type := @Dict.t string (list string).

(** [read_source_lines]: the module-level [_SRC_CACHE] is threaded through
  as state. *)
Definition read_source_lines (fs : FileSystem) (cache : SrcCache)
  (path : string) : result (list string) * SrcCache :=
match Dict.get String.eqb path cache with
| Some lines => (Ok lines, cache)
| None =>
    let cache1 :=
      if Z.of_nat (List.length cache) >? 2 then Dict.popitem cache
      else cache in
    match read_text fs path with
    | Ok full_src_text =>
        let lines := Py.splitlines true full_src_text in
        (Ok lines, Dict.set String.eqb path lines cache1)
    | Raise e => (Raise e, cache1)
    end
end.

(** A cache is coherent with the files when every cached path holds the
  lines of the file as it is now. *)
Definition coherent (fs : FileSystem) (cache : SrcCache) : Prop :=
forall p lines,
  Dict.get String.eqb p cache = Some lines ->
  exists s, fs p = Some (Text s) /\ lines = Py.splitlines true s.

(** The lines of a source file, read without the cache. While the files do
  not change, [read_source_lines] returns these (the cache is transparent,
  Part III); the functions below read through [source_lines]. *)
Definition source_lines (fs : FileSystem) (path : string)
  : result (list string) :=
full_src_text <- read_text fs path ;;
Ok (Py.splitlines true full_src_text).

(** ** The anchor resolver *)

Definition len_list {A} (l : list A) : Z := Z.of_nat (List.length l).

(** [0 <= line_idx < len(lines) and
   lines[line_idx].rstrip() == old_source_line.rstrip()] *)
Definition is_matching_line (lines : list string) (old_source_line : string)
  (line_idx : Z) : bool :=
(0 <=? line_idx) && (line_idx <? len_list lines)
&& match Py.getitem lines line_idx with
   | Ok l => String.eqb (Py.rstrip l) (Py.rstrip old_source_line)
   | Raise _ => false
   end.

(** The inner loop, over the set of the two candidate indices. *)
Fixpoint first_matching (lines : list string) (old_source_line : string)
  (candidates : list Z) : option Z :=
match candidates with
| [] => None
| line_idx :: rest =>
    if is_matching_line lines old_source_line line_idx
    then Some (line_idx + 1)
    else first_matching lines old_source_line rest
end.

(** The outer loop, over the offsets. *)
Fixpoint search_offsets (lines : list string) (old_source_line : string)
  (old_line_idx : Z) (offsets : list Z) : result Z :=
match offsets with
| [] => Raise (ObsoleteEntry "source text not found")
| offset :: rest =>
    match first_matching lines old_source_line
            (Py.set2 (old_line_idx - offset) (old_line_idx + offset)) with
    | Some lineno => Ok lineno
    | None => search_offsets lines old_source_line old_line_idx rest
    end
end.

Definition find_in_lines (lines : list string) (old_source_line : string)
  (old_lineno : Z) : result Z :=
let old_line_idx := old_lineno - 1 in
search_offsets lines old_source_line old_line_idx (Py.range 100).

Definition find_source_text_lineno (fs : FileSystem) (path : string)
  (old_source_line : string) (old_lineno : Z) : result Z :=
lines <- source_lines fs path ;;
find_in_lines lines old_source_line old_lineno.

Definition CONTEXT_LINES : Z := 2.

(** [len(s) - len(s.lstrip())] *)
Definition indent_lvl (s : string) : Z := Py.len s - Py.len (Py.lstrip s).

Definition is_def_token (tok : string) : bool :=
String.eqb tok "def" || String.eqb tok "class".

(** The [while maybe_def_idx > 0] loop of [read_source_text]; [n] is
  [maybe_def_idx]. The result is [(def_line_idx, def_line)]. *)
Fixpoint find_def_line (lines : list string) (line_indent_lvl start_idx : Z)
  (n : nat) : result (option Z * option string) :=
match n with
| O => Ok (None, None)
| S n' =>
    let maybe_def_idx := Z.of_nat n in
    line_text <- Py.getitem lines maybe_def_idx ;;
    if negb (Py.isempty (Py.strip line_text))
       && (indent_lvl line_text <? line_indent_lvl)
    then
      first_token <- Py.getitem (Py.split (Py.lstrip line_text)) 0 ;;
      if is_def_token first_token then
        let is_defline_before_ctx_src :=
          (0 <=? maybe_def_idx) && (maybe_def_idx <? start_idx) in
        if is_defline_before_ctx_src then
          def_line <- Py.getitem lines maybe_def_idx ;;
          Ok (Some maybe_def_idx, Some def_line)
        else Ok (None, None)
      else find_def_line lines line_indent_lvl start_idx n'
    else find_def_line lines line_indent_lvl start_idx n'
end.

Definition source_text_of_lines (lines : list string) (new_lineno old_lineno : Z)
  : result SourceText :=
let line_idx := new_lineno - 1 in
line0 <- Py.getitem lines line_idx ;;
let line_indent_lvl := indent_lvl line0 in
let start_idx := Z.max 0 (line_idx - CONTEXT_LINES) in
let end_idx := Z.min (len_list lines) (line_idx + CONTEXT_LINES + 1) in
let src_lines := Py.slice lines start_idx end_idx in
let src_text := Py.join0 src_lines in
source_line <- Py.getitem lines line_idx ;;
' (def_line_idx, def_line) <-
  find_def_line lines line_indent_lvl start_idx (Z.to_nat line_idx) ;;
Ok (mkSourceText new_lineno old_lineno source_line src_text start_idx end_idx
      def_line_idx def_line).

Definition read_source_text (fs : FileSystem) (path : string)
  (new_lineno old_lineno : Z) : result SourceText :=
lines <- source_lines fs path ;;
source_text_of_lines lines new_lineno old_lineno.

(** ** The entry normalizer *)

Definition EntryValues : Type := @Dict.t string string.

(** [entry_vals[key]] *)
Definition ev_getitem (entry_vals : EntryValues) (key : string)
  : result string :=
match Dict.get String.eqb key entry_vals with
| Some v => Ok v
| None => Raise (KeyError key)
end.

Definition ev_set (key value : string) (entry_vals : EntryValues)
  : EntryValues :=
Dict.set String.eqb key value entry_vals.

(** [m.group(name)] used as a [str]: on [None] the next method call raises
  [AttributeError]. *)
Definition group_str (name : string) (m : captures) : result string :=
match Re.group name m with
| Some v => Ok v
| None => Raise AttributeError
end.

(** The [try] statement of [_init_entry_item]: the anchor and the source
  line of the key. [except ObsoleteEntry] keeps the record, without an
  anchor and with the line that the catalog recorded. *)
Definition resolve_anchor (fs : FileSystem) (path0 old_source_line : string)
  (old_lineno : Z) : result (MaybeSourceText * string) :=
match
  (new_lineno <-
     find_source_text_lineno fs path0 old_source_line old_lineno ;;
   srctxt <- read_source_text fs path0 new_lineno old_lineno ;;
   Ok (Some srctxt, source_line srctxt))
with
| Raise (ObsoleteEntry _) => Ok (None, old_source_line)
| r => r
end.

Definition _init_entry_item (fs : FileSystem) (entry_vals : EntryValues)
  : result (Key * Entry) :=
old_ctx_src_text <- ev_getitem entry_vals "ctx_src_text" ;;
match Re.rmatch SOURCE_TEXT_RE old_ctx_src_text with
| None => Raise (ObsoleteEntry "Invalid source text")
| Some old_source_text_match =>
    path0 <- ev_getitem entry_vals "path" ;;
    old_source_line <- group_str "source_line" old_source_text_match ;;
    lineno <- ev_getitem entry_vals "lineno" ;;
    old_lineno <- Py.int lineno ;;
    ' (srctxt, source_line) <-
      resolve_anchor fs path0 old_source_line old_lineno ;;
    e_msg_id <- ev_getitem entry_vals "msg_id" ;;
    e_path <- ev_getitem entry_vals "path" ;;
    e_symbol <- ev_getitem entry_vals "symbol" ;;
    e_message <- ev_getitem entry_vals "message" ;;
    e_author <- ev_getitem entry_vals "author" ;;
    e_date <- ev_getitem entry_vals "date" ;;
    let ignorefile_entry :=
      mkEntry e_msg_id e_path e_symbol e_message e_author e_date srctxt in
    let ignorefile_key :=
      mkKey (msg_id ignorefile_entry) (path ignorefile_entry)
        (symbol ignorefile_entry) (msg_text ignorefile_entry) source_line in
    Ok (ignorefile_key, ignorefile_entry)
end.

(** ** The serializer of one entry *)

Definition NL : string := Py.str1 Py.nl.

(** [ENTRY_TEMPLATE.format(entry=entry, lineno=lineno,
  ctx_src_text=ctx_src_text)] *)
Definition ENTRY_TEMPLATE (entry : Entry) (lineno : Z) (ctx_src_text : string)
  : string :=
NL ++ "## File " ++ path entry ++ " - Line " ++ Py.str lineno ++ " - "
   ++ msg_id entry ++ " (" ++ symbol entry ++ ")" ++ NL
++ NL
++ "- `message: " ++ msg_text entry ++ "`" ++ NL
++ "- `author : " ++ author entry ++ "`" ++ NL
++ "- `date   : " ++ date entry ++ "`" ++ NL
++ NL
++ "```" ++ NL
++ ctx_src_text ++ NL
++ "```" ++ NL
++ NL
++ NL.

(** The truth value of an optional string and of an optional int. *)
Definition truthy_str (o : option string) : bool :=
match o with Some s => negb (Py.isempty s) | None => false end.

Definition truthy_int (o : option Z) : bool :=
match o with Some n => negb (n =? 0) | None => false end.

(** The lines for the definition line, when [def_line and def_line_idx]. *)
Definition def_src_lines (srctxt : SourceText) (padding_size : Z)
  : list string :=
match def_line srctxt, def_line_idx srctxt with
| Some dl, Some di =>
    if truthy_str (def_line srctxt) && truthy_int (def_line_idx srctxt) then
      let def_lineno := di + 1 in
      let line := Py.rstrip dl in
      ("  " ++ Py.rjust padding_size (Py.str def_lineno) ++ ": " ++ line)
        :: (if def_lineno + CONTEXT_LINES <? new_lineno srctxt
            then ["  ..."] else [])
    else []
| _, _ => []
end.

(** The loop over [enumerate(srctxt.text.splitlines())]. *)
Fixpoint ctx_src_lines (srctxt : SourceText) (lineno padding_size : Z)
  (offset : Z) (lines : list string) : list string :=
match lines with
| [] => []
| line :: rest =>
    let src_lineno := start_idx srctxt + offset + 1 in
    let padded_line :=
      if negb (Py.isempty (Py.strip line)) then " " ++ line else "" in
    let dumps_line :=
      if lineno =? src_lineno
      then "> " ++ Py.rjust padding_size (Py.str src_lineno) ++ ":"
                ++ padded_line
      else "  " ++ Py.rjust padding_size (Py.str src_lineno) ++ ":"
                ++ padded_line in
    dumps_line :: ctx_src_lines srctxt lineno padding_size (offset + 1) rest
end.

Definition _dumps_entry (entry : Entry) : string :=
let '(lineno, ctx_src_text) :=
  match srctxt entry with
  | None => (-1, "")
  | Some st =>
      let lineno := new_lineno st in
      let last_ctx_lineno := end_idx st + 1 in
      let padding_size := Py.len (Py.str last_ctx_lineno) in
      let src_lines :=
        (def_src_lines st padding_size
         ++ ctx_src_lines st lineno padding_size 0
              (Py.splitlines false (text st)))%list in
      (lineno, Py.join NL src_lines)
  end in
let entry_text := ENTRY_TEMPLATE entry lineno ctx_src_text in
Py.lstrip_char Py.nl entry_text.

(** ** The document parser *)

(** [_parse_ctx_src_text(fence, lines)]: the lines up to and with the closing
  fence; [next(lines)] raises [StopIteration] at the end of the file. The
  lines left in the iterator are returned with the text. *)
Fixpoint parse_ctx_loop (fence : string) (lines : list (Z * string))
  (ctx_src_text_lines : list string)
  : result (string * list (Z * string)) :=
match lines with
| [] => Raise StopIteration
| (_, next_line) :: rest =>
    let ctx_src_text_lines' := (ctx_src_text_lines ++ [next_line])%list in
    let is_close_fence := String.eqb (Py.strip next_line) fence in
    if is_close_fence then Ok (Py.join0 ctx_src_text_lines', rest)
    else parse_ctx_loop fence rest ctx_src_text_lines'
end.

Definition _parse_ctx_src_text (fence : string) (lines : list (Z * string))
  : result (string * list (Z * string)) :=
parse_ctx_loop fence lines [fence ++ NL].

(** [entry_vals.update(m.groupdict())] for the groups of the header. *)
Fixpoint update_groups (names : list string) (m : captures)
  (entry_vals : EntryValues) : EntryValues :=
match names with
| [] => entry_vals
| name :: names' =>
    match Re.group name m with
    | Some v => update_groups names' m (ev_set name v entry_vals)
    | None => update_groups names' m entry_vals
    end
end.

Definition header_groups : list string := ["path"; "lineno"; "msg_id"; "symbol"].

(** The record that is left when the lines run out. *)
Definition last_entry (entry_vals : EntryValues) : list EntryValues :=
if Dict.mem String.eqb "msg_id" entry_vals then [entry_vals] else [].

(** The loop of [_iter_entry_values] over the numbered lines, with the
  records it yields. The inner [fix] is [_parse_ctx_src_text] inlined, so
  that the loop goes on with the lines that it leaves (lemma
  [iter_loop_fence]); its [StopIteration] ends the loop. *)
Fixpoint iter_loop (lines : list (Z * string)) (entry_vals : EntryValues)
  : list EntryValues :=
match lines with
| [] => last_entry entry_vals
| (i, line) :: rest =>
    let ignorefile_lineno := i + 1 in
    if Py.startswith "```" line then
      let fence := Py.slice_to 3 line in
      (fix consume (ls : list (Z * string)) (acc : list string)
         : list EntryValues :=
         match ls with
         | [] => last_entry entry_vals
         | (_, next_line) :: ls' =>
             let acc' := (acc ++ [next_line])%list in
             if String.eqb (Py.strip next_line) fence
             then iter_loop ls' (ev_set "ctx_src_text" (Py.join0 acc')
                                   entry_vals)
             else consume ls' acc'
         end) rest [fence ++ NL]
    else
      match Re.rmatch ENTRY_HEADER_RE line with
      | Some entry_header =>
          let new_vals :=
            update_groups header_groups entry_header
              (ev_set "ignorefile_lineno" (Py.str ignorefile_lineno) []) in
          if Dict.mem String.eqb "msg_id" entry_vals
          then entry_vals :: iter_loop rest new_vals
          else
            iter_loop rest
              (update_groups header_groups entry_header
                 (ev_set "ignorefile_lineno" (Py.str ignorefile_lineno)
                    entry_vals))
      | None =>
          match Re.rmatch LIST_ITEM_RE line with
          | Some list_item =>
              match Re.group "key" list_item, Re.group "value" list_item with
              | Some key, Some value =>
                  iter_loop rest (ev_set key value entry_vals)
              | _, _ => iter_loop rest entry_vals
              end
          | None => iter_loop rest entry_vals
          end
      end
end.

(** The inner loop of [iter_loop] by name: what the loop yields from the
  lines [ls] after an opening fence, with [acc] the lines of the block so
  far. *)
Definition consume_from (fence : string) (entry_vals : EntryValues)
  : list (Z * string) -> list string -> list EntryValues :=
fix consume (ls : list (Z * string)) (acc : list string)
  : list EntryValues :=
  match ls with
  | [] => last_entry entry_vals
  | (_, next_line) :: ls' =>
      let acc' := (acc ++ [next_line])%list in
      if String.eqb (Py.strip next_line) fence
      then iter_loop ls' (ev_set "ctx_src_text" (Py.join0 acc') entry_vals)
      else consume ls' acc'
  end.

(** [enumerate(fobj)] *)
Fixpoint enumerate_from {A} (i : Z) (l : list A) : list (Z * A) :=
match l with
| [] => []
| a :: l' => (i, a) :: enumerate_from (i + 1) l'
end.

Definition records_of_text (content : string) : list EntryValues :=
iter_loop (enumerate_from 0 (Py.readlines content)) [].

Definition _iter_entry_values (fs : FileSystem) (ignorefile_path : string)
  : result (list EntryValues) :=
content <- read_text fs ignorefile_path ;;
Ok (records_of_text content).

(** ** Loading a catalog *)

(** [str(ex)] for the exceptions that [load] logs. *)
Definition exn_str (e : exn) : string :=
match e with
| KeyError k => "'" ++ k ++ "'"
| ValueError m => m
| _ => ""
end.

(** The loop of [load]: the catalog so far and the lines logged so far. *)
Fixpoint load_loop (fs : FileSystem) (records : list EntryValues)
  (catalog : Catalog) (log : list string)
  : result (Catalog * list string) :=
match records with
| [] => Ok (catalog, log)
| entry_vals :: rest =>
    match _init_entry_item fs entry_vals with
    | Ok (ignorefile_key, ignorefile_entry) =>
        load_loop fs rest
          (Dict.set Key_eqb ignorefile_key ignorefile_entry catalog) log
    | Raise (ObsoleteEntry _) => load_loop fs rest catalog log
    | Raise ((KeyError _ | ValueError _) as ex) =>
        lineno <- ev_getitem entry_vals "ignorefile_lineno" ;;
        path0 <- ev_getitem entry_vals "path" ;;
        let logmsg :=
          "Error parsing entry on line " ++ lineno ++ " of " ++ path0
          ++ ": " ++ exn_str ex in
        load_loop fs rest catalog (log ++ [logmsg])%list
    | Raise e => Raise e
    end
end.

(** [load]: the catalog, with the lines sent to [logger.error]. *)
Definition load_log (fs : FileSystem) (ignorefile_path : string)
  : result (Catalog * list string) :=
if negb (exists_ fs ignorefile_path) then Ok ([], [])
else
  records <- _iter_entry_values fs ignorefile_path ;;
  load_loop fs records [] [].

Definition load (fs : FileSystem) (ignorefile_path : string)
  : result Catalog :=
r <- load_log fs ignorefile_path ;; Ok (fst r).

(** ** Saving a catalog *)

Definition IGNOREFILE_HEADER : string :=
"# `pylint-ignore`" ++ NL
++ NL
++ "**WARNING: This file is programatically generated.**" ++ NL
++ NL
++ "This file is parsed by `pylint-ignore` to determine which `pylint`" ++ NL
++ "messages should be ignored." ++ NL
++ NL
++ "- Do not edit this file manually." ++ NL
++ "- To update, use `pylint-ignore --update-ignorefile`" ++ NL
++ NL
++ "The recommended approach to using `pylint-ignore` is:" ++ NL
++ NL
++ "1. If a message refers to a valid issue, update your code rather than" ++ NL
++ "   ignoring the message." ++ NL
++ "2. If a message should *always* be ignored (globally), then to do so" ++ NL
++ "   via the usual `pylintrc` or `setup.cfg` files rather than this" ++ NL
++ "  `pylint-ignore.md` file." ++ NL
++ "3. If a message is a false positive, add a comment of this form to your code:" ++ NL
++ "   `# pylint:disable=<symbol> ; explanation why this is a false positive`" ++ NL
++ NL.

(** The sort key [(e.msg_id, e.srctxt.new_lineno, e.msg_text)] of an entry
  that passed the filter [if e.srctxt]. *)
Definition sort_key (e : Entry) : string * Z * string :=
(msg_id e,
 match srctxt e with Some st => new_lineno st | None => 0 end,
 msg_text e).

(** Python's order on such tuples: strings by code points, ints by value. *)
Definition key_compare (a b : string * Z * string) : comparison :=
let '(a1, a2, a3) := a in
let '(b1, b2, b3) := b in
match String.compare a1 b1 with
| Eq => match Z.compare a2 b2 with
        | Eq => String.compare a3 b3
        | c => c
        end
| c => c
end.

Definition key_leb (a b : string * Z * string) : bool :=
match key_compare a b with Gt => false | _ => true end.

(** [list.sort(key=...)] is a stable sort; a stable sort has one result, the
  one that insertion computes. *)
Section Sort.
Context {A K : Type} (key : A -> K) (leb : K -> K -> bool).

Fixpoint insert_sorted (x : A) (l : list A) : list A :=
  match l with
  | [] => [x]
  | y :: l' =>
      if leb (key x) (key y) then x :: l else y :: insert_sorted x l'
  end.

Definition stable_sort (l : list A) : list A :=
  fold_right insert_sorted [] l.
End Sort.

(** [if e.srctxt]: a named tuple of eight fields is never falsy. *)
Definition has_srctxt (e : Entry) : bool :=
match srctxt e with Some _ => true | None => false end.

Definition dumps_entries (ignorefile : Catalog) : list Entry :=
stable_sort sort_key key_leb (filter has_srctxt (Dict.values ignorefile)).

Definition dumps (ignorefile : Catalog) : string :=
let ignorefile_chunks :=
  IGNOREFILE_HEADER :: map _dumps_entry (dumps_entries ignorefile) in
Py.join0 ignorefile_chunks.

(** What reading in text mode returns for a file to which [content] was
  written: ["\r\n"] and ["\r"] come back as ["\n"]. The line separator of
  the system is taken to be ["\n"], which writing leaves as it is. *)
Fixpoint universal_newlines (s : string) : string :=
match s with
| EmptyString => EmptyString
| String c s' =>
    if Ascii.eqb c Py.cr then
      String Py.nl
        (match s' with
         | String c2 s'' =>
             if Ascii.eqb c2 Py.nl then universal_newlines s''
             else universal_newlines s'
         | EmptyString => EmptyString
         end)
    else String c (universal_newlines s')
end.

(** [dump]: the text goes to [<name>.tmp], which is then moved over the
  target. The files after a call that raises nothing and whose target is no
  directory: the model holds files only, and a call whose write or move
  fails is outside it. *)
Definition write_text (fs : FileSystem) (p : string) (content : string)
  : FileSystem :=
fun q =>
  if String.eqb q p then Some (Text (universal_newlines content)) else fs q.

Definition remove (fs : FileSystem) (p : string) : FileSystem :=
fun q => if String.eqb q p then None else fs q.

Definition dump (fs : FileSystem) (ignorefile : Catalog)
  (ignorefile_path : string) : FileSystem :=
let ignorefile_text := dumps ignorefile in
let tmp_path := ignorefile_path ++ ".tmp" in
let fs1 := write_text fs tmp_path ignorefile_text in
write_text (remove fs1 tmp_path) ignorefile_path ignorefile_text.

(** ** Vocabulary of the statements *)

(** Line [lineno] (counted from 1) of [lines] is [txt], up to whitespace at
    the end. *)
Definition line_matches (lines : list string) (txt : string) (lineno : Z)
    : Prop :=
  1 <= lineno /\
  exists l, nth_error lines (Z.to_nat (lineno - 1)) = Some l /\
            Py.rstrip l = Py.rstrip txt.

(** No line at a distance below [d] from [lineno] is [txt]. *)
Definition none_closer (lines : list string) (txt : string) (lineno d : Z)
    : Prop :=
  forall n, Z.abs (n - lineno) < d -> ~ line_matches lines txt n.

(** The same, as a test that computes. *)
Definition none_closer_b (lines : list string) (txt : string) (lineno : Z)
    (d : nat) : bool :=
  forallb (fun off =>
             negb (is_matching_line lines txt (lineno - 1 - off))
             && negb (is_matching_line lines txt (lineno - 1 + off)))
          (Py.range d).

(** Files for the examples: [n] lines, all ["pass"] but the lines whose
    numbers are in [marked], which are ["x = 1"]. *)
Definition example_lines (n : nat) (marked : list Z) : list string :=
  map (fun i => if existsb (Z.eqb (i + 1)) marked
                then "x = 1" ++ NL else "pass" ++ NL)
      (Py.range n).

Definition example_text (n : nat) (marked : list Z) : string :=
  Py.join0 (example_lines n marked).

Definition one_file (p : string) (content : string) : FileSystem :=
  fun q => if String.eqb q p then Some (Text content) else None.

(** The fuzzy matcher in the words of its specification: a candidate shares
    [msg_id], [path] and [symbol] with the search key; it qualifies when
    each of the two distances is at most 4 and at most 20% of the longer of
    the two strings compared (for two empty strings, 0 is at most 20% of
    0). *)
Definition within_tolerance (a b : string) : bool :=
  let d := levenshtein a b in
  (d <=? FUZZY_MATCH_MAX_EDIT_DISTANCE_ABS)
  && (100 * d <=? FUZZY_MATCH_MAX_EDIT_DISTANCE_PCT
                  * Z.max (Py.len a) (Py.len b)).

Definition qualifies (search_key key : Key) : bool :=
  is_candidate search_key key
  && within_tolerance (key_msg_text key) (key_msg_text search_key)
  && within_tolerance (key_source_line key) (key_source_line search_key).

Definition find_entry_spec (catalog : Catalog) (search_key : Key)
    : option Entry :=
  match Dict.get Key_eqb search_key catalog with
  | Some e => Some e
  | None =>
      match filter (fun kv => qualifies search_key (fst kv)) catalog with
      | [(_, e)] => Some e
      | _ => None
      end
  end.

(** A pair of compared strings that makes the percentage a division by
    zero: both are empty. *)
Definition both_empty (a b : string) : bool :=
  Z.max (Py.len a) (Py.len b) =? 0.

(** No candidate of the catalog reaches a division by zero. *)
Definition no_empty_pair (catalog : Catalog) (search_key : Key) : Prop :=
  forall key, In key (Dict.keys catalog) ->
    is_candidate search_key key = true ->
    both_empty (key_msg_text key) (key_msg_text search_key) = false /\
    both_empty (key_source_line key) (key_source_line search_key) = false.

(** Catalogs for the examples. *)
Definition header_only (id p sym msg : string) : Entry :=
  mkEntry id p sym msg "A. Author" "2020-07-17T09:59:24" None.

Definition key_of (e : Entry) (line : string) : Key :=
  mkKey (msg_id e) (path e) (symbol e) (msg_text e) line.

Definition fixme_entry : Entry :=
  header_only "W0511" "a.py" "fixme" "TODO: refactor".

Definition empty_line_catalog : Catalog :=
  [(key_of fixme_entry "", fixme_entry)].

Definition empty_line_search_key : Key :=
  mkKey "W0511" "a.py" "fixme" "TODO: refactoR" "".

Definition empty_msg_entry : Entry := header_only "C0111" "a.py" "doc" "".

Definition empty_msg_catalog : Catalog :=
  [(key_of empty_msg_entry "    return value", empty_msg_entry);
   (key_of fixme_entry "    return value", fixme_entry)].

Definition empty_msg_search_key : Key :=
  mkKey "C0111" "a.py" "doc" "" "    return values".

(** Equality of sort keys. *)
Definition sort_key_eqb (a b : string * Z * string) : bool :=
  let '(a1, a2, a3) := a in
  let '(b1, b2, b3) := b in
  String.eqb a1 b1 && (a2 =? b2) && String.eqb a3 b3.

(** [a] is rendered before [b]: its sort key is not above. *)
Definition renders_before (a b : Entry) : Prop :=
  key_leb (sort_key a) (sort_key b) = true.

(** A source file whose first line is a definition, and the same file after
    a comment line. *)
Definition def_first_text : string :=
  "def f():" ++ NL
  ++ "    a = 1" ++ NL
  ++ "    b = 2" ++ NL
  ++ "    c = 3" ++ NL
  ++ "    return a" ++ NL
  ++ "    # end" ++ NL
  ++ "x = 0" ++ NL.

Definition def_second_text : string := "# module" ++ NL ++ def_first_text.

(** The anchor of line 5 of [def_first_text], with the definition line of
    index [i] recorded. *)
Definition anchor_with_def (i : Z) : SourceText :=
  mkSourceText 5 5 ("    return a" ++ NL)
    ("    b = 2" ++ NL ++ "    c = 3" ++ NL ++ "    return a" ++ NL
     ++ "    # end" ++ NL ++ "x = 0" ++ NL)
    2 7 (Some i) (Some ("def f():" ++ NL)).

Definition entry_with_def (i : Z) : Entry :=
  mkEntry "W0511" "a.py" "fixme" "TODO" "A. Author" "2020-07-17"
    (Some (anchor_with_def i)).

(** A catalog document of one entry for line 5 of [def_first_text], with
    [fence] as the fence of its context block. *)
Definition block_with (fence : string) : string :=
  fence ++ NL
  ++ "  3:     b = 2" ++ NL
  ++ "  4:     c = 3" ++ NL
  ++ "> 5:     return a" ++ NL
  ++ "  6:     # end" ++ NL
  ++ "  7: x = 0" ++ NL
  ++ fence ++ NL.

Definition document_with (fence : string) : string :=
  "## File a.py - Line 5 - W0511 (fixme)" ++ NL
  ++ NL
  ++ "- `message: TODO`" ++ NL
  ++ "- `author : A. Author`" ++ NL
  ++ "- `date   : 2020-07-17`" ++ NL
  ++ NL
  ++ block_with fence
  ++ NL
  ++ NL.

Definition project_with (fence : string) : FileSystem :=
  fun p =>
    if String.eqb p "a.py" then Some (Text def_first_text)
    else if String.eqb p "pylint-ignore.md" then Some (Text (document_with fence))
    else None.

(** A catalog document of three entries for [def_first_text]; the text of
    the second, [    d = 4], is nowhere in the file. *)
Definition record_text (lineno msg line : string) : string :=
  "## File a.py - Line " ++ lineno ++ " - W0511 (fixme)" ++ NL
  ++ NL
  ++ "- `message: " ++ msg ++ "`" ++ NL
  ++ "- `author : A. Author`" ++ NL
  ++ "- `date   : 2020-07-17`" ++ NL
  ++ NL
  ++ "```" ++ NL
  ++ "> " ++ lineno ++ ": " ++ line ++ NL
  ++ "```" ++ NL
  ++ NL
  ++ NL.

Definition three_records : string :=
  record_text "2" "TODO one" "    a = 1"
  ++ record_text "3" "TODO two" "    d = 4"
  ++ record_text "4" "TODO three" "    c = 3".

Definition three_project : FileSystem :=
  fun p =>
    if String.eqb p "a.py" then Some (Text def_first_text)
    else if String.eqb p "pylint-ignore.md" then Some (Text three_records)
    else None.

(** The [i]-th record of [three_records]. *)
Definition three_record (i : nat) : EntryValues :=
  nth i (records_of_text three_records) [].

(** A catalog document with problems of every kind: text that is no record,
    a header whose line number is no number, a record of a header and one
    item, a record whose block marks no line, a record without date, and a
    record whose block is not closed; the fourth record alone is sound. *)
Definition ragged_records : string :=
  "Notes on the project" ++ NL
  ++ "## File a.py - Line two - W0511 (fixme)" ++ NL
  ++ "- `owner  : nobody`" ++ NL
  ++ "## File a.py - Line 2 - W0511 (fixme)" ++ NL
  ++ "- `message: TODO one`" ++ NL
  ++ "## File a.py - Line 3 - W0511 (fixme)" ++ NL
  ++ "- `message: TODO two`" ++ NL
  ++ "- `author : A. Author`" ++ NL
  ++ "- `date   : 2020-07-17`" ++ NL
  ++ "```" ++ NL
  ++ "  3:     b = 2" ++ NL
  ++ "```" ++ NL
  ++ record_text "4" "TODO three" "    c = 3"
  ++ "## File a.py - Line 5 - W0511 (fixme)" ++ NL
  ++ "- `message: TODO four`" ++ NL
  ++ "- `author : A. Author`" ++ NL
  ++ "```" ++ NL
  ++ "> 5:     return a" ++ NL
  ++ "```" ++ NL
  ++ "## File a.py - Line 6 - W0511 (fixme)" ++ NL
  ++ "- `message: TODO five`" ++ NL
  ++ "- `author : A. Author`" ++ NL
  ++ "- `date   : 2020-07-17`" ++ NL
  ++ "```" ++ NL
  ++ "> 6:     # end" ++ NL.

Definition ragged_project : FileSystem :=
  fun p =>
    if String.eqb p "a.py" then Some (Text def_first_text)
    else if String.eqb p "pylint-ignore.md" then Some (Text ragged_records)
    else None.

(** ** What a match of a pattern is

    [matches r pos s caps pos' s' caps']: the pattern [r] can consume the
    characters between [s] and its suffix [s'], taking the position from
    [pos] to [pos'] and the groups from [caps] to [caps']. The matcher [run]
    finds such matches only (lemma [run_sound]). *)

Fixpoint all_class (cc : cclass) (u : string) : Prop :=
  match u with
  | EmptyString => True
  | String c u' => cmatch cc c = true /\ all_class cc u'
  end.

Fixpoint matches (r : re) (pos : nat) (s : string) (caps : captures)
    (pos' : nat) (s' : string) (caps' : captures) : Prop :=
  match r with
  | RLit l => s = l ++ s' /\ pos' = (pos + String.length l)%nat /\ caps' = caps
  | RClass cc =>
      exists c, s = String c s' /\ cmatch cc c = true
                /\ pos' = S pos /\ caps' = caps
  | RStar cc =>
      exists u, s = u ++ s' /\ all_class cc u
                /\ pos' = (pos + String.length u)%nat /\ caps' = caps
  | RPlus cc =>
      exists u, u <> "" /\ s = u ++ s' /\ all_class cc u
                /\ pos' = (pos + String.length u)%nat /\ caps' = caps
  | RSeq r1 r2 =>
      exists p1 s1 c1,
        matches r1 pos s caps p1 s1 c1 /\ matches r2 p1 s1 c1 pos' s' caps'
  | RAlt r1 r2 =>
      matches r1 pos s caps pos' s' caps' \/ matches r2 pos s caps pos' s' caps'
  | ROpt r1 =>
      matches r1 pos s caps pos' s' caps'
      \/ (pos' = pos /\ s' = s /\ caps' = caps)
  | RGroup name r1 =>
      exists c1,
        matches r1 pos s caps pos' s' c1
        /\ caps' = (name, Py.slice_to (pos' - pos) s) :: c1
  | RBol => pos = O /\ pos' = pos /\ s' = s /\ caps' = caps
  | REol => at_eol s = true /\ pos' = pos /\ s' = s /\ caps' = caps
  end.

(** The groups that take part in every match of a pattern. *)
Fixpoint sure_groups (r : re) : list string :=
  match r with
  | RSeq r1 r2 => (sure_groups r1 ++ sure_groups r2)%list
  | RGroup name r1 => name :: sure_groups r1
  | _ => []
  end.

(** ** Vocabulary for records *)

(** The exceptions that [load] lets through are those of the file system. *)
Definition is_OSError (e : exn) : Prop :=
  match e with OSError _ => True | _ => False end.

(** A path that cannot be opened for reading. *)
Definition cannot_open (fs : FileSystem) (p : string) : Prop :=
  fs p = None \/ fs p = Some Unreadable.

(** The exceptions of [_init_entry_item] that [load] handles, and those of
    the file system, for a source file that cannot be opened. *)
Definition record_error (fs : FileSystem) (e : exn) : Prop :=
  match e with
  | ObsoleteEntry _ | KeyError _ | ValueError _ => True
  | OSError p => cannot_open fs p
  | _ => False
  end.

(** The anchor that a record stores: the path, the text of the line marked
    in its context block, and the line number of its header. *)
Definition record_anchor (entry_vals : EntryValues)
    : option (string * string * Z) :=
  match ev_getitem entry_vals "ctx_src_text",
        ev_getitem entry_vals "path",
        ev_getitem entry_vals "lineno" with
  | Ok t, Ok p, Ok s =>
      match Re.rmatch SOURCE_TEXT_RE t, Py.int s with
      | Some m, Ok n =>
          match Re.group "source_line" m with
          | Some line => Some (p, line, n)
          | None => None
          end
      | _, _ => None
      end
  | _, _, _ => None
  end.

Definition entry_fields : list string :=
  ["msg_id"; "path"; "symbol"; "message"; "author"; "date"].

Definition has_fields (entry_vals : EntryValues) : bool :=
  forallb (fun f => Dict.mem String.eqb f entry_vals) entry_fields.

(** A record is well formed when it has the six fields of an entry and a
    context block that the pattern accepts. *)
Definition well_formed (entry_vals : EntryValues) : Prop :=
  has_fields entry_vals = true /\ record_anchor entry_vals <> None.

(** The anchor of a record is lost when its text is at no line within the
    search radius of its file, and resolves when it is at one. *)
Definition anchor_lost (fs : FileSystem) (entry_vals : EntryValues) : Prop :=
  exists p line n msg,
    record_anchor entry_vals = Some (p, line, n)
    /\ find_source_text_lineno fs p line n = Raise (ObsoleteEntry msg).

Definition anchor_resolves (fs : FileSystem) (entry_vals : EntryValues)
    : Prop :=
  exists p line n new,
    record_anchor entry_vals = Some (p, line, n)
    /\ find_source_text_lineno fs p line n = Ok new.

(** The entry of a record, from its header and list items alone. *)
Definition field (entry_vals : EntryValues) (f : string) : string :=
  match Dict.get String.eqb f entry_vals with Some v => v | None => "" end.

Definition entry_of_record (entry_vals : EntryValues) (st : MaybeSourceText)
    : Entry :=
  mkEntry (field entry_vals "msg_id") (field entry_vals "path")
    (field entry_vals "symbol") (field entry_vals "message")
    (field entry_vals "author") (field entry_vals "date") st.

(** The catalog that a loop over [items] fills. *)
Definition catalog_of_items (items : list (Key * Entry)) : Catalog :=
  fold_left (fun c ke => Dict.set Key_eqb (fst ke) (snd ke) c) items [].

(** The items of the records that [_init_entry_item] accepts. *)
Definition loaded_items (fs : FileSystem) (records : list EntryValues)
    : list (Key * Entry) :=
  flat_map (fun v => match _init_entry_item fs v with
                     | Ok ke => [ke]
                     | Raise _ => []
                     end) records.

(** A line of the log names the catalog line and the path of a record. *)
Definition log_line_of (records : list EntryValues) (l : string) : Prop :=
  exists v n p detail,
    In v records
    /\ ev_getitem v "ignorefile_lineno" = Ok n
    /\ ev_getitem v "path" = Ok p
    /\ l = "Error parsing entry on line " ++ n ++ " of " ++ p ++ ": " ++ detail.

(** A record that names its place in the catalog and its file. *)
Definition located (v : EntryValues) : Prop :=
  Dict.mem String.eqb "ignorefile_lineno" v = true
  /\ Dict.mem String.eqb "path" v = true.

(** The record in progress names its place once it has a header. *)
Definition pending_ok (v : EntryValues) : Prop :=
  Dict.mem String.eqb "msg_id" v = true -> located v.

(** What [load] makes of a well-formed record [v]: the item [ke]. A lost
    anchor leaves an entry without [SourceText], under a key with the line
    that the catalog recorded; an anchor that resolves gives an entry with
    one. *)
Definition kept_as (fs : FileSystem) (v : EntryValues) (ke : Key * Entry)
    : Prop :=
  _init_entry_item fs v = Ok ke
  /\ (anchor_lost fs v ->
      srctxt (snd ke) = None
      /\ exists p line n,
          record_anchor v = Some (p, line, n)
          /\ key_source_line (fst ke) = line)
  /\ (anchor_resolves fs v -> srctxt (snd ke) <> None).

(** The records that [load] logs: those on which [_init_entry_item] raises
    [KeyError] or [ValueError]. *)
Definition is_logged (fs : FileSystem) (v : EntryValues) : bool :=
  match _init_entry_item fs v with
  | Raise (KeyError _ | ValueError _) => true
  | _ => false
  end.

(** The line that [load] logs for the record [v]: it names the catalog line
    and the path of [v], and ends with the text of the exception. *)
Definition log_line_for (v : EntryValues) (l : string) : Prop :=
  exists n p detail,
    ev_getitem v "ignorefile_lineno" = Ok n
    /\ ev_getitem v "path" = Ok p
    /\ l = "Error parsing entry on line " ++ n ++ " of " ++ p ++ ": " ++ detail.

(** [q] is the source file that a record of [records] names. *)
Definition names_source (records : list EntryValues) (q : string) : Prop :=
  exists v, In v records /\ ev_getitem v "path" = Ok q.

(** ** Vocabulary for the round trip *)

Fixpoint all_chars (p : ascii -> bool) (s : string) : bool :=
  match s with
  | EmptyString => true
  | String c s' => p c && all_chars p s'
  end.

(** The text [s] cannot extend a repetition of the class [cc]. *)
Definition stops (cc : cclass) (s : string) : bool :=
  match s with
  | EmptyString => true
  | String a _ => negb (cmatch cc a)
  end.

(** The pattern [r], followed by [k], accepts [s] with result [c], or
    rejects [s], wherever it starts. *)
Definition accepts (r : re) (s : string) (caps : captures) (k : cont)
    (c : captures) : Prop :=
  forall pos, run r pos s caps k = Some c.

Definition rejects (r : re) (s : string) (caps : captures) (k : cont) : Prop :=
  forall pos, run r pos s caps k = None.

Definition kaccepts (k : cont) (s : string) (caps c : captures) : Prop :=
  forall pos, k pos s caps = Some c.

Definition krejects (k : cont) (s : string) (caps : captures) : Prop :=
  forall pos, k pos s caps = None.

(** [k] after [r]. *)
Definition andthen (r : re) (k : cont) : cont :=
  fun pos s caps => run r pos s caps k.

(** [k] with the group [name] set to [v]. *)
Definition with_group (name v : string) (k : cont) : cont :=
  fun pos s caps => k pos s ((name, v) :: caps).

Definition not_space (c : ascii) : bool := negb (Py.isspace c).
Definition not_newline (c : ascii) : bool := negb (Ascii.eqb c Py.nl).
Definition not_linebreak (c : ascii) : bool := negb (Py.islinebreak c).

(** A string without a newline, and one without whitespace. *)
Definition single_line (s : string) : bool := all_chars not_newline s.
Definition no_space (s : string) : bool := all_chars not_space s.

(** A message id as pylint writes it: a word character and digits. *)
Definition is_msg_id (s : string) : bool :=
  match s with
  | String w (String d ds) =>
      Py.isword w && Py.isdigit d && all_chars Py.isdigit ds
  | _ => false
  end.

(** [s] starts with [p]. *)
Fixpoint has_prefix (p s : string) : bool :=
  match p, s with
  | EmptyString, _ => true
  | String a p', String b s' => Ascii.eqb a b && has_prefix p' s'
  | _, EmptyString => false
  end.

(** [w] starts the way the header pattern goes on after the path: a blank,
    a dash, a blank and [Line]. *)
Definition sep_at (w : string) : bool :=
  match w with
  | String a (String b (String c t)) =>
      Py.isspace a && Ascii.eqb "-" b && Py.isspace c && has_prefix "Line" t
  | _ => false
  end.

Fixpoint has_sep (s : string) : bool :=
  match s with
  | EmptyString => false
  | String a s' => sep_at s || has_sep s'
  end.

(** The header line of an entry, in the segments of the header pattern:
    first what follows the path and its blank. *)
Definition header_tail (lineno : string) (w d : ascii) (ds sym : string)
    : string :=
  "-" ++ String " " ("Line" ++ String " " (lineno ++ String " " ("-"
    ++ String " " (String w (String d (ds ++ String " " ("(" ++ sym
         ++ String ")" NL))))))).

Definition header_line (p lineno : string) (w d : ascii) (ds sym : string)
    : string :=
  "##" ++ String " " ("File" ++ String " "
    (p ++ String " " (header_tail lineno w d ds sym))).

(** A list item of an entry: [label] is the key with its padding. *)
Definition item_line (label value : string) : string :=
  "-" ++ String " " ("`" ++ label ++ ":" ++ String " "
    (value ++ String "`" NL)).

(** A numbered line of a context block, in the segments of the pattern:
    the blanks before the number, the digits of the number, and the text
    after the colon and its blank. *)
Record numbered : Type := mkNumbered {
  num_ws : string;
  num_d0 : ascii;
  num_ds : string;
  num_body : string
}.

Definition numbered_ok (l : numbered) : bool :=
  all_chars Py.isspace (num_ws l) && Py.isdigit (num_d0 l)
  && all_chars Py.isdigit (num_ds l) && single_line (num_body l).

Definition number_and_text (l : numbered) (next : string) : string :=
  num_ws l ++ String (num_d0 l) (num_ds l ++ ":" ++ String " "
    (num_body l ++ next)).

(** A context line, a marked line and the ellipsis line, each after the
    newline of the line before it and followed by [next]. *)
Definition show_ctx (l : numbered) (next : string) : string :=
  String Py.nl (String " " (number_and_text l next)).

Definition show_anchor (l : numbered) (next : string) : string :=
  String Py.nl (">" ++ String " " (number_and_text l next)).

Definition show_ellipsis (next : string) : string :=
  String Py.nl (String " " (String " " ("..." ++ next))).

Fixpoint show_ctx_lines (ls : list numbered) (next : string) : string :=
  match ls with
  | [] => next
  | l :: ls' => show_ctx l (show_ctx_lines ls' next)
  end.

(** A context block: maybe a definition line with its ellipsis, the lines
    before the marked line, the marked line, the lines after it. *)
Definition show_block (def : option numbered) (before : list numbered)
    (anchor : numbered) (after : list numbered) : string :=
  "```"
  ++ (match def with
      | Some d => fun s => show_ctx d (show_ellipsis s)
      | None => fun s => s
      end)
       (show_ctx_lines before
          (show_anchor anchor
             (show_ctx_lines after (String Py.nl ("```" ++ NL))))).

(** Three dots in a row, somewhere in [s]. *)
Fixpoint has_dots (s : string) : bool :=
  match s with
  | EmptyString => false
  | String _ s' => has_prefix "..." s || has_dots s'
  end.

(** [w] starts with whitespace that three dots follow. *)
Definition ws_dots (w : string) : bool :=
  match w with
  | String a t => Py.isspace a && has_prefix "..." (Py.lstrip t)
  | EmptyString => false
  end.

(** What follows the blanks of a definition line in the pattern: a number,
    a colon, a blank, the text of the line, then blanks and an ellipsis. *)
Definition def_line_tail : re :=
  RSeq (RGroup "def_lineno" (RPlus CDigit))
    (RSeq (RLit ":") (RSeq (RClass CSpace) (RGroup "def_line" (RStar CDot)))).

(** The groups of a definition line. *)
Definition def_groups (def : option numbered) : captures :=
  match def with
  | Some d =>
      [("def_line", num_body d);
       ("def_lineno", String (num_d0 d) (num_ds d))]
  | None => []
  end.

(** ** Vocabulary for the anchor builder *)

(** A line that ends the search for the definition line of an anchor
    indented by [lvl]: it is not blank, it is indented less, and its first
    token is [def] or [class]. *)
Definition starts_definition (lvl : Z) (l : string) : bool :=
  negb (Py.isempty (Py.strip l))
  && (indent_lvl l <? lvl)
  && match Py.getitem (Py.split (Py.lstrip l)) 0 with
     | Ok tok => is_def_token tok
     | Raise _ => false
     end.

(** What the search for the definition line returns, from the line of index
    [last] upwards, for a context that starts at index [start]: the nearest
    line above that starts a definition when it lies before the context,
    and nothing when there is no such line above index 0 or when the
    nearest one lies in the context. *)
Definition definition_line_of (lines : list string) (lvl start last : Z)
    (r : option Z * option string) : Prop :=
  match r with
  | (Some i, Some l) =>
      1 <= i <= last /\ i < start
      /\ nth_error lines (Z.to_nat i) = Some l
      /\ starts_definition lvl l = true
      /\ (forall j l', i < j <= last ->
            nth_error lines (Z.to_nat j) = Some l' ->
            starts_definition lvl l' = false)
  | (None, None) =>
      forall j l', 1 <= j <= last -> j < start ->
        nth_error lines (Z.to_nat j) = Some l' ->
        starts_definition lvl l' = true ->
        exists j' l'', j < j' <= last
                       /\ nth_error lines (Z.to_nat j') = Some l''
                       /\ starts_definition lvl l'' = true
  | _ => False
  end.

(** ** Vocabulary for the rendering of an entry *)

(** The lines of a context block, without their newlines. *)
Definition render_ctx (l : numbered) : string :=
  String " " (number_and_text l "").

Definition render_anchor (l : numbered) : string :=
  ">" ++ String " " (number_and_text l "").

Definition render_block (def : option numbered) (before : list numbered)
    (anchor : numbered) (after : list numbered) : list string :=
  ((match def with
    | Some d => [render_ctx d; "  ..."]
    | None => []
    end)
   ++ map render_ctx before ++ render_anchor anchor :: map render_ctx after)%list.

(** The text of [ls], a newline before each line, and then [next]. *)
Definition lines_text (ls : list string) (next : string) : string :=
  fold_right (fun l acc => NL ++ l ++ acc) next ls.

(** The text of a context block as a record holds it. *)
Definition block_text (block : list string) : string :=
  "```" ++ NL ++ Py.join0 (map (fun l => l ++ NL) block) ++ "```" ++ NL.

(** A line that opens or closes a context block. *)
Definition fence_line : string := "```" ++ NL.

(** The lines that [_dumps_entry] writes for an entry. *)
Definition chunk_lines (p lineno : string) (w d : ascii)
    (ds sym msg aut dat : string) (block : list string) : list string :=
  ([ header_line p lineno w d ds sym; NL;
     item_line "message" msg; item_line "author " aut;
     item_line "date   " dat; NL; fence_line ]
   ++ map (fun l => (l ++ NL)%string) block ++ [ fence_line; NL; NL ])%list.

(** The record that the parser makes of these lines, which start at the
    line of number [ln] of the catalog. *)
Definition record_of (ln p lineno msgid sym msg aut dat : string)
    (block : list string) : EntryValues :=
  [ ("ignorefile_lineno", ln); ("path", p); ("lineno", lineno);
    ("msg_id", msgid); ("symbol", sym); ("message", msg); ("author", aut);
    ("date", dat); ("ctx_src_text", block_text block) ].

(** A line that the parser passes over: no fence, no header, no item. *)
Definition inert (l : Z * string) : bool :=
  negb (Py.startswith "```" (snd l))
  && match Re.rmatch ENTRY_HEADER_RE (snd l) with
     | Some _ => false
     | None =>
         match Re.rmatch LIST_ITEM_RE (snd l) with
         | Some _ => false
         | None => true
         end
     end.

(** A text without line-break characters. *)
Definition plain (s : string) : bool := all_chars not_linebreak s.

(** A line of a context block: one line, which does not close the block. *)
Definition block_line_ok (l : string) : Prop :=
  plain l = true /\ Py.strip (l ++ NL) <> "```".

(** The digits of [str(n)]. *)
Definition str_d0 (n : Z) : ascii :=
  match Py.str n with String d _ => d | EmptyString => "0"%char end.

Definition str_ds (n : Z) : string :=
  match Py.str n with String _ ds => ds | EmptyString => "" end.

(** The numbered line of number [k] and text [body], with the number
    right-aligned in a field of width [pad] after the blanks [lead]. *)
Definition numbered_line (lead : string) (pad k : Z) (body : string)
    : numbered :=
  mkNumbered (lead ++ Py.spaces (Z.to_nat (pad - Py.len (Py.str k))))
    (str_d0 k) (str_ds k) body.

Fixpoint number_from (pad k : Z) (bodies : list string) : list numbered :=
  match bodies with
  | [] => []
  | b :: bodies' => numbered_line " " pad k b :: number_from pad (k + 1) bodies'
  end.

(** ** Vocabulary for the round trip *)

(** The text of a line that ends with a newline. *)
Fixpoint line_body (l : string) : option string :=
  match l with
  | EmptyString => None
  | String c l' =>
      match l' with
      | EmptyString => if Ascii.eqb c Py.nl then Some "" else None
      | _ => option_map (String c) (line_body l')
      end
  end.

(** A line of a source file that its context block shows as it is: it
    ends with a newline, has no other line-break character, and is not
    blank. *)
Definition window_line (l : string) : bool :=
  match line_body l with
  | Some b => plain b && negb (Py.isempty (Py.strip b))
  | None => false
  end.

(** The list [src_lines] of [_dumps_entry]. *)
Definition block_src_lines (st : SourceText) : list string :=
  let padding_size := Py.len (Py.str (end_idx st + 1)) in
  (def_src_lines st padding_size
   ++ ctx_src_lines st (new_lineno st) padding_size 0
        (Py.splitlines false (text st)))%list.

(** The anchor [st] is the anchor of a line of the file of lines [lines],
    and its context block can be read back: the lines of the context are
    shown as they are; the definition line, when there is one, has no
    line-break character before the blanks at its end; when there is none,
    the first line of a context that starts before the marked line has no
    three dots in a row. *)
Definition anchored (lines : list string) (st : SourceText) : Prop :=
  1 <= new_lineno st
  /\ source_text_of_lines lines (new_lineno st) (old_lineno st) = Ok st
  /\ forallb window_line (Py.slice lines (start_idx st) (end_idx st)) = true
  /\ match def_line st with
     | Some dl => plain (Py.rstrip dl) = true
     | None =>
         start_idx st < new_lineno st - 1 ->
         forall l, nth_error lines (Z.to_nat (start_idx st)) = Some l ->
                   has_dots l = false
     end.

(** The fields of an entry that its header and list items show as they
    are. *)
Definition fields_plain (e : Entry) : Prop :=
  plain (path e) = true /\ is_msg_id (msg_id e) = true
  /\ no_space (symbol e) = true /\ plain (msg_text e) = true
  /\ plain (author e) = true /\ plain (date e) = true.

(** An item of a catalog that is written to [ignorefile_path] and read
    back: an entry without anchor is not written; an entry with an anchor
    is filed under its own key, its fields and its anchor can be read back,
    and its source file is not the catalog file. *)
Definition round_trips (fs : FileSystem) (ignorefile_path : string)
    (ke : Key * Entry) : Prop :=
  match srctxt (snd ke) with
  | None => True
  | Some st =>
      fst ke = key_of (snd ke) (source_line st)
      /\ fields_plain (snd ke)
      /\ path (snd ke) <> ignorefile_path
      /\ path (snd ke) <> ignorefile_path ++ ".tmp"
      /\ exists lines,
           source_lines fs (path (snd ke)) = Ok lines /\ anchored lines st
  end.

(** An item as it is after a reload: the old line number of the anchor is
    the line number that the catalog showed, the new one. *)
Definition relocated_anchor (st : SourceText) : SourceText :=
  mkSourceText (new_lineno st) (new_lineno st) (source_line st) (text st)
    (start_idx st) (end_idx st) (def_line_idx st) (def_line st).

Definition relocated (ke : Key * Entry) : Key * Entry :=
  let e := snd ke in
  (fst ke,
   mkEntry (msg_id e) (path e) (symbol e) (msg_text e) (author e) (date e)
     (option_map relocated_anchor (srctxt e))).

(** The items of a catalog in the order in which [dumps] writes them. *)
Definition dumped_items (ignorefile : Catalog) : list (Key * Entry) :=
  stable_sort (fun ke => sort_key (snd ke)) key_leb
    (filter (fun ke => has_srctxt (snd ke)) ignorefile).

(** A numbered line that is written and read back as it is. *)
Definition wellnumbered (l : numbered) : Prop :=
  numbered_ok l = true /\ plain (num_ws l) = true
  /\ plain (num_body l) = true.

(** A text without a carriage return. *)
Definition cr_free (s : string) : bool :=
  all_chars (fun c => negb (Ascii.eqb c Py.cr)) s.

(** A line of a text file, without its newline. *)
Definition text_line (l : string) : Prop :=
  exists u, l = u ++ NL /\ plain u = true.

(** The record of an entry with an anchor, for an entry whose lines start
    at the line of number [ln] of the catalog. *)
Definition record_for (ln : string) (e : Entry) : EntryValues :=
  match srctxt e with
  | Some st =>
      record_of ln (path e) (Py.str (new_lineno st)) (msg_id e) (symbol e)
        (msg_text e) (author e) (date e) (block_src_lines st)
  | None => []
  end.

(** An entry that [dumps] writes, and that is read back. *)
Definition renderable (fs : FileSystem) (e : Entry) : Prop :=
  exists st lines,
    srctxt e = Some st /\ fields_plain e
    /\ source_lines fs (path e) = Ok lines /\ anchored lines st.

(** A catalog for the examples: two entries for lines of
    [def_second_text], the first found three lines below where it was
    recorded, and an entry without anchor. *)
Definition example_anchor (new old : Z) : SourceText :=
  match source_text_of_lines (Py.splitlines true def_second_text) new old with
  | Ok st => st
  | Raise _ => mkSourceText 0 0 "" "" 0 0 None None
  end.

Definition example_entry (id msg : string) (new old : Z) : Entry :=
  mkEntry id "a.py" "fixme" msg "A. Author" "2020-07-17"
    (Some (example_anchor new old)).

Definition example_item (e : Entry) : Key * Entry :=
  (key_of e (match srctxt e with
             | Some st => source_line st
             | None => ""
             end), e).

Definition example_catalog : Catalog :=
  [ example_item (example_entry "W0511" "TODO: return `b - Line 3`" 6 3);
    example_item (header_only "W0511" "a.py" "fixme" "TODO: gone");
    example_item (example_entry "C0111" "Missing docstring" 3 3) ].

(** The entry of an item that was read back. *)
Definition relocated_entry (e : Entry) : Entry :=
  snd (relocated (key_of e "", e)).



(* ================================================================== *)
(** * Part II: properties *)
(* ================================================================== *)

(** ** Results and the dictionary *)

Lemma bind_Ok {A B} (m : result A) (f : A -> result B) b :
  bind m f = Ok b -> exists a, m = Ok a /\ f a = Ok b.
Proof. destruct m; simpl; intros H; [eauto | discriminate]. Qed.

Lemma String_eqb_refl s : String.eqb s s = true.
Proof. apply String.eqb_eq; reflexivity. Qed.

Lemma Key_eqb_eq a b : Key_eqb a b = true <-> a = b.
Proof.
  unfold Key_eqb. rewrite !andb_true_iff, !String.eqb_eq.
  destruct a, b; simpl. split.
  - intros [[[[-> ->] ->] ->] ->]; reflexivity.
  - intros H; injection H; auto.
Qed.

Lemma Key_eqb_refl a : Key_eqb a a = true.
Proof. apply Key_eqb_eq; reflexivity. Qed.

(** ** The matcher finds matches only *)

Lemma orelse_Some {A} (x y : option A) (a : A) :
  orelse x y = Some a -> x = Some a \/ y = Some a.
Proof. destruct x; simpl; auto. Qed.

Lemma lit_sound (l : string) :
  forall pos s caps k c,
    lit l pos s caps k = Some c ->
    exists s', s = l ++ s' /\ k (pos + String.length l)%nat s' caps = Some c.
Proof.
  induction l as [|a l IH]; intros pos s caps k c H; simpl in H.
  - exists s. rewrite Nat.add_0_r. auto.
  - destruct s as [|b s]; [discriminate|].
    destruct (Ascii.eqb a b) eqn:E; [|discriminate].
    apply Ascii.eqb_eq in E. subst b.
    destruct (IH _ _ _ _ _ H) as (s' & -> & Hk).
    exists s'. split; [reflexivity|].
    simpl String.length. rewrite Nat.add_succ_r. exact Hk.
Qed.

Lemma star_sound (cc : cclass) :
  forall s pos caps k c,
    star cc pos s caps k = Some c ->
    exists u s', s = u ++ s' /\ all_class cc u
                 /\ k (pos + String.length u)%nat s' caps = Some c.
Proof.
  induction s as [|a s IH]; intros pos caps k c H; simpl in H.
  - exists "", "". rewrite Nat.add_0_r. simpl. auto.
  - destruct (cmatch cc a) eqn:E.
    + apply orelse_Some in H. destruct H as [H | H].
      * destruct (IH _ _ _ _ H) as (u & s' & -> & Hu & Hk).
        exists (String a u), s'. simpl.
        rewrite Nat.add_succ_r. auto.
      * exists "", (String a s). rewrite Nat.add_0_r. simpl. auto.
    + exists "", (String a s). rewrite Nat.add_0_r. simpl. auto.
Qed.

Lemma run_sound (r : re) :
  forall pos s caps k c,
    run r pos s caps k = Some c ->
    exists pos' s' caps',
      matches r pos s caps pos' s' caps' /\ k pos' s' caps' = Some c.
Proof.
  induction r as [l | cc | cc | cc | r1 IH1 r2 IH2 | r1 IH1 r2 IH2
                 | r1 IH1 | name r1 IH1 | | ];
    intros pos s caps k c H; simpl in H.
  - destruct (lit_sound _ _ _ _ _ _ H) as (s' & -> & Hk).
    exists (pos + String.length l)%nat, s', caps. simpl. auto.
  - destruct s as [|a s]; [discriminate|].
    destruct (cmatch cc a) eqn:E; [|discriminate].
    exists (S pos), s, caps. simpl. split; [exists a|]; auto.
  - destruct (star_sound _ _ _ _ _ _ H) as (u & s' & -> & Hu & Hk).
    exists (pos + String.length u)%nat, s', caps. simpl.
    split; [exists u|]; auto.
  - destruct s as [|a s]; [discriminate|].
    destruct (cmatch cc a) eqn:E; [|discriminate].
    destruct (star_sound _ _ _ _ _ _ H) as (u & s' & -> & Hu & Hk).
    exists (S pos + String.length u)%nat, s', caps. simpl.
    split; [|exact Hk].
    exists (String a u). simpl. rewrite Nat.add_succ_r.
    repeat split; auto. discriminate.
  - destruct (IH1 _ _ _ _ _ H) as (p1 & s1 & c1 & H1 & Hk1).
    destruct (IH2 _ _ _ _ _ Hk1) as (p2 & s2 & c2 & H2 & Hk2).
    exists p2, s2, c2. simpl. split; [exists p1, s1, c1|]; auto.
  - apply orelse_Some in H. destruct H as [H | H].
    + destruct (IH1 _ _ _ _ _ H) as (p1 & s1 & c1 & H1 & Hk1).
      exists p1, s1, c1. simpl. auto.
    + destruct (IH2 _ _ _ _ _ H) as (p1 & s1 & c1 & H1 & Hk1).
      exists p1, s1, c1. simpl. auto.
  - apply orelse_Some in H. destruct H as [H | H].
    + destruct (IH1 _ _ _ _ _ H) as (p1 & s1 & c1 & H1 & Hk1).
      exists p1, s1, c1. simpl. auto.
    + exists pos, s, caps. simpl. auto.
  - destruct (IH1 _ _ _ _ _ H) as (p1 & s1 & c1 & H1 & Hk1).
    exists p1, s1, ((name, Py.slice_to (p1 - pos) s) :: c1). simpl.
    split; [exists c1|]; auto.
  - destruct (Nat.eqb pos 0) eqn:E; [|discriminate].
    apply Nat.eqb_eq in E. exists pos, s, caps. simpl. auto.
  - destruct (at_eol s) eqn:E; [|discriminate].
    exists pos, s, caps. simpl. auto.
Qed.

Lemma rmatch_sound (r : re) (s : string) (m : captures) :
  rmatch r s = Some m -> exists pos' s', matches r 0 s [] pos' s' m.
Proof.
  unfold rmatch. intros H.
  destruct (run_sound _ _ _ _ _ _ H) as (pos' & s' & caps' & Hm & Hk).
  injection Hk as <-. eauto.
Qed.

(** A match only adds groups, and adds the sure ones. *)
Lemma matches_groups (r : re) :
  forall pos s caps pos' s' caps',
    matches r pos s caps pos' s' caps' ->
    (forall n, cap_get n caps <> None -> cap_get n caps' <> None)
    /\ (forall n, In n (sure_groups r) -> cap_get n caps' <> None).
Proof.
  induction r as [l | cc | cc | cc | r1 IH1 r2 IH2 | r1 IH1 r2 IH2
                 | r1 IH1 | name r1 IH1 | | ];
    intros pos s caps pos' s' caps' H; simpl in H.
  - destruct H as (_ & _ & ->). simpl. tauto.
  - destruct H as (c & _ & _ & _ & ->). simpl. tauto.
  - destruct H as (u & _ & _ & _ & ->). simpl. tauto.
  - destruct H as (u & _ & _ & _ & _ & ->). simpl. tauto.
  - destruct H as (p1 & s1 & c1 & H1 & H2).
    destruct (IH1 _ _ _ _ _ _ H1) as [K1 S1].
    destruct (IH2 _ _ _ _ _ _ H2) as [K2 S2].
    split; [auto|]. simpl. intros n Hn. apply in_app_or in Hn.
    destruct Hn; auto.
  - split; [|simpl; tauto].
    destruct H as [H | H];
      [apply (IH1 _ _ _ _ _ _ H) | apply (IH2 _ _ _ _ _ _ H)].
  - split; [|simpl; tauto].
    destruct H as [H | (_ & _ & ->)]; [apply (IH1 _ _ _ _ _ _ H) | auto].
  - destruct H as (c1 & H1 & ->).
    destruct (IH1 _ _ _ _ _ _ H1) as [K1 S1].
    split.
    + intros n Hn. simpl. destruct (String.eqb name n); [discriminate|auto].
    + intros n [-> | Hn]; simpl.
      * rewrite String_eqb_refl. discriminate.
      * destruct (String.eqb name n); [discriminate|auto].
  - destruct H as (_ & _ & _ & ->). simpl. tauto.
  - destruct H as (_ & _ & _ & ->). simpl. tauto.
Qed.

(** A match of [SOURCE_TEXT_RE] has the group [source_line]. *)
Lemma source_line_group (t : string) (m : captures) :
  Re.rmatch SOURCE_TEXT_RE t = Some m ->
  exists line, Re.group "source_line" m = Some line.
Proof.
  intros H. destruct (rmatch_sound _ _ _ H) as (pos' & s' & Hm).
  apply matches_groups in Hm. destruct Hm as [_ Hs].
  unfold Re.group.
  destruct (cap_get "source_line" m) as [line|] eqn:E; [eauto|].
  exfalso. apply (Hs "source_line"); [|exact E].
  vm_compute. tauto.
Qed.

(** ** The anchor resolver *)

Lemma getitem_nth {A} (lines : list A) (i : Z) :
  0 <= i < len_list lines ->
  exists l, nth_error lines (Z.to_nat i) = Some l /\ Py.getitem lines i = Ok l.
Proof.
  unfold len_list. intros Hi. unfold Py.getitem.
  destruct (i <? 0) eqn:E; [lia|].
  replace ((i <? 0) || (Z.of_nat (length lines) <=? i)) with false by lia.
  destruct (nth_error lines (Z.to_nat i)) eqn:N; [eauto|].
  apply nth_error_None in N. lia.
Qed.

Section Resolver.
Variable lines : list string.
Variable txt : string.

Lemma is_matching_line_spec (i : Z) :
  is_matching_line lines txt i = true <-> line_matches lines txt (i + 1).
Proof.
  unfold is_matching_line, line_matches.
  replace (i + 1 - 1) with i by lia. split.
  - rewrite !andb_true_iff. intros [[H0 H1] H2].
    assert (Hr : 0 <= i < len_list lines) by lia.
    destruct (getitem_nth lines i Hr) as (l & Hn & Hg).
    rewrite Hg in H2. apply String.eqb_eq in H2.
    split; [lia | eauto].
  - intros (H1 & l & Hn & Hl).
    assert (Hr : 0 <= i < len_list lines).
    { unfold len_list. assert (Z.to_nat i < length lines)%nat; [|lia].
      apply nth_error_Some. congruence. }
    destruct (getitem_nth lines i Hr) as (l' & Hn' & Hg).
    rewrite Hg. assert (l' = l) by congruence; subst l'.
    rewrite Hl, String_eqb_refl.
    replace (0 <=? i) with true by lia.
    replace (i <? len_list lines) with true by lia. reflexivity.
Qed.

Lemma is_matching_line_false (i : Z) :
  is_matching_line lines txt i = false <-> ~ line_matches lines txt (i + 1).
Proof.
  rewrite <- is_matching_line_spec.
  destruct (is_matching_line lines txt i); split; congruence.
Qed.

(** A set display of two ints iterates over exactly these, in one of the
    two orders. *)
Lemma set2_cases (a b : Z) :
  (a = b /\ Py.set2 a b = [a]) \/
  (a <> b /\ (Py.set2 a b = [a; b] \/ Py.set2 a b = [b; a])).
Proof.
  unfold Py.set2. destruct (a =? b) eqn:E.
  - left. split; [lia | reflexivity].
  - right. split; [lia|].
    match goal with |- context [if ?c then _ else _] => destruct c end; auto.
Qed.

Lemma first_matching_none (a b : Z) :
  is_matching_line lines txt a = false ->
  is_matching_line lines txt b = false ->
  first_matching lines txt (Py.set2 a b) = None.
Proof.
  intros Ha Hb.
  destruct (set2_cases a b) as [[_ ->] | [_ [-> | ->]]];
    simpl; rewrite ?Ha, ?Hb; reflexivity.
Qed.

Lemma first_matching_upper (a b : Z) :
  is_matching_line lines txt a = false ->
  is_matching_line lines txt b = true ->
  first_matching lines txt (Py.set2 a b) = Some (b + 1).
Proof.
  intros Ha Hb.
  destruct (set2_cases a b) as [[-> _] | [_ [-> | ->]]];
    [congruence | |]; simpl; rewrite ?Ha, ?Hb; reflexivity.
Qed.

Lemma first_matching_both (a b : Z) :
  is_matching_line lines txt a = true ->
  is_matching_line lines txt b = true ->
  first_matching lines txt (Py.set2 a b) = Some (hd 0 (Py.set2 a b) + 1).
Proof.
  intros Ha Hb.
  destruct (set2_cases a b) as [[_ ->] | [_ [-> | ->]]];
    simpl; rewrite ?Ha, ?Hb; reflexivity.
Qed.

Lemma search_offsets_skip (idx : Z) (skipped rest : list Z) :
  Forall (fun off =>
            is_matching_line lines txt (idx - off) = false /\
            is_matching_line lines txt (idx + off) = false) skipped ->
  search_offsets lines txt idx (skipped ++ rest)
  = search_offsets lines txt idx rest.
Proof.
  induction 1 as [|off skipped [Ha Hb] _ IH]; simpl; [reflexivity|].
  rewrite (first_matching_none _ _ Ha Hb). exact IH.
Qed.

Lemma range_split (d n : nat) :
  (d < n)%nat ->
  exists rest, Py.range n = (Py.range d ++ Z.of_nat d :: rest)%list.
Proof.
  intros Hd. unfold Py.range.
  replace n with (d + S (n - S d))%nat by lia.
  rewrite seq_app, map_app. simpl. eauto.
Qed.

Lemma none_closer_skip (old : Z) (d : nat) :
  none_closer lines txt old (Z.of_nat d) ->
  Forall (fun off =>
            is_matching_line lines txt (old - 1 - off) = false /\
            is_matching_line lines txt (old - 1 + off) = false)
         (Py.range d).
Proof.
  intros H. apply Forall_forall. intros off Hin.
  unfold Py.range in Hin. apply in_map_iff in Hin.
  destruct Hin as (k & <- & Hk). apply in_seq in Hk.
  split; apply is_matching_line_false; apply H; lia.
Qed.

(** The search returns what the first offset with a matching line gives. *)
Lemma find_in_lines_at (old : Z) (d : nat) (r : Z) :
  (d < 100)%nat ->
  none_closer lines txt old (Z.of_nat d) ->
  first_matching lines txt
    (Py.set2 (old - 1 - Z.of_nat d) (old - 1 + Z.of_nat d)) = Some r ->
  find_in_lines lines txt old = Ok r.
Proof.
  intros Hd Hnone Hfirst. unfold find_in_lines.
  destruct (range_split d 100 Hd) as (rest & ->).
  rewrite search_offsets_skip by (apply none_closer_skip; exact Hnone).
  simpl. rewrite Hfirst. reflexivity.
Qed.

Lemma none_closer_b_spec (old : Z) (d : nat) :
  none_closer_b lines txt old d = true ->
  none_closer lines txt old (Z.of_nat d).
Proof.
  unfold none_closer_b, none_closer. rewrite forallb_forall.
  intros H n Hn.
  assert (Hin : In (Z.abs (n - old)) (Py.range d)).
  { unfold Py.range. apply in_map_iff. exists (Z.to_nat (Z.abs (n - old))).
    split; [lia | apply in_seq; lia]. }
  specialize (H _ Hin). apply andb_true_iff in H. destruct H as [H1 H2].
  apply negb_true_iff in H1, H2.
  apply is_matching_line_false in H1, H2.
  destruct (Z.abs_spec (n - old)) as [[_ E] | [_ E]]; rewrite E in *.
  - replace n with (old - 1 + (n - old) + 1) by lia. exact H2.
  - replace n with (old - 1 - - (n - old) + 1) by lia. exact H1.
Qed.

End Resolver.

(** C5 (as amended). When the recorded text, up to whitespace at its end, is
    still at line [old_lineno], the resolver returns [old_lineno]. When it is
    at line [old_lineno + 5], at no line nearer to [old_lineno], and not at
    line [old_lineno - 5] either, the resolver returns [old_lineno + 5]. *)
Theorem find_source_text_lineno_same_or_shifted :
  forall (fs : FileSystem) (path : string) (lines : list string)
         (old_source_line : string) (old_lineno : Z),
    source_lines fs path = Ok lines ->
    (line_matches lines old_source_line old_lineno ->
     find_source_text_lineno fs path old_source_line old_lineno
     = Ok old_lineno)
    /\
    (line_matches lines old_source_line (old_lineno + 5) ->
     none_closer lines old_source_line old_lineno 5 ->
     ~ line_matches lines old_source_line (old_lineno - 5) ->
     find_source_text_lineno fs path old_source_line old_lineno
     = Ok (old_lineno + 5)).
Proof.
  intros fs p lines txt old Hsrc.
  unfold find_source_text_lineno. rewrite Hsrc. simpl. split.
  - intros Hm. apply (find_in_lines_at lines txt old 0); [lia | |].
    + intros n Hn. simpl in Hn. lia.
    + simpl. replace (old - 1 - 0) with (old - 1) by lia.
      replace (old - 1 + 0) with (old - 1) by lia.
      destruct (set2_cases (old - 1) (old - 1)) as [[_ ->] | [H _]];
        [|congruence].
      simpl. replace old with (old - 1 + 1) in Hm by lia.
      apply is_matching_line_spec in Hm. rewrite Hm.
      f_equal. lia.
  - intros Hup Hnone Hlow.
    apply (find_in_lines_at lines txt old 5); [lia | exact Hnone |].
    change (Z.of_nat 5) with 5.
    rewrite first_matching_upper; [f_equal; lia | |].
    + apply is_matching_line_false.
      replace (old - 1 - 5 + 1) with (old - 5) by lia. exact Hlow.
    + apply is_matching_line_spec.
      replace (old - 1 + 5 + 1) with (old + 5) by lia. exact Hup.
Qed.

(** The text is at line 1 and at line 11, and nowhere nearer to line 6:
    the resolver returns line 1, not line [6 + 5]. *)
Lemma find_source_text_lineno_shifted_counterexample :
  let lines := example_lines 11 [1; 11] in
  let fs := one_file "a.py" (example_text 11 [1; 11]) in
  source_lines fs "a.py" = Ok lines
  /\ line_matches lines "x = 1" (6 + 5)
  /\ none_closer lines "x = 1" 6 5
  /\ find_source_text_lineno fs "a.py" "x = 1" 6 = Ok 1
  /\ find_source_text_lineno fs "a.py" "x = 1" 6 <> Ok (6 + 5).
Proof.
  cbv zeta. split; [vm_compute; reflexivity|].
  split; [split; [lia | eexists; split; vm_compute; reflexivity]|].
  split; [apply (none_closer_b_spec _ _ 6 5); vm_compute; reflexivity|].
  split; [vm_compute; reflexivity | vm_compute; discriminate].
Qed.

Lemma find_source_text_lineno_same_or_shifted_witness :
  find_source_text_lineno (one_file "a.py" (example_text 11 [3])) "a.py"
    "x = 1" 3 = Ok 3
  /\ find_source_text_lineno (one_file "a.py" (example_text 11 [11])) "a.py"
       "x = 1   " 6 = Ok (6 + 5).
Proof.
  split.
  - apply (proj1 (find_source_text_lineno_same_or_shifted
                    (one_file "a.py" (example_text 11 [3])) "a.py"
                    (example_lines 11 [3]) "x = 1" 3 eq_refl)).
    split; [lia | eexists; split; vm_compute; reflexivity].
  - apply (proj2 (find_source_text_lineno_same_or_shifted
                    (one_file "a.py" (example_text 11 [11])) "a.py"
                    (example_lines 11 [11]) "x = 1   " 6 eq_refl)).
    + split; [lia | eexists; split; vm_compute; reflexivity].
    + apply (none_closer_b_spec _ _ 6 5); vm_compute; reflexivity.
    + intros [_ (l & Hl & Hr)]. vm_compute in Hl.
      injection Hl as <-. vm_compute in Hr. discriminate.
Defined.

Lemma hash_int_small (n : Z) : 0 <= n < 2 ^ 61 - 1 -> Py.hash_int n = n.
Proof.
  intros Hn. unfold Py.hash_int, Py.hash_modulus.
  rewrite Z.abs_eq by lia. rewrite Z.mod_small by lia.
  destruct (Z.eq_dec n 0) as [-> | Hn0]; [reflexivity|].
  rewrite Z.sgn_pos by lia.
  replace (1 * n =? -1) with false by lia. lia.
Qed.

Lemma land_7 (a : Z) : Z.land a 7 = a mod 8.
Proof. change 7 with (Z.ones 3). rewrite Z.land_ones by lia. reflexivity. Qed.

(** Two ints below [2^61 - 1] whose last three bits differ go to the slots
    that these bits name. *)
Lemma set2_slots (a b : Z) :
  0 <= a < b -> b < 2 ^ 61 - 1 -> a mod 8 <> b mod 8 ->
  Py.set2 a b = if a mod 8 <? b mod 8 then [a; b] else [b; a].
Proof.
  intros Hab Hb Hne. unfold Py.set2.
  replace (a =? b) with false by lia.
  rewrite !hash_int_small by lia. rewrite !land_7.
  cbn [Py.probe].
  replace (b mod 8 =? a mod 8) with false by lia.
  reflexivity.
Qed.

(** C6 (as amended). When the text is both [d] lines below and [d] lines
    above [old_lineno], for [1 <= d <= 99], and at no nearer line, the
    resolver returns the one of the two that the set [{idx - d, idx + d}]
    yields first. In CPython that is the lower line when the last three bits
    of [idx - d] are below those of [idx + d], and the higher line when they
    are above. *)
Theorem find_source_text_lineno_tie :
  forall (fs : FileSystem) (path : string) (lines : list string)
         (old_source_line : string) (old_lineno d : Z),
    source_lines fs path = Ok lines ->
    1 <= d <= 99 ->
    old_lineno + d < 2 ^ 61 ->
    line_matches lines old_source_line (old_lineno - d) ->
    line_matches lines old_source_line (old_lineno + d) ->
    none_closer lines old_source_line old_lineno d ->
    let idx := old_lineno - 1 in
    let found := find_source_text_lineno fs path old_source_line old_lineno in
    found = Ok (hd 0 (Py.set2 (idx - d) (idx + d)) + 1)
    /\ (found = Ok (old_lineno - d) \/ found = Ok (old_lineno + d))
    /\ ((idx - d) mod 8 < (idx + d) mod 8 -> found = Ok (old_lineno - d))
    /\ ((idx - d) mod 8 > (idx + d) mod 8 -> found = Ok (old_lineno + d)).
Proof.
  intros fs p lines txt old d Hsrc Hd Hbound Hlow Hup Hnone idx found.
  assert (Hfound : found = Ok (hd 0 (Py.set2 (idx - d) (idx + d)) + 1)).
  { subst found idx. unfold find_source_text_lineno. rewrite Hsrc. simpl.
    apply (find_in_lines_at lines txt old (Z.to_nat d)); [lia | |].
    - rewrite Z2Nat.id by lia. exact Hnone.
    - rewrite Z2Nat.id by lia. apply first_matching_both.
      + apply is_matching_line_spec.
        replace (old - 1 - d + 1) with (old - d) by lia. exact Hlow.
      + apply is_matching_line_spec.
        replace (old - 1 + d + 1) with (old + d) by lia. exact Hup. }
  assert (Hlo : 0 <= idx - d) by (destruct Hlow; subst idx; lia).
  split; [exact Hfound|]. rewrite Hfound. split; [|split].
  - destruct (set2_cases (idx - d) (idx + d)) as [[_ ->] | [_ [-> | ->]]];
      simpl; [left | left | right]; f_equal; subst idx; lia.
  - intros Hlt. rewrite set2_slots by (subst idx; lia).
    replace ((idx - d) mod 8 <? (idx + d) mod 8) with true by lia.
    simpl. f_equal. subst idx; lia.
  - intros Hgt. rewrite set2_slots by (subst idx; lia).
    replace ((idx - d) mod 8 <? (idx + d) mod 8) with false by lia.
    simpl. f_equal. subst idx; lia.
Qed.

(** The text is at lines 8 and 18, five lines below and above line 13, and
    at no nearer line: the resolver returns the higher line, 18. *)
Lemma find_source_text_lineno_tie_counterexample :
  let lines := example_lines 20 [8; 18] in
  let fs := one_file "a.py" (example_text 20 [8; 18]) in
  source_lines fs "a.py" = Ok lines
  /\ line_matches lines "x = 1" (13 - 5)
  /\ line_matches lines "x = 1" (13 + 5)
  /\ none_closer lines "x = 1" 13 5
  /\ find_source_text_lineno fs "a.py" "x = 1" 13 = Ok (13 + 5)
  /\ find_source_text_lineno fs "a.py" "x = 1" 13 <> Ok (13 - 5).
Proof.
  cbv zeta. split; [vm_compute; reflexivity|].
  split; [split; [lia | eexists; split; vm_compute; reflexivity]|].
  split; [split; [lia | eexists; split; vm_compute; reflexivity]|].
  split; [apply (none_closer_b_spec _ _ 13 5); vm_compute; reflexivity|].
  split; [vm_compute; reflexivity | vm_compute; discriminate].
Qed.

Lemma find_source_text_lineno_tie_witness :
  find_source_text_lineno (one_file "a.py" (example_text 20 [2; 8])) "a.py"
    "x = 1" 5 = Ok (5 - 3).
Proof.
  refine (proj1 (proj2 (proj2 (find_source_text_lineno_tie
            (one_file "a.py" (example_text 20 [2; 8])) "a.py"
            (example_lines 20 [2; 8]) "x = 1" 5 3 eq_refl _ _ _ _ _))) _).
  - lia.
  - lia.
  - split; [lia | eexists; split; vm_compute; reflexivity].
  - split; [lia | eexists; split; vm_compute; reflexivity].
  - apply (none_closer_b_spec _ _ 5 3); vm_compute; reflexivity.
  - vm_compute. reflexivity.
Defined.

(** ** The fuzzy matcher *)

Lemma get_In {V} (catalog : @Dict.t Key V) (k : Key) (v : V) :
  NoDup (Dict.keys catalog) -> In (k, v) catalog ->
  Dict.get Key_eqb k catalog = Some v.
Proof.
  induction catalog as [|[k' v'] c IH]; simpl; [tauto|].
  intros Hnd [Heq | Hin].
  - injection Heq as -> ->. rewrite Key_eqb_refl. reflexivity.
  - inversion Hnd as [|? ? Hnotin Hnd']; subst.
    destruct (Key_eqb k' k) eqn:E.
    + apply Key_eqb_eq in E. subst k'. exfalso. apply Hnotin.
      apply in_map_iff. exists (k, v). auto.
    + apply IH; assumption.
Qed.

Lemma Qgtb_pct (d m : Z) :
  0 < m ->
  Qgtb (Qmake (100 * d) (Z.to_pos m))
       (inject_Z FUZZY_MATCH_MAX_EDIT_DISTANCE_PCT)
  = negb (100 * d <=? FUZZY_MATCH_MAX_EDIT_DISTANCE_PCT * m).
Proof.
  intros Hm. unfold Qgtb. f_equal.
  unfold Qle_bool, inject_Z, FUZZY_MATCH_MAX_EDIT_DISTANCE_PCT.
  cbn [Qnum Qden]. rewrite Z2Pos.id by lia.
  apply Bool.eq_iff_eq_true. rewrite !Z.leb_le. lia.
Qed.

Lemma dist_pct_nonempty (d : Z) (a b : string) :
  both_empty a b = false ->
  dist_pct d a b
  = Ok (Qmake (100 * d) (Z.to_pos (Z.max (Py.len a) (Py.len b)))).
Proof. unfold both_empty, dist_pct. intros ->. reflexivity. Qed.

Lemma max_len_pos (a b : string) :
  both_empty a b = false -> 0 < Z.max (Py.len a) (Py.len b).
Proof. unfold both_empty, Py.len. lia. Qed.

Section Matcher.
Variable catalog : Catalog.
Variable search_key : Key.
Hypothesis catalog_nodup : NoDup (Dict.keys catalog).

(** Where no division by zero is reached, the loop collects the entries of
    the candidates that qualify, in the order of the catalog. *)
Lemma find_matches_spec (pairs : list (Key * Entry)) (matches : list Entry) :
  incl pairs catalog ->
  (forall key, In key (map fst pairs) ->
     is_candidate search_key key = true ->
     both_empty (key_msg_text key) (key_msg_text search_key) = false /\
     both_empty (key_source_line key) (key_source_line search_key) = false) ->
  find_matches catalog search_key
    (filter (is_candidate search_key) (map fst pairs)) matches
  = Ok (matches
        ++ map snd (filter (fun kv => qualifies search_key (fst kv)) pairs))%list.
Proof.
  revert matches.
  induction pairs as [|[key e] pairs IH]; intros matches Hincl Hne.
  - simpl. rewrite app_nil_r. reflexivity.
  - assert (IH' : forall m,
               find_matches catalog search_key
                 (filter (is_candidate search_key) (map fst pairs)) m
               = Ok (m ++ map snd
                       (filter (fun kv => qualifies search_key (fst kv))
                          pairs))%list).
    { intros m. apply IH.
      - intros x Hx. apply Hincl. right. exact Hx.
      - intros k Hk. apply Hne. right. exact Hk. }
    simpl map. simpl filter. unfold qualifies at 1. simpl fst.
    destruct (is_candidate search_key key) eqn:Hc; simpl andb;
      [|apply IH'].
    destruct (Hne key (or_introl eq_refl) Hc) as [Hm Hs].
    cbn [find_matches]. unfold within_tolerance.
    set (dm := levenshtein (key_msg_text key) (key_msg_text search_key)).
    set (ds := levenshtein (key_source_line key)
                 (key_source_line search_key)).
    rewrite (Z.gtb_ltb dm), (Z.gtb_ltb ds), !Z.ltb_antisym.
    destruct (dm <=? FUZZY_MATCH_MAX_EDIT_DISTANCE_ABS); cbn [negb andb];
      [|apply IH'].
    destruct (ds <=? FUZZY_MATCH_MAX_EDIT_DISTANCE_ABS); cbn [negb andb];
      [|rewrite andb_false_r; apply IH'].
    rewrite (dist_pct_nonempty _ _ _ Hm), (dist_pct_nonempty _ _ _ Hs).
    cbn [bind].
    rewrite !Qgtb_pct by (apply max_len_pos; assumption).
    destruct (100 * dm <=? _); cbn [negb andb]; [|apply IH'].
    destruct (100 * ds <=? _); cbn [negb andb]; [|apply IH'].
    unfold catalog_getitem.
    rewrite (get_In catalog key e catalog_nodup)
      by (apply Hincl; left; reflexivity).
    cbn [bind map snd]. rewrite IH', <- app_assoc. reflexivity.
Qed.

(** Outside the empty pairs, [find_entry] is the matcher of the
    specification. *)
Lemma find_entry_refines_spec :
  no_empty_pair catalog search_key ->
  find_entry catalog search_key = Ok (find_entry_spec catalog search_key).
Proof.
  intros Hne. unfold find_entry, find_entry_spec, Dict.mem, catalog_getitem.
  destruct (Dict.get Key_eqb search_key catalog) as [e|]; [reflexivity|].
  unfold Dict.keys.
  rewrite (find_matches_spec catalog []); [| apply incl_refl | exact Hne].
  simpl app. simpl bind.
  destruct (filter (fun kv => qualifies search_key (fst kv)) catalog)
    as [|[k e] [|kv2 l]]; reflexivity.
Qed.
End Matcher.

(** C4. Both source lines are empty and the message texts are one edit
    apart: the one candidate qualifies, and [find_entry] raises
    [ZeroDivisionError] on the percentage of the source lines. *)
Theorem find_entry_empty_source_line_raises :
  find_entry_spec empty_line_catalog empty_line_search_key = Some fixme_entry
  /\ find_entry empty_line_catalog empty_line_search_key
     = Raise ZeroDivisionError.
Proof. split; vm_compute; reflexivity. Qed.

(** C3. The search key is not in the catalog, and of the two entries only
    the first shares [msg_id], [path] and [symbol] with it; its message
    text is empty as the key's is, and its source line is one edit away:
    exactly one candidate qualifies, and [find_entry] raises instead of
    returning it. *)
Theorem find_entry_unique_candidate_raises :
  Dict.mem Key_eqb empty_msg_search_key empty_msg_catalog = false
  /\ map snd (filter (fun kv => qualifies empty_msg_search_key (fst kv))
                empty_msg_catalog) = [empty_msg_entry]
  /\ find_entry empty_msg_catalog empty_msg_search_key
     = Raise ZeroDivisionError.
Proof. repeat split; vm_compute; reflexivity. Qed.

(** ** The order of the saved entries *)

Section SortFacts.
Context {A K : Type} (key : A -> K) (leb : K -> K -> bool).
Context (eqb : K -> K -> bool).
Hypothesis eqb_eq : forall a b, eqb a b = true <-> a = b.
Hypothesis leb_refl : forall a, leb a a = true.
Hypothesis leb_total : forall a b, leb a b = false -> leb b a = true.
Hypothesis leb_trans :
  forall a b c, leb a b = true -> leb b c = true -> leb a c = true.

Let le (x y : A) : Prop := leb (key x) (key y) = true.

Lemma insert_sorted_perm (x : A) (l : list A) :
  Permutation (insert_sorted key leb x l) (x :: l).
Proof.
  induction l as [|y l IH]; simpl; [reflexivity|].
  destruct (leb (key x) (key y)); [reflexivity|].
  rewrite IH. apply perm_swap.
Qed.

Lemma stable_sort_perm (l : list A) : Permutation (stable_sort key leb l) l.
Proof.
  induction l as [|x l IH]; simpl; [reflexivity|].
  rewrite insert_sorted_perm. constructor. exact IH.
Qed.

Lemma insert_sorted_sorted (x : A) (l : list A) :
  StronglySorted le l -> StronglySorted le (insert_sorted key leb x l).
Proof.
  induction 1 as [|y l Hs IH Hall]; simpl.
  - constructor; constructor.
  - destruct (leb (key x) (key y)) eqn:E.
    + constructor; [constructor; assumption|].
      constructor; [exact E|].
      eapply Forall_impl; [|exact Hall].
      intros z Hz. exact (leb_trans _ _ _ E Hz).
    + constructor; [exact IH|].
      eapply Permutation_Forall.
      * symmetry. apply insert_sorted_perm.
      * constructor; [apply leb_total; exact E | exact Hall].
Qed.

Lemma stable_sort_sorted (l : list A) :
  StronglySorted le (stable_sort key leb l).
Proof.
  induction l as [|x l IH]; simpl; [constructor|].
  apply insert_sorted_sorted. exact IH.
Qed.

(** Entries with one sort key keep the order they came in. *)
Lemma insert_sorted_stable (k : K) (x : A) (l : list A) :
  filter (fun y => eqb (key y) k) (insert_sorted key leb x l)
  = filter (fun y => eqb (key y) k) (x :: l).
Proof.
  induction l as [|y l IH]; [reflexivity|].
  cbn [insert_sorted]. destruct (leb (key x) (key y)) eqn:E; [reflexivity|].
  cbn [filter] in *. rewrite IH.
  destruct (eqb (key x) k) eqn:Ex, (eqb (key y) k) eqn:Ey; try reflexivity.
  apply eqb_eq in Ex, Ey. rewrite Ex, Ey, leb_refl in E. discriminate.
Qed.

Lemma stable_sort_stable (k : K) (l : list A) :
  filter (fun y => eqb (key y) k) (stable_sort key leb l)
  = filter (fun y => eqb (key y) k) l.
Proof.
  induction l as [|x l IH]; [reflexivity|].
  cbn [stable_sort fold_right]. rewrite insert_sorted_stable.
  cbn [filter]. fold (stable_sort key leb l). rewrite IH. reflexivity.
Qed.
End SortFacts.

(** The order on the sort keys. *)

Lemma ascii_compare_refl a : Ascii.compare a a = Eq.
Proof. unfold Ascii.compare. apply N.compare_refl. Qed.

Lemma ascii_compare_lt_trans a b c :
  Ascii.compare a b = Lt -> Ascii.compare b c = Lt -> Ascii.compare a c = Lt.
Proof. unfold Ascii.compare. rewrite !N.compare_lt_iff. lia. Qed.

Lemma string_compare_refl s : String.compare s s = Eq.
Proof.
  induction s as [|a s IH]; simpl; [reflexivity|].
  rewrite ascii_compare_refl. exact IH.
Qed.

Lemma string_compare_lt_trans s t u :
  String.compare s t = Lt -> String.compare t u = Lt ->
  String.compare s u = Lt.
Proof.
  revert t u. induction s as [|a s IH]; intros [|b t] [|c u]; simpl;
    try congruence.
  destruct (Ascii.compare a b) eqn:Eab; try discriminate;
    destruct (Ascii.compare b c) eqn:Ebc; try discriminate; intros H1 H2.
  - apply Ascii.compare_eq_iff in Eab, Ebc. subst.
    rewrite ascii_compare_refl. eapply IH; eassumption.
  - apply Ascii.compare_eq_iff in Eab. subst. rewrite Ebc. reflexivity.
  - apply Ascii.compare_eq_iff in Ebc. subst. rewrite Eab. reflexivity.
  - rewrite (ascii_compare_lt_trans _ _ _ Eab Ebc). reflexivity.
Qed.

Lemma key_compare_eq a b : key_compare a b = Eq -> a = b.
Proof.
  destruct a as [[a1 a2] a3], b as [[b1 b2] b3]. simpl.
  destruct (String.compare a1 b1) eqn:E1; try discriminate.
  destruct (Z.compare a2 b2) eqn:E2; try discriminate.
  intros E3. apply String.compare_eq_iff in E1, E3.
  apply Z.compare_eq in E2. congruence.
Qed.

Lemma key_compare_refl a : key_compare a a = Eq.
Proof.
  destruct a as [[a1 a2] a3]. simpl.
  rewrite !string_compare_refl, Z.compare_refl. reflexivity.
Qed.

Lemma key_compare_antisym a b : key_compare a b = CompOpp (key_compare b a).
Proof.
  destruct a as [[a1 a2] a3], b as [[b1 b2] b3]. simpl.
  rewrite (String.compare_antisym b1 a1), (Z.compare_antisym a2 b2),
    (String.compare_antisym b3 a3).
  destruct (String.compare a1 b1), (Z.compare a2 b2),
    (String.compare a3 b3); reflexivity.
Qed.

Lemma key_compare_lt_trans a b c :
  key_compare a b = Lt -> key_compare b c = Lt -> key_compare a c = Lt.
Proof.
  destruct a as [[a1 a2] a3], b as [[b1 b2] b3], c as [[c1 c2] c3]. simpl.
  destruct (String.compare a1 b1) eqn:E1; try discriminate;
    destruct (String.compare b1 c1) eqn:F1; try discriminate.
  - apply String.compare_eq_iff in E1, F1. subst.
    rewrite string_compare_refl.
    destruct (Z.compare a2 b2) eqn:E2; try discriminate;
      destruct (Z.compare b2 c2) eqn:F2; try discriminate.
    + apply Z.compare_eq in E2, F2. subst. rewrite Z.compare_refl.
      apply string_compare_lt_trans.
    + apply Z.compare_eq in E2. subst. rewrite F2. reflexivity.
    + apply Z.compare_eq in F2. subst. rewrite E2. reflexivity.
    + rewrite Z.compare_lt_iff in *.
      replace (a2 ?= c2) with Lt by (symmetry; apply Z.compare_lt_iff; lia).
      reflexivity.
  - apply String.compare_eq_iff in E1. subst. rewrite F1. reflexivity.
  - apply String.compare_eq_iff in F1. subst. rewrite E1. reflexivity.
  - rewrite (string_compare_lt_trans _ _ _ E1 F1). reflexivity.
Qed.

Lemma key_leb_refl a : key_leb a a = true.
Proof. unfold key_leb. rewrite key_compare_refl. reflexivity. Qed.

Lemma key_leb_total a b : key_leb a b = false -> key_leb b a = true.
Proof.
  unfold key_leb. rewrite (key_compare_antisym b a).
  destruct (key_compare a b); simpl; congruence.
Qed.

Lemma key_leb_trans a b c :
  key_leb a b = true -> key_leb b c = true -> key_leb a c = true.
Proof.
  unfold key_leb.
  destruct (key_compare a b) eqn:E1; try discriminate;
    destruct (key_compare b c) eqn:E2; try discriminate; intros _ _.
  - apply key_compare_eq in E1, E2. subst. rewrite key_compare_refl.
    reflexivity.
  - apply key_compare_eq in E1. subst. rewrite E2. reflexivity.
  - apply key_compare_eq in E2. subst. rewrite E1. reflexivity.
  - rewrite (key_compare_lt_trans _ _ _ E1 E2). reflexivity.
Qed.

Lemma sort_key_eqb_eq a b : sort_key_eqb a b = true <-> a = b.
Proof.
  destruct a as [[a1 a2] a3], b as [[b1 b2] b3]. simpl.
  rewrite !andb_true_iff, !String.eqb_eq, Z.eqb_eq. split.
  - intros [[-> ->] ->]. reflexivity.
  - intros H. injection H. auto.
Qed.

Lemma append_nil_r (s : string) : s ++ "" = s.
Proof. induction s; simpl; congruence. Qed.

Lemma join0_cons (s : string) (l : list string) :
  Py.join0 (s :: l) = s ++ Py.join0 l.
Proof.
  unfold Py.join0. destruct l; simpl; [rewrite append_nil_r|]; reflexivity.
Qed.

(** C7. The text that [dumps] returns is the header followed by the
    renderings of a list of entries that holds exactly the entries of the
    catalog with a [SourceText], in ascending order of
    [(msg_id, new_lineno, msg_text)]; entries with one sort key keep the
    order of the catalog. *)
Theorem dumps_filters_and_sorts :
  forall ignorefile : Catalog,
  exists entries : list Entry,
    dumps ignorefile
    = IGNOREFILE_HEADER ++ Py.join0 (map _dumps_entry entries)
    /\ Permutation entries (filter has_srctxt (Dict.values ignorefile))
    /\ Forall (fun e => srctxt e <> None) entries
    /\ StronglySorted renders_before entries
    /\ (forall k,
          filter (fun e => sort_key_eqb (sort_key e) k) entries
          = filter (fun e => sort_key_eqb (sort_key e) k)
              (filter has_srctxt (Dict.values ignorefile))).
Proof.
  intros c. exists (dumps_entries c). unfold dumps, dumps_entries.
  split; [apply join0_cons|].
  assert (Hperm := stable_sort_perm sort_key key_leb
                     (filter has_srctxt (Dict.values c))).
  split; [exact Hperm|]. split; [|split].
  - eapply Permutation_Forall; [symmetry; exact Hperm|].
    apply Forall_forall. intros e He. apply filter_In in He.
    destruct He as [_ He]. unfold has_srctxt in He.
    destruct (srctxt e); congruence.
  - apply stable_sort_sorted; [apply key_leb_total | apply key_leb_trans].
  - intros k. apply stable_sort_stable;
      [apply sort_key_eqb_eq | apply key_leb_refl].
Qed.

(** ** The anchor builder returns *)

Lemma lstrip_empty_rstrip (s : string) :
  Py.lstrip s = "" -> Py.rstrip s = "".
Proof.
  induction s as [|c s IH]; simpl; [reflexivity|].
  destruct (Py.isspace c) eqn:E; [|discriminate].
  intros H. rewrite (IH H). reflexivity.
Qed.

Lemma lstrip_head (s : string) :
  Py.lstrip s = "" \/
  exists c s', Py.lstrip s = String c s' /\ Py.isspace c = false.
Proof.
  induction s as [|c s IH]; simpl; [auto|].
  destruct (Py.isspace c) eqn:E; [exact IH | right; eauto].
Qed.

Lemma split_aux_nonempty (s tok : string) :
  tok <> "" -> Py.split_aux s tok <> [].
Proof.
  revert tok. induction s as [|c s IH]; intros tok Htok; simpl.
  - destruct tok; [congruence | discriminate].
  - destruct (Py.isspace c).
    + destruct tok; [congruence | discriminate].
    + apply IH. destruct tok; discriminate.
Qed.

Lemma getitem_head {A} (a : A) (l : list A) : Py.getitem (a :: l) 0 = Ok a.
Proof.
  destruct (getitem_nth (a :: l) 0) as (x & Hn & ->);
    [unfold len_list; simpl length; lia|].
  simpl in Hn. congruence.
Qed.

(** A line that is not blank has a first token. *)
Lemma first_token_exists (line_text : string) :
  Py.isempty (Py.strip line_text) = false ->
  exists tok, Py.getitem (Py.split (Py.lstrip line_text)) 0 = Ok tok.
Proof.
  intros H.
  destruct (lstrip_head line_text) as [E | (c & s' & E & Hc)].
  - unfold Py.strip in H. rewrite (lstrip_empty_rstrip _ E) in H.
    discriminate.
  - rewrite E. unfold Py.split. cbn [Py.split_aux]. rewrite Hc.
    cbn [append].
    destruct (Py.split_aux s' (Py.str1 c)) as [|tok l] eqn:Es.
    + exfalso. revert Es. apply split_aux_nonempty. discriminate.
    + exists tok. apply getitem_head.
Qed.

Lemma find_def_line_ok (lines : list string) (lvl start : Z) (n : nat) :
  (n < length lines)%nat ->
  exists r, find_def_line lines lvl start n = Ok r.
Proof.
  induction n as [|n IH]; intros Hn; [simpl; eauto|].
  cbn [find_def_line].
  destruct (getitem_nth lines (Z.of_nat (S n))) as (l & _ & ->);
    [unfold len_list; lia|].
  cbn [bind].
  destruct (negb (Py.isempty (Py.strip l)) && (indent_lvl l <? lvl)) eqn:E;
    [|apply IH; lia].
  apply andb_true_iff in E. destruct E as [E _].
  apply negb_true_iff in E.
  destruct (first_token_exists l E) as (tok & ->). cbn [bind].
  destruct (is_def_token tok); [|apply IH; lia].
  destruct ((0 <=? Z.of_nat (S n)) && (Z.of_nat (S n) <? start)); eauto.
Qed.

Lemma source_text_of_lines_ok (lines : list string) (new old : Z) :
  0 <= new - 1 < len_list lines ->
  exists st,
    source_text_of_lines lines new old = Ok st
    /\ new_lineno st = new /\ old_lineno st = old.
Proof.
  intros Hr. unfold source_text_of_lines.
  destruct (getitem_nth lines _ Hr) as (l & _ & ->). cbn [bind].
  destruct (find_def_line_ok lines (indent_lvl l)
              (Z.max 0 (new - 1 - CONTEXT_LINES))
              (Z.to_nat (new - 1))) as ([di dl] & ->);
    [unfold len_list in Hr; lia|].
  cbn [bind]. eexists. split; [reflexivity|]. simpl. auto.
Qed.

(** What the resolver returns is the number of a line of the file, and
    what it raises is [ObsoleteEntry]. *)
Lemma first_matching_Some (lines : list string) (txt : string)
    (cands : list Z) (r : Z) :
  first_matching lines txt cands = Some r ->
  is_matching_line lines txt (r - 1) = true.
Proof.
  induction cands as [|i cands IH]; simpl; [discriminate|].
  destruct (is_matching_line lines txt i) eqn:E; [|exact IH].
  intros H. injection H as <-. replace (i + 1 - 1) with i by lia. exact E.
Qed.

Lemma search_offsets_cases (lines : list string) (txt : string) (idx : Z)
    (offsets : list Z) :
  (exists r, search_offsets lines txt idx offsets = Ok r
             /\ is_matching_line lines txt (r - 1) = true)
  \/ search_offsets lines txt idx offsets
     = Raise (ObsoleteEntry "source text not found").
Proof.
  induction offsets as [|off offsets IH]; simpl; [auto|].
  destruct (first_matching lines txt (Py.set2 (idx - off) (idx + off)))
    as [r|] eqn:E; [|exact IH].
  left. exists r. split; [reflexivity|].
  eapply first_matching_Some; exact E.
Qed.

Lemma is_matching_line_range (lines : list string) (txt : string) (i : Z) :
  is_matching_line lines txt i = true -> 0 <= i < len_list lines.
Proof.
  unfold is_matching_line. rewrite !andb_true_iff. lia.
Qed.

Lemma find_source_text_lineno_cases (fs : FileSystem) (p txt : string)
    (n : Z) :
  (exists lines r, source_lines fs p = Ok lines
                   /\ find_source_text_lineno fs p txt n = Ok r
                   /\ 0 <= r - 1 < len_list lines)
  \/ (exists msg, find_source_text_lineno fs p txt n = Raise (ObsoleteEntry msg))
  \/ (exists e, source_lines fs p = Raise e
                /\ find_source_text_lineno fs p txt n = Raise e).
Proof.
  unfold find_source_text_lineno.
  destruct (source_lines fs p) as [lines|e] eqn:E; cbn [bind];
    [|right; right; eauto].
  unfold find_in_lines.
  destruct (search_offsets_cases lines txt (n - 1) (Py.range 100))
    as [(r & -> & Hr) | ->].
  - left. exists lines, r. repeat split; auto;
      apply is_matching_line_range in Hr; lia.
  - right. left. eauto.
Qed.

Lemma source_lines_error (fs : FileSystem) (p : string) (e : exn) :
  source_lines fs p = Raise e ->
  (exists m, e = ValueError m) \/ (e = OSError p /\ cannot_open fs p).
Proof.
  unfold source_lines, read_text, cannot_open.
  destruct (fs p) as [[s| |]|]; cbn [bind]; intros H; inversion H; eauto.
Qed.

(** Once the resolver has found a line, the anchor is built. *)
Lemma read_source_text_after_find (fs : FileSystem) (p txt : string)
    (n new : Z) :
  find_source_text_lineno fs p txt n = Ok new ->
  exists st, read_source_text fs p new n = Ok st
             /\ new_lineno st = new /\ old_lineno st = n.
Proof.
  intros H.
  destruct (find_source_text_lineno_cases fs p txt n)
    as [(lines & r & Hl & Hr & Hrange) | [(msg & E) | (e & _ & E)]];
    try congruence.
  assert (r = new) by congruence. subst r.
  unfold read_source_text. rewrite Hl. cbn [bind].
  apply source_text_of_lines_ok. exact Hrange.
Qed.

(** ** The entry normalizer *)

Lemma bind_Raise {A B} (m : result A) (f : A -> result B) (e : exn) :
  bind m f = Raise e -> m = Raise e \/ exists a, m = Ok a /\ f a = Raise e.
Proof.
  destruct m; simpl; intros H; [right; eauto | left; congruence].
Qed.

Lemma ev_getitem_error (v : EntryValues) (k : string) (e : exn) :
  ev_getitem v k = Raise e -> e = KeyError k.
Proof. unfold ev_getitem. destruct (Dict.get _ k v); congruence. Qed.

Lemma int_error (s : string) (e : exn) :
  Py.int s = Raise e -> e = ValueError s.
Proof. unfold Py.int. destruct (NilZero.uint_of_string s); congruence. Qed.

Lemma resolve_anchor_cases (fs : FileSystem) (p line : string) (n : Z) :
  (exists new st,
      find_source_text_lineno fs p line n = Ok new
      /\ read_source_text fs p new n = Ok st
      /\ new_lineno st = new /\ old_lineno st = n
      /\ resolve_anchor fs p line n = Ok (Some st, source_line st))
  \/ ((exists msg,
         find_source_text_lineno fs p line n = Raise (ObsoleteEntry msg))
      /\ resolve_anchor fs p line n = Ok (None, line))
  \/ (exists e, resolve_anchor fs p line n = Raise e
                /\ ((exists m, e = ValueError m)
                    \/ (e = OSError p /\ cannot_open fs p))).
Proof.
  unfold resolve_anchor.
  destruct (find_source_text_lineno_cases fs p line n)
    as [(lines & r & Hl & Hr & Hrange) | [(msg & E) | (e & He & E)]].
  - left. destruct (read_source_text_after_find _ _ _ _ _ Hr)
      as (st & Hst & Hnew & Hold).
    exists r, st. rewrite Hr. cbn [bind]. rewrite Hst. cbn [bind]. auto.
  - right. left. rewrite E. cbn [bind]. eauto.
  - right. right. exists e. rewrite E. cbn [bind].
    destruct (source_lines_error _ _ _ He) as [(m & ->) | [-> Hc]]; eauto.
Qed.

(** [_init_entry_item] raises nothing but what [load] handles, and the
    errors of the file system. *)
Lemma _init_entry_item_error (fs : FileSystem) (v : EntryValues) (e : exn) :
  _init_entry_item fs v = Raise e -> record_error fs e.
Proof.
  unfold _init_entry_item. intros H.
  apply bind_Raise in H.
  destruct H as [H | (t & _ & H)];
    [apply ev_getitem_error in H; subst; exact I|].
  destruct (Re.rmatch SOURCE_TEXT_RE t) as [m|] eqn:Em;
    [|injection H as <-; exact I].
  apply bind_Raise in H.
  destruct H as [H | (p & _ & H)];
    [apply ev_getitem_error in H; subst; exact I|].
  destruct (source_line_group _ _ Em) as (line & Hline).
  unfold group_str in H. rewrite Hline in H. cbn [bind] in H.
  apply bind_Raise in H.
  destruct H as [H | (s & _ & H)];
    [apply ev_getitem_error in H; subst; exact I|].
  apply bind_Raise in H.
  destruct H as [H | (n & _ & H)];
    [apply int_error in H; subst; exact I|].
  apply bind_Raise in H. destruct H as [H | ([st sl] & _ & H)].
  - destruct (resolve_anchor_cases fs p line n)
      as [(new & st & _ & _ & _ & _ & E) | [[_ E] | (e' & E & He')]];
      try congruence.
    assert (e' = e) by congruence. subst e'.
    destruct He' as [(m' & ->) | [-> Hc]]; [exact I | exact Hc].
  - repeat (apply bind_Raise in H;
            destruct H as [H | (? & _ & H)];
            [apply ev_getitem_error in H; subst; exact I|]).
    discriminate.
Qed.

(** The error of the file system that [_init_entry_item] lets through is
    that of the source file of the record. *)
Lemma _init_entry_item_OSError (fs : FileSystem) (v : EntryValues)
    (q : string) :
  _init_entry_item fs v = Raise (OSError q) ->
  ev_getitem v "path" = Ok q.
Proof.
  unfold _init_entry_item. intros H.
  apply bind_Raise in H.
  destruct H as [H | (t & _ & H)];
    [apply ev_getitem_error in H; discriminate|].
  destruct (Re.rmatch SOURCE_TEXT_RE t) as [m|] eqn:Em; [|discriminate].
  apply bind_Raise in H.
  destruct H as [H | (p & Hp & H)];
    [apply ev_getitem_error in H; discriminate|].
  destruct (source_line_group _ _ Em) as (line & Hline).
  unfold group_str in H. rewrite Hline in H. cbn [bind] in H.
  apply bind_Raise in H.
  destruct H as [H | (s & _ & H)];
    [apply ev_getitem_error in H; discriminate|].
  apply bind_Raise in H.
  destruct H as [H | (n & _ & H)];
    [apply int_error in H; discriminate|].
  apply bind_Raise in H. destruct H as [H | ([st sl] & _ & H)].
  - destruct (resolve_anchor_cases fs p line n)
      as [(new & st & _ & _ & _ & _ & E) | [[_ E] | (e' & E & He')]];
      try congruence.
    assert (e' = OSError q) by congruence. subst e'.
    destruct He' as [(m' & Hm) | [Hq _]]; [discriminate|].
    injection Hq as ->. exact Hp.
  - repeat (apply bind_Raise in H;
            destruct H as [H | (? & _ & H)];
            [apply ev_getitem_error in H; discriminate|]).
    discriminate.
Qed.

Lemma has_fields_get (v : EntryValues) (f : string) :
  has_fields v = true -> In f entry_fields ->
  ev_getitem v f = Ok (field v f).
Proof.
  unfold has_fields. rewrite forallb_forall. intros H Hin.
  specialize (H f Hin). unfold Dict.mem in H. unfold ev_getitem, field.
  destruct (Dict.get String.eqb f v); [reflexivity | discriminate].
Qed.

(** The item of a well-formed record, from what its anchor resolves to. *)
Lemma _init_entry_item_well_formed (fs : FileSystem) (v : EntryValues)
    (p line : string) (n : Z) :
  has_fields v = true ->
  record_anchor v = Some (p, line, n) ->
  _init_entry_item fs v
  = (' (st, sl) <- resolve_anchor fs p line n ;;
     Ok (key_of (entry_of_record v st) sl, entry_of_record v st)).
Proof.
  intros Hf Ha. unfold record_anchor in Ha. unfold _init_entry_item.
  destruct (ev_getitem v "ctx_src_text") as [t|]; [|discriminate].
  destruct (ev_getitem v "path") as [p'|] eqn:Ep; [|discriminate].
  destruct (ev_getitem v "lineno") as [s|]; [|discriminate].
  cbn [bind].
  destruct (Re.rmatch SOURCE_TEXT_RE t) as [m|]; [|discriminate].
  destruct (Py.int s) as [n'|]; [|discriminate].
  unfold group_str.
  destruct (Re.group "source_line" m) as [line'|]; [|discriminate].
  injection Ha as -> -> ->. cbn [bind].
  destruct (resolve_anchor fs p line n) as [[st sl]|e]; [|reflexivity].
  cbn [bind].
  assert (Hp : Ok p = Ok (field v "path")).
  { rewrite <- Ep. apply has_fields_get; [assumption | vm_compute; tauto]. }
  injection Hp as ->.
  rewrite !(has_fields_get v) by (assumption || (vm_compute; tauto)).
  cbn [bind]. reflexivity.
Qed.

(** ** The document parser *)

Lemma iter_loop_fence (i : Z) (line : string) (rest : list (Z * string))
    (ev : EntryValues) :
  Py.startswith "```" line = true ->
  iter_loop ((i, line) :: rest) ev
  = consume_from (Py.slice_to 3 line) ev rest [Py.slice_to 3 line ++ NL].
Proof. intros H. cbn [iter_loop]. rewrite H. reflexivity. Qed.

(** The inner loop is [_parse_ctx_src_text], followed by the rest of the
    outer loop. *)
Lemma consume_from_spec (fence : string) (ev : EntryValues) :
  forall ls acc,
    consume_from fence ev ls acc
    = match parse_ctx_loop fence ls acc with
      | Ok (txt, rest) => iter_loop rest (ev_set "ctx_src_text" txt ev)
      | Raise _ => last_entry ev
      end.
Proof.
  induction ls as [|[i l] ls IH]; intros acc; [reflexivity|].
  cbn [consume_from parse_ctx_loop].
  destruct (String.eqb (Py.strip l) fence); [reflexivity | apply IH].
Qed.

Lemma parse_ctx_loop_rest (fence : string) :
  forall ls acc txt rest,
    parse_ctx_loop fence ls acc = Ok (txt, rest) ->
    (length rest < length ls)%nat.
Proof.
  induction ls as [|[i l] ls IH]; intros acc txt rest H; [discriminate|].
  cbn [parse_ctx_loop] in H.
  destruct (String.eqb (Py.strip l) fence).
  - injection H as _ <-. simpl. lia.
  - apply IH in H. simpl. lia.
Qed.

(** Dictionaries keyed by strings. *)
Lemma get_set (k k' v : string) (d : EntryValues) :
  Dict.get String.eqb k (ev_set k' v d)
  = if String.eqb k' k then Some v else Dict.get String.eqb k d.
Proof.
  unfold ev_set. induction d as [|[k0 v0] d IH]; simpl.
  - destruct (String.eqb k' k); reflexivity.
  - destruct (String.eqb k0 k') eqn:E0; simpl.
    + apply String.eqb_eq in E0. subst k0.
      destruct (String.eqb k' k); reflexivity.
    + destruct (String.eqb k0 k) eqn:E1; [|exact IH].
      apply String.eqb_eq in E1. subst k0.
      rewrite String.eqb_sym, E0. reflexivity.
Qed.

Lemma mem_set (k k' v : string) (d : EntryValues) :
  Dict.mem String.eqb k (ev_set k' v d)
  = String.eqb k' k || Dict.mem String.eqb k d.
Proof.
  unfold Dict.mem. rewrite get_set.
  destruct (String.eqb k' k); reflexivity.
Qed.

Lemma mem_update_groups (k : string) (m : captures) :
  forall names d,
    Dict.mem String.eqb k d = true ->
    Dict.mem String.eqb k (update_groups names m d) = true.
Proof.
  induction names as [|n names IH]; intros d H; simpl; [exact H|].
  destruct (Re.group n m); apply IH; [|exact H].
  rewrite mem_set, H. apply orb_true_r.
Qed.

Lemma mem_update_groups_sure (k : string) (m : captures) :
  forall names d,
    In k names -> Re.group k m <> None ->
    Dict.mem String.eqb k (update_groups names m d) = true.
Proof.
  induction names as [|n names IH]; intros d Hin Hg; simpl; [destruct Hin|].
  destruct Hin as [-> | Hin].
  - destruct (Re.group k m) as [v|]; [|congruence].
    apply mem_update_groups. rewrite mem_set, String_eqb_refl. reflexivity.
  - destruct (Re.group n m); apply IH; assumption.
Qed.

(** A header line gives the four fields of the header. *)
Lemma header_groups_sure (line : string) (m : captures) (k : string) :
  Re.rmatch ENTRY_HEADER_RE line = Some m ->
  In k header_groups -> Re.group k m <> None.
Proof.
  intros H Hin. destruct (rmatch_sound _ _ _ H) as (pos' & s' & Hm).
  apply matches_groups in Hm. destruct Hm as [_ Hs]. apply Hs.
  revert Hin. vm_compute. tauto.
Qed.

Lemma slice_to_append (l s : string) :
  Py.slice_to (String.length l) (l ++ s) = l.
Proof. induction l as [|a l IH]; simpl; [destruct s|]; congruence. Qed.

(** The key of a list item is one of the three of the pattern. *)
Lemma list_item_key (line : string) (m : captures) (k : string) :
  Re.rmatch LIST_ITEM_RE line = Some m ->
  Re.group "key" m = Some k ->
  k = "message" \/ k = "author" \/ k = "date".
Proof.
  intros H Hk. destruct (rmatch_sound _ _ _ H) as (pos' & s' & Hm).
  cbn [LIST_ITEM_RE rseq matches] in Hm.
  repeat match goal with
         | H : exists _, _ |- _ => destruct H
         | H : _ /\ _ |- _ => destruct H
         end.
  match goal with
  | H : _ \/ _ |- _ =>
      destruct H as [(? & ? & ?) | [(? & ? & ?) | (? & ? & ?)]]
  end; subst; unfold Re.group in Hk; cbn [cap_get String.eqb Ascii.eqb
                                            Bool.eqb] in Hk;
    injection Hk as <-;
    match goal with
    | |- context [Py.slice_to (?p + ?n - ?p) _] =>
        replace (p + n - p)%nat with n by lia
    end;
    simpl; auto.
Qed.

(** ** Loading *)

Lemma located_set (k v : string) (ev : EntryValues) :
  located ev -> located (ev_set k v ev).
Proof.
  unfold located. rewrite !mem_set. intros [-> ->].
  rewrite !orb_true_r. auto.
Qed.

Lemma last_entry_located (ev : EntryValues) :
  pending_ok ev -> Forall located (last_entry ev).
Proof.
  unfold last_entry, pending_ok. intros H.
  destruct (Dict.mem String.eqb "msg_id" ev); constructor; auto.
Qed.

Lemma header_located (line : string) (m : captures) (n : string)
    (ev : EntryValues) :
  Re.rmatch ENTRY_HEADER_RE line = Some m ->
  located (update_groups header_groups m (ev_set "ignorefile_lineno" n ev)).
Proof.
  intros H. split.
  - apply mem_update_groups. rewrite mem_set. reflexivity.
  - apply mem_update_groups_sure; [vm_compute; tauto|].
    apply (header_groups_sure line); [exact H | vm_compute; tauto].
Qed.

(** Every record that the parser yields names its place and its file. *)
Lemma iter_loop_located (n : nat) :
  forall lines ev,
    (length lines <= n)%nat -> pending_ok ev ->
    Forall located (iter_loop lines ev).
Proof.
  induction n as [|n IH]; intros [|[i line] rest] ev Hlen Hev;
    try (apply last_entry_located; exact Hev); [simpl in Hlen; lia|].
  simpl in Hlen.
  destruct (Py.startswith "```" line) eqn:Hs.
  - rewrite (iter_loop_fence _ _ _ _ Hs), consume_from_spec.
    destruct (parse_ctx_loop _ rest _) as [[txt rest']|e] eqn:Ep;
      [|apply last_entry_located; exact Hev].
    apply parse_ctx_loop_rest in Ep.
    apply IH; [lia|]. intros Hm. apply located_set. apply Hev.
    rewrite mem_set in Hm. exact Hm.
  - cbn [iter_loop]. rewrite Hs.
    destruct (Re.rmatch ENTRY_HEADER_RE line) as [m|] eqn:Eh.
    + destruct (Dict.mem String.eqb "msg_id" ev) eqn:Em.
      * constructor; [apply Hev; exact Em|].
        apply IH; [lia|]. intros _. eapply header_located; exact Eh.
      * apply IH; [lia|]. intros _. eapply header_located; exact Eh.
    + destruct (Re.rmatch LIST_ITEM_RE line) as [m|] eqn:El;
        [|apply IH; [lia | exact Hev]].
      destruct (Re.group "key" m) as [k|] eqn:Ek;
        [|apply IH; [lia | exact Hev]].
      destruct (Re.group "value" m) as [v|];
        [|apply IH; [lia | exact Hev]].
      apply IH; [lia|]. intros Hm. apply located_set. apply Hev.
      rewrite mem_set in Hm.
      destruct (list_item_key _ _ _ El Ek) as [-> | [-> | ->]]; exact Hm.
Qed.

Lemma records_located (content : string) :
  Forall located (records_of_text content).
Proof.
  unfold records_of_text. eapply iter_loop_located; [reflexivity|].
  intros H. discriminate.
Qed.

Lemma located_get (v : EntryValues) :
  located v ->
  exists n p, ev_getitem v "ignorefile_lineno" = Ok n
              /\ ev_getitem v "path" = Ok p.
Proof.
  unfold located, Dict.mem, ev_getitem. intros [H1 H2].
  destruct (Dict.get String.eqb "ignorefile_lineno" v) as [n|];
    [|discriminate].
  destruct (Dict.get String.eqb "path" v) as [p|]; [|discriminate].
  eauto.
Qed.

Section LoadLoop.
Variable fs : FileSystem.
Variable all : list EntryValues.

(** The loop of [load] ends with the items of the records that
    [_init_entry_item] accepts, or with an error of the file system. *)
Lemma load_loop_result :
  forall records catalog log,
    incl records all ->
    Forall located records ->
    Forall (log_line_of all) log ->
    (exists log',
        load_loop fs records catalog log
        = Ok (fold_left (fun c ke => Dict.set Key_eqb (fst ke) (snd ke) c)
                (loaded_items fs records) catalog, log')
        /\ Forall (log_line_of all) log')
    \/ (exists p, load_loop fs records catalog log = Raise (OSError p)
                  /\ cannot_open fs p).
Proof.
  induction records as [|v records IH]; intros catalog log Hincl Hloc Hlog.
  - left. exists log. simpl. auto.
  - inversion Hloc as [|? ? Hv Hloc']; subst.
    assert (Hincl' : incl records all)
      by (intros x Hx; apply Hincl; right; exact Hx).
    cbn [load_loop loaded_items flat_map].
    destruct (_init_entry_item fs v) as [[k e]|ex] eqn:Ei.
    + cbn [app fold_left fst snd]. apply IH; assumption.
    + apply _init_entry_item_error in Ei. cbn [app].
      destruct (located_get v Hv) as (n & p & Hn & Hp).
      assert (Hline : forall detail,
                 Forall (log_line_of all)
                   (log ++ [("Error parsing entry on line " ++ n ++ " of "
                             ++ p ++ ": " ++ detail)%string])%list).
      { intros detail. apply Forall_app. split; [exact Hlog|].
        constructor; [|constructor].
        exists v, n, p, detail. repeat split; auto.
        apply Hincl. left. reflexivity. }
      destruct ex; simpl in Ei; try contradiction.
      * apply IH; assumption.
      * rewrite Hn, Hp. cbn [bind]. apply IH; auto.
      * rewrite Hn, Hp. cbn [bind]. apply IH; auto.
      * right. eauto.
Qed.
End LoadLoop.

Section LoadOutcome.
Variable fs : FileSystem.

(** The loop of [load], record by record: it ends with the items of the
    records that [_init_entry_item] accepts and one more log line for each
    record that raises [KeyError] or [ValueError], in their order; or it
    raises the error of a source file that a record names and that cannot
    be opened. *)
Lemma load_loop_outcome :
  forall records catalog log,
    Forall located records ->
    (exists log',
        load_loop fs records catalog log
        = Ok (fold_left (fun c ke => Dict.set Key_eqb (fst ke) (snd ke) c)
                (loaded_items fs records) catalog, (log ++ log')%list)
        /\ Forall2 log_line_for (filter (is_logged fs) records) log')
    \/ (exists q, names_source records q
                  /\ load_loop fs records catalog log = Raise (OSError q)
                  /\ cannot_open fs q).
Proof.
  induction records as [|v records IH]; intros catalog log Hloc.
  - left. exists []. simpl. rewrite app_nil_r. split; [reflexivity|constructor].
  - inversion Hloc as [|? ? Hv Hloc']; subst.
    assert (Hnames : forall q, names_source records q
                               -> names_source (v :: records) q).
    { intros q (w & Hw & Hq). exists w. split; [right; exact Hw | exact Hq]. }
    cbn [load_loop loaded_items flat_map filter]. unfold is_logged.
    destruct (_init_entry_item fs v) as [[k e]|ex] eqn:Ei.
    + cbn [app fold_left fst snd].
      destruct (IH (Dict.set Key_eqb k e catalog) log Hloc')
        as [H | (q & Hq & H)]; [left; exact H | right; eauto].
    + destruct (located_get v Hv) as (n & p & Hn & Hp).
      pose proof (_init_entry_item_error _ _ _ Ei) as He. cbn [app].
      destruct ex; simpl in He; try contradiction.
      * destruct (IH catalog log Hloc') as [H | (q & Hq & H)];
          [left; exact H | right; eauto].
      * rewrite Hn, Hp. cbn [bind].
        destruct (IH catalog
                    (log ++ [("Error parsing entry on line " ++ n ++ " of "
                              ++ p ++ ": " ++ exn_str (KeyError key))%string])%list
                    Hloc')
          as [(log' & H & Hl) | (q & Hq & H)]; [left | right; eauto].
        eexists (_ :: log'). rewrite H, <- app_assoc. split; [reflexivity|].
        constructor; [|exact Hl]. exists n, p. eauto.
      * rewrite Hn, Hp. cbn [bind].
        destruct (IH catalog
                    (log ++ [("Error parsing entry on line " ++ n ++ " of "
                              ++ p ++ ": " ++ exn_str (ValueError msg))%string])%list
                    Hloc')
          as [(log' & H & Hl) | (q & Hq & H)]; [left | right; eauto].
        eexists (_ :: log'). rewrite H, <- app_assoc. split; [reflexivity|].
        constructor; [|exact Hl]. exists n, p. eauto.
      * right. exists path0. split; [|split; [reflexivity | exact He]].
        exists v. split; [left; reflexivity|].
        apply (_init_entry_item_OSError fs v path0 Ei).
Qed.
End LoadOutcome.

(** C10. Loading a path that holds nothing returns the empty catalog.
    Loading a catalog file of any text raises no exception of its content:
    when every source file that a record of the text names can be opened,
    [load] returns a catalog, made of the items of the records that the
    normalizer accepts, and logs one line, with the catalog line and the
    path, for each record that fails with [KeyError] or [ValueError]; a
    record that is obsolete is passed over without a line. Whatever the
    files, a catalog that [load] returns is this one, and the only
    exception that leaves [load] is the error of a source file that a
    record names and that cannot be opened. *)
Theorem load_raises_only_file_errors :
  forall (fs : FileSystem) (ignorefile_path : string),
    (fs ignorefile_path = None ->
     load_log fs ignorefile_path = Ok ([], []))
    /\
    (forall content,
        fs ignorefile_path = Some (Text content) ->
        let records := records_of_text content in
        ((forall q, names_source records q -> ~ cannot_open fs q) ->
         exists log,
           load_log fs ignorefile_path
           = Ok (catalog_of_items (loaded_items fs records), log)
           /\ Forall2 log_line_for (filter (is_logged fs) records) log)
        /\ (forall catalog log,
               load_log fs ignorefile_path = Ok (catalog, log) ->
               catalog = catalog_of_items (loaded_items fs records)
               /\ Forall2 log_line_for (filter (is_logged fs) records) log)
        /\ (forall e,
               load_log fs ignorefile_path = Raise e ->
               exists q, names_source records q
                         /\ e = OSError q /\ cannot_open fs q)).
Proof.
  intros fs p0. split.
  - intros H. unfold load_log, exists_. rewrite H. reflexivity.
  - intros content H records.
    assert (E : load_log fs p0 = load_loop fs records [] []).
    { unfold load_log, exists_, _iter_entry_values, read_text.
      rewrite H. reflexivity. }
    rewrite E.
    destruct (load_loop_outcome fs records [] [] (records_located content))
      as [(log & Hl & Hlog) | (q & Hq & Hr & Hc)].
    + cbn [app] in Hl. fold records in Hl. rewrite Hl.
      split; [|split].
      * intros _. exists log. split; [reflexivity | exact Hlog].
      * intros c l Hcl. injection Hcl as <- <-.
        split; [reflexivity | exact Hlog].
      * intros e He. discriminate.
    + fold records in Hq, Hr. rewrite Hr. split; [|split].
      * intros Hopen. exfalso. exact (Hopen q Hq Hc).
      * intros c l Hcl. discriminate.
      * intros e He. injection He as <-. exists q. auto.
Qed.

(** ** Records whose anchor is lost *)

Lemma well_formed_kept (fs : FileSystem) (v : EntryValues) :
  well_formed v ->
  anchor_lost fs v \/ anchor_resolves fs v ->
  exists ke, kept_as fs v ke.
Proof.
  intros [Hf Ha] Hcase.
  destruct (record_anchor v) as [[[p line] n]|] eqn:Er; [|congruence].
  pose proof (_init_entry_item_well_formed fs v p line n Hf Er) as Hi.
  destruct (resolve_anchor_cases fs p line n)
    as [(new & st & Hfind & _ & _ & _ & E) | [[(msg & Hfind) E]
                                             | (e & E & He)]].
  - rewrite E in Hi. cbn [bind] in Hi. eexists. split; [exact Hi|]. split.
    + intros (p' & l' & n' & msg & Er' & Hl). exfalso.
      rewrite Er in Er'. injection Er' as <- <- <-. congruence.
    + intros _. simpl. discriminate.
  - rewrite E in Hi. cbn [bind] in Hi. eexists. split; [exact Hi|]. split.
    + intros _. simpl. split; [reflexivity|]. exists p, line, n. auto.
    + intros (p' & l' & n' & new & Er' & Hl). exfalso.
      rewrite Er in Er'. injection Er' as <- <- <-. congruence.
  - exfalso. unfold resolve_anchor in E.
    destruct Hcase as [(p' & l' & n' & msg & Er' & Hl)
                      | (p' & l' & n' & new & Er' & Hl)];
      rewrite Er in Er'; injection Er' as <- <- <-; rewrite Hl in E;
      cbn [bind] in E; [discriminate|].
    destruct (read_source_text_after_find _ _ _ _ _ Hl) as (st & Hst & _).
    rewrite Hst in E. discriminate.
Qed.

Lemma load_loop_all_kept (fs : FileSystem) :
  forall records items catalog log,
    Forall2 (kept_as fs) records items ->
    load_loop fs records catalog log
    = Ok (fold_left (fun c ke => Dict.set Key_eqb (fst ke) (snd ke) c)
            items catalog, log).
Proof.
  induction records as [|v records IH]; intros items catalog log H;
    inversion H as [|? ke ? items' [Hi _] H']; subst; [reflexivity|].
  cbn [load_loop]. rewrite Hi. destruct ke as [k e].
  cbn [fold_left fst snd]. apply IH. exact H'.
Qed.

Lemma Key_eqb_neq (a b : Key) : a <> b -> Key_eqb a b = false.
Proof.
  intros H. destruct (Key_eqb a b) eqn:E; [|reflexivity].
  apply Key_eqb_eq in E. contradiction.
Qed.

(** What [load] makes of three well-formed records, each with an anchor
    that is lost or resolves: it logs nothing and returns the catalog of
    three items, one per record. A record whose anchor is lost is kept, as
    an entry without [SourceText] under a key that holds the source line
    recorded in the catalog. The catalog has three entries when the three
    keys differ. *)
Lemma load_keeps_records_with_lost_anchor :
  forall (fs : FileSystem) (ignorefile_path content : string)
         (v1 v2 v3 : EntryValues),
    fs ignorefile_path = Some (Text content) ->
    records_of_text content = [v1; v2; v3] ->
    Forall well_formed [v1; v2; v3] ->
    Forall (fun v => anchor_lost fs v \/ anchor_resolves fs v) [v1; v2; v3] ->
    exists ke1 ke2 ke3,
      Forall2 (kept_as fs) [v1; v2; v3] [ke1; ke2; ke3]
      /\ load_log fs ignorefile_path
         = Ok (catalog_of_items [ke1; ke2; ke3], [])
      /\ (NoDup [fst ke1; fst ke2; fst ke3] ->
          length (catalog_of_items [ke1; ke2; ke3]) = 3%nat).
Proof.
  intros fs p0 content v1 v2 v3 Hfile Hrec Hwf Hcase.
  inversion Hwf as [|? ? W1 Hwf2]; subst.
  inversion Hwf2 as [|? ? W2 Hwf3]; subst.
  inversion Hwf3 as [|? ? W3 _]; subst.
  inversion Hcase as [|? ? C1 Hc2]; subst.
  inversion Hc2 as [|? ? C2 Hc3]; subst.
  inversion Hc3 as [|? ? C3 _]; subst.
  destruct (well_formed_kept fs v1 W1 C1) as (ke1 & K1).
  destruct (well_formed_kept fs v2 W2 C2) as (ke2 & K2).
  destruct (well_formed_kept fs v3 W3 C3) as (ke3 & K3).
  exists ke1, ke2, ke3.
  assert (HF : Forall2 (kept_as fs) [v1; v2; v3] [ke1; ke2; ke3])
    by (constructor; [assumption|]; constructor; [assumption|];
        constructor; [assumption|]; constructor).
  split; [exact HF|]. split.
  - unfold load_log, exists_, _iter_entry_values, read_text.
    rewrite Hfile. cbn [negb bind]. rewrite Hrec.
    apply load_loop_all_kept. exact HF.
  - intros Hnd. inversion Hnd as [|? ? N1 Hnd2]; subst.
    inversion Hnd2 as [|? ? N2 _]; subst.
    unfold catalog_of_items. cbn [fold_left Dict.set].
    rewrite (Key_eqb_neq (fst ke1) (fst ke2))
      by (intros E; apply N1; left; auto).
    cbn [Dict.set].
    rewrite (Key_eqb_neq (fst ke1) (fst ke3))
      by (intros E; apply N1; right; left; auto).
    rewrite (Key_eqb_neq (fst ke2) (fst ke3))
      by (intros E; apply N2; left; auto).
    reflexivity.
Qed.
(** C1. The catalog document [three_records] has three well-formed
    records for [a.py]; the anchors of the first and the third resolve and
    the anchor of the second is lost: its text is at no line of the file.
    [load] returns a catalog of three entries, not of two, and logs
    nothing: the second record is kept, as an entry without [SourceText]
    under a key that holds the source line recorded in the catalog. *)
Theorem load_keeps_obsolete_record :
  records_of_text three_records
  = [three_record 0; three_record 1; three_record 2]
  /\ Forall well_formed [three_record 0; three_record 1; three_record 2]
  /\ anchor_resolves three_project (three_record 0)
  /\ anchor_lost three_project (three_record 1)
  /\ anchor_resolves three_project (three_record 2)
  /\ (catalog <- load three_project "pylint-ignore.md" ;;
      Ok (length catalog)) = Ok 3%nat
  /\ exists k1 e1 k2 e2 k3 e3,
      load_log three_project "pylint-ignore.md"
      = Ok ([(k1, e1); (k2, e2); (k3, e3)], [])
      /\ srctxt e1 <> None /\ srctxt e2 = None /\ srctxt e3 <> None
      /\ msg_text e2 = "TODO two" /\ key_source_line k2 = "    d = 4".
Proof.
  split; [vm_compute; reflexivity|].
  split; [repeat constructor; vm_compute; congruence|].
  split; [exists "a.py", "    a = 1", 2, 2; split; vm_compute; reflexivity|].
  split; [exists "a.py", "    d = 4", 3, "source text not found";
          split; vm_compute; reflexivity|].
  split; [exists "a.py", "    c = 3", 4, 4; split; vm_compute; reflexivity|].
  split; [vm_compute; reflexivity|].
  do 6 eexists. split; [vm_compute; reflexivity|].
  repeat split; cbn; congruence.
Qed.

(** The catalog of [three_records], by [load_keeps_records_with_lost_anchor]. *)
Lemma three_records_kept :
  exists ke1 ke2 ke3,
    Forall2 (kept_as three_project)
      [three_record 0; three_record 1; three_record 2] [ke1; ke2; ke3]
    /\ load_log three_project "pylint-ignore.md"
       = Ok (catalog_of_items [ke1; ke2; ke3], [])
    /\ (NoDup [fst ke1; fst ke2; fst ke3] ->
        length (catalog_of_items [ke1; ke2; ke3]) = 3%nat).
Proof.
  apply (load_keeps_records_with_lost_anchor three_project
           "pylint-ignore.md" three_records (three_record 0) (three_record 1)
           (three_record 2) eq_refl).
  - vm_compute. reflexivity.
  - repeat constructor; vm_compute; congruence.
  - constructor;
      [right; exists "a.py", "    a = 1", 2, 2; split; vm_compute; reflexivity|].
    constructor;
      [left; exists "a.py", "    d = 4", 3, "source text not found";
       split; vm_compute; reflexivity|].
    constructor;
      [right; exists "a.py", "    c = 3", 4, 4; split; vm_compute; reflexivity|].
    constructor.
Qed.

Lemma load_raises_only_file_errors_witness :
  load_log ragged_project "missing.md" = Ok ([], [])
  /\ (exists log,
         load_log ragged_project "pylint-ignore.md"
         = Ok (catalog_of_items
                 (loaded_items ragged_project (records_of_text ragged_records)),
               log)
         /\ Forall2 log_line_for
              (filter (is_logged ragged_project)
                 (records_of_text ragged_records)) log)
  /\ (exists q,
         names_source (records_of_text three_records) q
         /\ OSError "a.py" = OSError q
         /\ cannot_open (one_file "pylint-ignore.md" three_records) q)
  /\ (exists ke,
         load_log ragged_project "pylint-ignore.md"
         = Ok ([ke],
               ["Error parsing entry on line 4 of a.py: 'ctx_src_text'";
                "Error parsing entry on line 24 of a.py: 'date'";
                "Error parsing entry on line 30 of a.py: 'ctx_src_text'"]))
  /\ map (is_logged ragged_project) (records_of_text ragged_records)
     = [true; false; false; true; true].
Proof.
  split; [|split; [|split; [|split]]].
  - apply (proj1 (load_raises_only_file_errors ragged_project "missing.md")).
    reflexivity.
  - apply (proj1 (proj2 (load_raises_only_file_errors ragged_project
                           "pylint-ignore.md") ragged_records eq_refl)).
    intros q (v & Hv & Hq) Hc.
    assert (Hp : q = "a.py").
    { cbv in Hv.
      repeat (destruct Hv as [<- | Hv]; [cbv in Hq; congruence|]).
      contradiction. }
    subst q. destruct Hc as [Hc | Hc]; cbv in Hc; discriminate.
  - apply (proj2 (proj2 (proj2 (load_raises_only_file_errors
                                  (one_file "pylint-ignore.md" three_records)
                                  "pylint-ignore.md") three_records eq_refl))).
    vm_compute. reflexivity.
  - eexists. vm_compute. reflexivity.
  - vm_compute. reflexivity.
Defined.

(** C8. [SOURCE_TEXT_RE] reads the same source line from the block with
    tildes as from the block with backticks; [load] makes one entry of the
    document with backticks, and of the same document with tildes it makes
    none: the parser opens a block on three backticks only, the record is
    left without [ctx_src_text], and [load] logs the [KeyError]. *)
Theorem load_rejects_tilde_fences :
  (exists m1 m2,
      Re.rmatch SOURCE_TEXT_RE (block_with "```") = Some m1
      /\ Re.rmatch SOURCE_TEXT_RE (block_with "~~~") = Some m2
      /\ Re.group "source_line" m1 = Some "    return a"
      /\ Re.group "source_line" m2 = Some "    return a")
  /\ (exists ke,
         load_log (project_with "```") "pylint-ignore.md" = Ok ([ke], []))
  /\ load_log (project_with "~~~") "pylint-ignore.md"
     = Ok ([], ["Error parsing entry on line 1 of a.py: 'ctx_src_text'"]).
Proof.
  split; [do 2 eexists; repeat split; vm_compute; reflexivity|].
  split; [eexists|]; vm_compute; reflexivity.
Qed.

(** C9. The anchor records the definition line of index 0, the first line
    of the file: [_dumps_entry] renders the context window and no definition
    line, as [def_line_idx] is tested for truth and 0 is false. With the
    definition line at index 1 it is rendered, with the ellipsis. The
    anchor builder does the same: its walk upwards stops before index 0, so
    it records the definition line of the second line of a file and not of
    the first. *)
Theorem dumps_entry_omits_definition_at_index_0 :
  _dumps_entry (entry_with_def 0) = document_with "```"
  /\ def_src_lines (anchor_with_def 0) 1 = []
  /\ def_src_lines (anchor_with_def 1) 1 = ["  2: def f():"; "  ..."]
  /\ (exists st,
         read_source_text (one_file "a.py" def_first_text) "a.py" 5 5 = Ok st
         /\ start_idx st = 2 /\ def_line_idx st = None /\ def_line st = None)
  /\ (exists st,
         read_source_text (one_file "a.py" def_second_text) "a.py" 6 6 = Ok st
         /\ start_idx st = 3 /\ def_line_idx st = Some 1
         /\ def_line st = Some ("def f():" ++ NL)).
Proof.
  split; [vm_compute; reflexivity|].
  split; [vm_compute; reflexivity|].
  split; [vm_compute; reflexivity|].
  split; eexists; (split; [vm_compute; reflexivity|]); repeat split.
Qed.

(** ** Running a pattern on a text of known shape *)

Lemma orelse_None_r {A} (x : option A) : orelse x None = x.
Proof. destruct x; reflexivity. Qed.

Lemma append_assoc (a b c : string) : (a ++ b) ++ c = a ++ b ++ c.
Proof. induction a; simpl; congruence. Qed.

Lemma length_append (a b : string) :
  String.length (a ++ b) = (String.length a + String.length b)%nat.
Proof. induction a; simpl; congruence. Qed.

Lemma slice_to_add (pos : nat) (u s : string) :
  Py.slice_to (pos + String.length u - pos) (u ++ s) = u.
Proof.
  replace (pos + String.length u - pos)%nat with (String.length u) by lia.
  apply slice_to_append.
Qed.

Lemma all_chars_app (p : ascii -> bool) (a b : string) :
  all_chars p (a ++ b) = all_chars p a && all_chars p b.
Proof.
  induction a as [|c a IH]; simpl; [reflexivity|].
  rewrite IH, andb_assoc. reflexivity.
Qed.

Lemma all_chars_impl (p q : ascii -> bool) (s : string) :
  (forall c, p c = true -> q c = true) ->
  all_chars p s = true -> all_chars q s = true.
Proof.
  intros H. induction s as [|c s IH]; simpl; [reflexivity|].
  rewrite !andb_true_iff. intros [Hc Hs]. auto.
Qed.

(** Greedy: when what follows cannot extend the repetition and the rest of
    the pattern accepts it, the longest repetition is the match. *)
Lemma star_longest (cc : cclass) (u s : string) (caps c : captures)
    (k : cont) :
  all_chars (cmatch cc) u = true -> stops cc s = true ->
  forall pos,
    k (pos + String.length u)%nat s caps = Some c ->
    star cc pos (u ++ s) caps k = Some c.
Proof.
  intros Hu Hs. induction u as [|a u IH]; intros pos Hk.
  - simpl in *. rewrite Nat.add_0_r in Hk.
    destruct s as [|b s]; simpl; [exact Hk|].
    simpl in Hs. apply negb_true_iff in Hs. rewrite Hs. exact Hk.
  - simpl in Hu. apply andb_true_iff in Hu. destruct Hu as [Ha Hu].
    cbn [append star]. rewrite Ha.
    rewrite (IH Hu (S pos)); [reflexivity|].
    simpl in Hk. rewrite Nat.add_succ_r in Hk. exact Hk.
Qed.

(** The repetition gives back nothing when the rest of the pattern refuses
    every text that starts with a character of the class. *)
Lemma star_exact (cc : cclass) (u s : string) (caps : captures) (k : cont) :
  all_chars (cmatch cc) u = true -> stops cc s = true ->
  (forall pos' a t, cmatch cc a = true -> k pos' (String a t) caps = None) ->
  forall pos,
    star cc pos (u ++ s) caps k = k (pos + String.length u)%nat s caps.
Proof.
  intros Hu Hs Hk. induction u as [|a u IH]; intros pos.
  - simpl. rewrite Nat.add_0_r.
    destruct s as [|b s]; simpl; [reflexivity|].
    simpl in Hs. apply negb_true_iff in Hs. rewrite Hs. reflexivity.
  - simpl in Hu. apply andb_true_iff in Hu. destruct Hu as [Ha Hu].
    cbn [append star]. rewrite Ha, (IH Hu), (Hk _ _ _ Ha), orelse_None_r.
    simpl. rewrite Nat.add_succ_r. reflexivity.
Qed.

(** The first success wins: a longer repetition that the rest of the
    pattern accepts hides the shorter ones. *)
Lemma star_prefix (cc : cclass) (u s : string) (caps c : captures)
    (k : cont) :
  all_chars (cmatch cc) u = true ->
  forall pos,
    star cc (pos + String.length u) s caps k = Some c ->
    star cc pos (u ++ s) caps k = Some c.
Proof.
  intros Hu. induction u as [|a u IH]; intros pos Hk.
  - simpl in *. rewrite Nat.add_0_r in Hk. exact Hk.
  - simpl in Hu. apply andb_true_iff in Hu. destruct Hu as [Ha Hu].
    cbn [append star]. rewrite Ha, (IH Hu (S pos)); [reflexivity|].
    simpl in Hk. rewrite Nat.add_succ_r in Hk. exact Hk.
Qed.

(** When the rest of the pattern refuses every suffix of the text, so does
    the repetition. *)
Lemma star_dead (cc : cclass) (caps : captures) (k : cont) :
  forall s,
    (forall v w, s = v ++ w -> krejects k w caps) ->
    forall pos, star cc pos s caps k = None.
Proof.
  induction s as [|a s IH]; intros H pos; simpl.
  - apply (H "" "" eq_refl).
  - assert (Hs : star cc (S pos) s caps k = None).
    { apply IH. intros v w ->. apply (H (String a v) w). reflexivity. }
    rewrite Hs, (H "" (String a s) eq_refl pos).
    destruct (cmatch cc a); reflexivity.
Qed.

Lemma star_stop (cc : cclass) (s : string) (pos : nat) (caps : captures)
    (k : cont) :
  stops cc s = true -> star cc pos s caps k = k pos s caps.
Proof.
  destruct s as [|a s]; simpl; [reflexivity|].
  intros H. apply negb_true_iff in H. rewrite H. reflexivity.
Qed.

Lemma lit_append (l s : string) (pos : nat) (caps : captures) (k : cont) :
  lit l pos (l ++ s) caps k = k (pos + String.length l)%nat s caps.
Proof.
  revert pos. induction l as [|a l IH]; intros pos; simpl.
  - rewrite Nat.add_0_r. reflexivity.
  - rewrite Ascii.eqb_refl, IH, Nat.add_succ_r. reflexivity.
Qed.

Section Accepts.
Variable k : cont.
Variable caps c : captures.

Lemma acc_seq (r1 r2 : re) (s : string) :
  accepts r1 s caps (andthen r2 k) c -> accepts (RSeq r1 r2) s caps k c.
Proof. intros H pos. exact (H pos). Qed.

Lemma rej_seq (r1 r2 : re) (s : string) :
  rejects r1 s caps (andthen r2 k) -> rejects (RSeq r1 r2) s caps k.
Proof. intros H pos. exact (H pos). Qed.

Lemma acc_lit (l s : string) :
  kaccepts k s caps c -> accepts (RLit l) (l ++ s) caps k c.
Proof. intros H pos. simpl. rewrite lit_append. apply H. Qed.

Lemma acc_class (cc : cclass) (a : ascii) (s : string) :
  cmatch cc a = true -> kaccepts k s caps c ->
  accepts (RClass cc) (String a s) caps k c.
Proof. intros Ha H pos. simpl. rewrite Ha. apply H. Qed.

Lemma rej_class (cc : cclass) (s : string) :
  stops cc s = true -> rejects (RClass cc) s caps k.
Proof.
  intros H pos. destruct s as [|a s]; simpl; [reflexivity|].
  simpl in H. apply negb_true_iff in H. rewrite H. reflexivity.
Qed.

Lemma rej_lit (a b : ascii) (l s : string) :
  Ascii.eqb a b = false -> rejects (RLit (String a l)) (String b s) caps k.
Proof. intros H pos. simpl. rewrite H. reflexivity. Qed.

Lemma acc_star (cc : cclass) (u s : string) :
  all_chars (cmatch cc) u = true -> stops cc s = true ->
  kaccepts k s caps c -> accepts (RStar cc) (u ++ s) caps k c.
Proof. intros Hu Hs H pos. simpl. apply star_longest; auto. Qed.

Lemma acc_plus (cc : cclass) (a : ascii) (u s : string) :
  cmatch cc a = true -> all_chars (cmatch cc) u = true -> stops cc s = true ->
  kaccepts k s caps c -> accepts (RPlus cc) (String a (u ++ s)) caps k c.
Proof. intros Ha Hu Hs H pos. simpl. rewrite Ha. apply star_longest; auto. Qed.

Lemma rej_plus (cc : cclass) (s : string) :
  stops cc s = true -> rejects (RPlus cc) s caps k.
Proof.
  intros H pos. destruct s as [|a s]; simpl; [reflexivity|].
  simpl in H. apply negb_true_iff in H. rewrite H. reflexivity.
Qed.

(** A repetition before a part of the pattern that refuses every text that
    starts with a character of the class: all or nothing. *)
Lemma rej_plus_exact (cc : cclass) (u s : string) :
  all_chars (cmatch cc) u = true -> stops cc s = true ->
  (forall pos' a t, cmatch cc a = true -> k pos' (String a t) caps = None) ->
  krejects k s caps -> rejects (RPlus cc) (u ++ s) caps k.
Proof.
  intros Hu Hs Hk H pos. destruct u as [|a u].
  - apply rej_plus. exact Hs.
  - simpl in Hu. apply andb_true_iff in Hu. destruct Hu as [Ha Hu].
    simpl. rewrite Ha, star_exact by assumption. apply H.
Qed.

Lemma acc_opt_take (r : re) (s : string) :
  accepts r s caps k c -> accepts (ROpt r) s caps k c.
Proof. intros H pos. simpl. rewrite H. reflexivity. Qed.

Lemma acc_opt_skip (r : re) (s : string) :
  rejects r s caps k -> kaccepts k s caps c -> accepts (ROpt r) s caps k c.
Proof. intros Hr H pos. simpl. rewrite Hr. apply H. Qed.

Lemma acc_alt_l (r1 r2 : re) (s : string) :
  accepts r1 s caps k c -> accepts (RAlt r1 r2) s caps k c.
Proof. intros H pos. simpl. rewrite H. reflexivity. Qed.

Lemma acc_alt_r (r1 r2 : re) (s : string) :
  rejects r1 s caps k -> accepts r2 s caps k c ->
  accepts (RAlt r1 r2) s caps k c.
Proof. intros Hr H pos. simpl. rewrite Hr. apply H. Qed.

Lemma acc_eol (s : string) :
  at_eol s = true -> kaccepts k s caps c -> accepts REol s caps k c.
Proof. intros He H pos. simpl. rewrite He. apply H. Qed.

(** A group around a repetition that takes all it can. *)
Lemma acc_group_star (name : string) (cc : cclass) (u s : string) :
  all_chars (cmatch cc) u = true -> stops cc s = true ->
  kaccepts (with_group name u k) s caps c ->
  accepts (RGroup name (RStar cc)) (u ++ s) caps k c.
Proof.
  intros Hu Hs H pos. simpl. apply star_longest; auto.
  rewrite slice_to_add. apply H.
Qed.

Lemma acc_group_plus (name : string) (cc : cclass) (a : ascii) (u s : string) :
  cmatch cc a = true -> all_chars (cmatch cc) u = true -> stops cc s = true ->
  kaccepts (with_group name (String a u) k) s caps c ->
  accepts (RGroup name (RPlus cc)) (String a (u ++ s)) caps k c.
Proof.
  intros Ha Hu Hs H pos. simpl. rewrite Ha. apply star_longest; auto.
  match goal with
  | |- context [Py.slice_to ?n _] =>
      replace n with (String.length (String a u))
        by (cbn [String.length]; lia)
  end.
  change (String a (u ++ s)) with (String a u ++ s).
  rewrite (slice_to_append (String a u) s). apply H.
Qed.

(** A group around a repetition that gives back one character: the rest of
    the pattern refuses what follows the longest repetition and accepts
    what follows the repetition without its last character. *)
Lemma acc_group_star_back1 (name : string) (cc : cclass) (u : string)
    (x : ascii) (s : string) :
  all_chars (cmatch cc) u = true -> cmatch cc x = true -> stops cc s = true ->
  krejects (with_group name (u ++ Py.str1 x) k) s caps ->
  kaccepts (with_group name u k) (String x s) caps c ->
  accepts (RGroup name (RStar cc)) (u ++ String x s) caps k c.
Proof.
  intros Hu Hx Hs Hrej Hacc pos. simpl. apply star_prefix; [exact Hu|].
  cbn [star]. rewrite Hx, (star_stop cc s) by exact Hs.
  match goal with
  | |- context [Py.slice_to ?n _] =>
      replace n with (String.length (u ++ Py.str1 x))
        by (rewrite length_append; cbn [String.length Py.str1]; lia)
  end.
  replace (u ++ String x s) with ((u ++ Py.str1 x) ++ s)
    by (rewrite append_assoc; reflexivity).
  rewrite slice_to_append.
  unfold krejects, with_group in Hrej. rewrite Hrej. cbn [orelse].
  rewrite append_assoc. cbn [append Py.str1]. rewrite slice_to_add.
  apply Hacc.
Qed.

(** A group around a repetition that gives back a stretch: the rest of the
    pattern refuses every suffix of what follows the group but the whole,
    which it accepts. *)
Lemma acc_group_star_back (name : string) (cc : cclass) (u : string)
    (a : ascii) (s : string) :
  all_chars (cmatch cc) u = true ->
  (forall v w g, s = v ++ w -> krejects (with_group name g k) w caps) ->
  kaccepts (with_group name u k) (String a s) caps c ->
  accepts (RGroup name (RStar cc)) (u ++ String a s) caps k c.
Proof.
  intros Hu Hdead Hacc pos. simpl. apply star_prefix; [exact Hu|].
  cbn [star].
  rewrite star_dead.
  - cbn [orelse]. rewrite slice_to_add.
    destruct (cmatch cc a); apply Hacc.
  - intros v w E pos'. apply (Hdead v w _ E).
Qed.
End Accepts.

(** ** The header line is read back *)

Lemma rmatch_bol (r : re) (s : string) (c : captures) :
  accepts r s [] (fun _ _ caps => Some caps) c ->
  Re.rmatch (RSeq RBol r) s = Some c.
Proof. intros H. unfold Re.rmatch. simpl. apply H. Qed.

Lemma kaccepts_andthen (r : re) (k : cont) (s : string) (caps c : captures) :
  accepts r s caps k c -> kaccepts (andthen r k) s caps c.
Proof. intros H pos. apply H. Qed.

Lemma krejects_andthen (r : re) (k : cont) (s : string) (caps : captures) :
  rejects r s caps k -> krejects (andthen r k) s caps.
Proof. intros H pos. apply H. Qed.

Lemma kaccepts_with_group (name v : string) (k : cont) (s : string)
    (caps c : captures) :
  kaccepts k s ((name, v) :: caps) c -> kaccepts (with_group name v k) s caps c.
Proof. intros H pos. apply H. Qed.

Lemma isspace_not_digit (a : ascii) : Py.isdigit a = true -> Py.isspace a = false.
Proof.
  destruct a as [[] [] [] [] [] [] [] []]; try reflexivity; discriminate.
Qed.

Lemma isspace_not_word (a : ascii) : Py.isword a = true -> Py.isspace a = false.
Proof.
  destruct a as [[] [] [] [] [] [] [] []]; try reflexivity; discriminate.
Qed.

Lemma digit_not_i (a : ascii) : Py.isdigit a = true -> Ascii.eqb "i" a = false.
Proof.
  destruct a as [[] [] [] [] [] [] [] []]; try reflexivity; discriminate.
Qed.

Lemma digit_not_dash (a : ascii) :
  Py.isdigit a = true -> Ascii.eqb "-" a = false.
Proof.
  destruct a as [[] [] [] [] [] [] [] []]; try reflexivity; discriminate.
Qed.

Lemma word_not_dash (a : ascii) : Py.isword a = true -> Ascii.eqb "-" a = false.
Proof.
  destruct a as [[] [] [] [] [] [] [] []]; try reflexivity; discriminate.
Qed.

Lemma digits_no_space (s : string) :
  all_chars Py.isdigit s = true -> no_space s = true.
Proof.
  apply all_chars_impl. intros c H. unfold not_space.
  rewrite isspace_not_digit; auto.
Qed.

Lemma no_space_single_line (s : string) :
  no_space s = true -> single_line s = true.
Proof.
  apply all_chars_impl. intros c. unfold not_space, not_newline.
  destruct (Ascii.eqb c Py.nl) eqn:E; [|reflexivity].
  apply Ascii.eqb_eq in E. subst c. discriminate.
Qed.

(** The separator is nowhere in a text without whitespace, nor at a
    character that is not whitespace. *)
Lemma sep_at_no_space (a : ascii) (t : string) :
  Py.isspace a = false -> sep_at (String a t) = false.
Proof. intros H. destruct t as [|b [|c t]]; simpl; rewrite ?H; reflexivity. Qed.

Lemma has_sep_cons_no_space (a : ascii) (t : string) :
  Py.isspace a = false -> has_sep (String a t) = has_sep t.
Proof. intros H. cbn [has_sep]. rewrite sep_at_no_space by exact H. reflexivity. Qed.

Lemma has_sep_no_space (u t : string) :
  no_space u = true -> has_sep (u ++ t) = has_sep t.
Proof.
  induction u as [|a u IH]; intros H; [reflexivity|].
  simpl in H. apply andb_true_iff in H. destruct H as [Ha Hu].
  cbn [append]. rewrite has_sep_cons_no_space; [auto|].
  unfold not_space in Ha. apply negb_true_iff in Ha. exact Ha.
Qed.

Lemma has_sep_cons_other (a b : ascii) (t : string) :
  Ascii.eqb "-" b = false ->
  has_sep (String a (String b t)) = has_sep (String b t).
Proof.
  intros H. cbn [has_sep sep_at]. destruct t as [|c t]; [reflexivity|].
  rewrite H, andb_false_r. reflexivity.
Qed.

Lemma has_sep_cons_noline (a b c : ascii) (t : string) :
  has_prefix "Line" t = false ->
  has_sep (String a (String b (String c t)))
  = has_sep (String b (String c t)).
Proof.
  intros H. cbn [has_sep sep_at]. rewrite H, !andb_false_r. reflexivity.
Qed.

Lemma has_sep_suffix (v w : string) :
  has_sep (v ++ w) = false -> sep_at w = false.
Proof.
  induction v as [|a v IH]; cbn [append].
  - destruct w as [|a w]; [reflexivity|]. cbn [has_sep].
    intros H. apply orb_false_iff in H. tauto.
  - cbn [has_sep]. intros H. apply orb_false_iff in H. tauto.
Qed.

(** What follows the path of the header starts with the separator. *)
Lemma separator_needed (r : re) (k : cont) (pos : nat) (w : string)
    (caps c : captures) :
  run (RSeq (RClass CSpace) (RSeq (RLit "-") (RSeq (RClass CSpace)
         (RSeq (RLit "Line") r)))) pos w caps k = Some c ->
  sep_at w = true.
Proof.
  intros H. apply run_sound in H.
  destruct H as (p1 & s1 & c1 & H & _). cbn [matches] in H.
  destruct H as (p2 & s2 & c2 & (a & -> & Ha & _) & H).
  destruct H as (p3 & s3 & c3 & (-> & _) & H).
  destruct H as (p4 & s4 & c4 & (b & -> & Hb & _) & H).
  destruct H as (p5 & s5 & c5 & (-> & _) & _).
  simpl in Ha, Hb. cbn. rewrite Ha, Hb.
  destruct s5; reflexivity.
Qed.

(** The rest of the header line, after the blank that ends the path, holds
    no separator. *)
Lemma header_tail_no_sep (lineno : string) (w d : ascii) (ds sym : string) :
  all_chars Py.isdigit lineno = true -> lineno <> "" ->
  Py.isword w = true -> Py.isdigit d = true ->
  all_chars Py.isdigit ds = true -> no_space sym = true ->
  has_sep (header_tail lineno w d ds sym) = false.
Proof.
  intros Hn Hne Hw Hd Hds Hsym. unfold header_tail.
  cbn [append]. rewrite has_sep_cons_no_space by reflexivity.
  rewrite has_sep_cons_other by reflexivity.
  do 4 (rewrite has_sep_cons_no_space by reflexivity).
  destruct lineno as [|n0 lineno]; [congruence|].
  simpl in Hn. apply andb_true_iff in Hn. destruct Hn as [Hn0 Hn].
  cbn [append].
  rewrite has_sep_cons_other by (apply digit_not_dash; exact Hn0).
  rewrite has_sep_cons_no_space by (apply isspace_not_digit; exact Hn0).
  rewrite has_sep_no_space by (apply digits_no_space; exact Hn).
  rewrite has_sep_cons_noline
    by (cbn [has_prefix]; rewrite (digit_not_i d Hd), !andb_false_r;
        reflexivity).
  rewrite has_sep_cons_no_space by reflexivity.
  rewrite has_sep_cons_other by (apply word_not_dash; exact Hw).
  rewrite has_sep_cons_no_space by (apply isspace_not_word; exact Hw).
  rewrite has_sep_cons_no_space by (apply isspace_not_digit; exact Hd).
  rewrite has_sep_no_space by (apply digits_no_space; exact Hds).
  rewrite has_sep_cons_other by reflexivity.
  rewrite has_sep_cons_no_space by reflexivity.
  rewrite has_sep_no_space by exact Hsym.
  reflexivity.
Qed.

Lemma acc_group_word_digits (k : cont) (caps c : captures) (name : string)
    (c1 c2 : cclass) (w d : ascii) (ds s : string) :
  cmatch c1 w = true -> cmatch c2 d = true ->
  all_chars (cmatch c2) ds = true -> stops c2 s = true ->
  kaccepts (with_group name (String w (String d ds)) k) s caps c ->
  accepts (RGroup name (RSeq (RClass c1) (RPlus c2)))
    (String w (String d (ds ++ s))) caps k c.
Proof.
  intros Hw Hd Hds Hs H pos. simpl. rewrite Hw, Hd.
  apply star_longest; auto.
  match goal with
  | |- context [Py.slice_to ?n _] =>
      replace n with (String.length (String w (String d ds)))
        by (cbn [String.length]; lia)
  end.
  change (String w (String d (ds ++ s))) with (String w (String d ds) ++ s).
  rewrite slice_to_append. apply H.
Qed.

Ltac next_part := try apply kaccepts_with_group; apply kaccepts_andthen.
Lemma acc_lit_eq (k : cont) (caps c : captures) (l s s0 : string) :
  s0 = l ++ s -> kaccepts k s caps c -> accepts (RLit l) s0 caps k c.
Proof. intros ->. apply acc_lit. Qed.

Ltac take_lit :=
  apply acc_seq; eapply acc_lit_eq; [reflexivity | next_part].
Ltac take_class :=
  apply acc_seq, acc_class; [reflexivity | next_part].

(** The header pattern reads the four fields of a header line back. *)
Lemma header_parse (p lineno : string) (w d : ascii) (ds sym : string) :
  single_line p = true ->
  all_chars Py.isdigit lineno = true -> lineno <> "" ->
  Py.isword w = true -> Py.isdigit d = true ->
  all_chars Py.isdigit ds = true -> no_space sym = true ->
  Re.rmatch ENTRY_HEADER_RE (header_line p lineno w d ds sym)
  = Some [("symbol", sym); ("msg_id", String w (String d ds));
          ("lineno", lineno); ("path", p)].
Proof.
  intros Hp Hn Hne Hw Hd Hds Hsym.
  unfold ENTRY_HEADER_RE, header_line. cbn [rseq]. apply rmatch_bol.
  take_lit. take_class. take_lit. take_class.
  (* the path: the repetition runs to the end of the line and comes back *)
  apply acc_seq, acc_group_star_back; [exact Hp | |].
  { intros v u g E pos. unfold with_group, andthen.
    match goal with |- ?x = None => destruct x eqn:Ex; [|reflexivity] end.
    exfalso. apply separator_needed in Ex.
    pose proof (header_tail_no_sep lineno w d ds sym Hn Hne Hw Hd Hds Hsym)
      as Hsep.
    rewrite E in Hsep. apply has_sep_suffix in Hsep. congruence. }
  next_part. unfold header_tail.
  take_class. take_lit. take_class. take_lit. take_class.
  (* the line number *)
  destruct lineno as [|n0 ns]; [congruence|].
  simpl in Hn. apply andb_true_iff in Hn. destruct Hn as [Hn0 Hns].
  match goal with
  | |- context [String n0 ns ++ ?t] =>
      change (String n0 ns ++ t) with (String n0 (ns ++ t))
  end.
  apply acc_seq, acc_group_plus; [exact Hn0 | exact Hns | reflexivity |].
  next_part. take_class. take_lit. take_class.
  (* the message id *)
  apply acc_seq, acc_group_word_digits;
    [exact Hw | exact Hd | exact Hds | reflexivity |].
  next_part. take_class. take_lit.
  (* the symbol: the repetition takes the bracket and gives it back *)
  apply acc_seq, acc_group_star_back1;
    [apply no_space_single_line; exact Hsym | reflexivity | reflexivity | |].
  { intros pos. reflexivity. }
  next_part. change (String ")" NL) with (")" ++ NL).
  take_lit. apply acc_eol; [reflexivity|].
  intros pos. reflexivity.
Qed.

(** ** The list items are read back *)

Section GroupLemmas.
Variable k : cont.
Variable caps c : captures.

Lemma acc_group_lit (name l s : string) :
  kaccepts (with_group name l k) s caps c ->
  accepts (RGroup name (RLit l)) (l ++ s) caps k c.
Proof.
  intros H pos. simpl. rewrite lit_append, slice_to_add. apply H.
Qed.

Lemma rej_group_lit (name : string) (a b : ascii) (l s : string) :
  Ascii.eqb a b = false ->
  rejects (RGroup name (RLit (String a l))) (String b s) caps k.
Proof. intros H pos. simpl. rewrite H. reflexivity. Qed.

Lemma acc_group_alt_l (name : string) (r1 r2 : re) (s : string) :
  accepts (RGroup name r1) s caps k c ->
  accepts (RGroup name (RAlt r1 r2)) s caps k c.
Proof. intros H pos. specialize (H pos). simpl in *. rewrite H. reflexivity. Qed.

Lemma acc_group_alt_r (name : string) (r1 r2 : re) (s : string) :
  rejects (RGroup name r1) s caps k ->
  accepts (RGroup name r2) s caps k c ->
  accepts (RGroup name (RAlt r1 r2)) s caps k c.
Proof.
  intros Hr H pos. specialize (H pos). specialize (Hr pos).
  simpl in *. rewrite Hr. exact H.
Qed.
End GroupLemmas.

(** The keys of the three list items, with the blanks before the colon. *)
Inductive item_label : string -> string -> Prop :=
| label_message : item_label "message" ""
| label_author : item_label "author" " "
| label_date : item_label "date" "   ".

Lemma item_parse (key pad value : string) :
  item_label key pad -> single_line value = true ->
  Re.rmatch LIST_ITEM_RE (item_line (key ++ pad) value)
  = Some [("value", value); ("key", key)].
Proof.
  intros Hl Hv. unfold LIST_ITEM_RE, item_line. cbn [rseq].
  apply rmatch_bol.
  apply acc_seq, (acc_star _ _ _ CSpace "" _); [reflexivity | reflexivity |].
  next_part. take_lit. take_class. take_lit.
  rewrite !append_assoc.
  apply acc_seq.
  assert (Hrest : forall k caps c s,
             all_chars Py.isspace pad = true ->
             kaccepts k (":" ++ s) caps c ->
             kaccepts (andthen (RStar CSpace) k) (pad ++ ":" ++ s) caps c).
  { intros k caps c s Hpad Hk. apply kaccepts_andthen.
    apply acc_star; [exact Hpad | reflexivity | exact Hk]. }
  assert (Hpad : all_chars Py.isspace pad = true) by (destruct Hl; reflexivity).
  assert (Htail : forall caps,
             kaccepts
               (andthen (RSeq (RLit ":") (RSeq (RClass CSpace)
                  (RSeq (RGroup "value" (RStar CDot)) (RSeq (RLit "`") REol))))
                  (fun _ _ caps => Some caps))
               (":" ++ String " " (value ++ String "`" NL)) caps
               (("value", value) :: caps)).
  { intros caps. apply kaccepts_andthen. take_lit. take_class.
    apply acc_seq, acc_group_star_back1;
      [exact Hv | reflexivity | reflexivity | |].
    { intros pos. reflexivity. }
    next_part. change (String "`" NL) with ("`" ++ NL).
    take_lit. apply acc_eol; [reflexivity|]. intros pos. reflexivity. }
  destruct Hl.
  - apply acc_group_alt_l, acc_group_lit, kaccepts_with_group.
    apply Hrest; [exact Hpad | apply Htail].
  - apply acc_group_alt_r; [apply rej_group_lit; reflexivity|].
    apply acc_group_alt_l, acc_group_lit, kaccepts_with_group.
    apply Hrest; [exact Hpad | apply Htail].
  - apply acc_group_alt_r; [apply rej_group_lit; reflexivity|].
    apply acc_group_alt_r; [apply rej_group_lit; reflexivity|].
    apply acc_group_lit, kaccepts_with_group.
    apply Hrest; [exact Hpad | apply Htail].
Qed.

(** ** A context block is read back *)

Section Rejects.
Variable k : cont.
Variable caps : captures.

Lemma rej_opt (r : re) (s : string) :
  rejects r s caps k -> krejects k s caps -> rejects (ROpt r) s caps k.
Proof. intros Hr Hk pos. simpl. rewrite Hr. apply Hk. Qed.

Lemma rej_lit_take (l s : string) :
  krejects k s caps -> rejects (RLit l) (l ++ s) caps k.
Proof. intros H pos. simpl. rewrite lit_append. apply H. Qed.

Lemma rej_class_take (cc : cclass) (a : ascii) (s : string) :
  krejects k s caps -> rejects (RClass cc) (String a s) caps k.
Proof. intros H pos. simpl. destruct (cmatch cc a); [apply H | reflexivity]. Qed.

Lemma rej_group_plus_exact (name : string) (cc : cclass) (u s : string) :
  all_chars (cmatch cc) u = true -> stops cc s = true ->
  (forall g pos' a t,
      cmatch cc a = true -> k pos' (String a t) ((name, g) :: caps) = None) ->
  (forall g, krejects (with_group name g k) s caps) ->
  rejects (RGroup name (RPlus cc)) (u ++ s) caps k.
Proof.
  intros Hu Hs Hk H pos. simpl. destruct u as [|a u].
  - destruct s as [|b s]; simpl; [reflexivity|].
    simpl in Hs. apply negb_true_iff in Hs. rewrite Hs. reflexivity.
  - simpl in Hu. apply andb_true_iff in Hu. destruct Hu as [Ha Hu].
    cbn [append]. rewrite Ha.
    rewrite star_exact;
      [apply H | exact Hu | exact Hs
       | intros pos' b t Hb; apply Hk; exact Hb].
Qed.

Lemma rej_group_star_dead (name : string) (cc : cclass) (s : string) :
  (forall v w g, s = v ++ w -> krejects (with_group name g k) w caps) ->
  rejects (RGroup name (RStar cc)) s caps k.
Proof.
  intros H pos. simpl. apply star_dead.
  intros v w E pos'. apply (H v w _ E).
Qed.
End Rejects.

Lemma krejects_with_group (name v : string) (k : cont) (s : string)
    (caps : captures) :
  krejects k s ((name, v) :: caps) -> krejects (with_group name v k) s caps.
Proof. intros H pos. apply H. Qed.

Lemma numbered_ok_parts (l : numbered) :
  numbered_ok l = true ->
  all_chars Py.isspace (num_ws l) = true /\ Py.isdigit (num_d0 l) = true
  /\ all_chars Py.isdigit (num_ds l) = true /\ single_line (num_body l) = true.
Proof. unfold numbered_ok. rewrite !andb_true_iff. tauto. Qed.

Lemma stops_space_digit (a : ascii) (t : string) :
  Py.isdigit a = true -> stops CSpace (String a t) = true.
Proof. intros H. simpl. rewrite isspace_not_digit by exact H. reflexivity. Qed.

(** A context line: the pattern of a context line takes the whole line. *)
Lemma ctx_line_take (l : numbered) (t : string) (k : cont)
    (caps c : captures) :
  numbered_ok l = true ->
  kaccepts k (String Py.nl t) caps c ->
  accepts ctx_line_re (show_ctx l (String Py.nl t)) caps k c.
Proof.
  intros Hok Hk. apply numbered_ok_parts in Hok.
  destruct Hok as (Hws & Hd0 & Hds & Hbody).
  unfold ctx_line_re, show_ctx, number_and_text. cbn [rseq].
  apply acc_opt_take, acc_seq.
  apply (acc_plus _ _ _ CSpace Py.nl (String " " (num_ws l)));
    [reflexivity | exact Hws | apply stops_space_digit; exact Hd0 |].
  next_part.
  apply acc_seq, acc_plus; [exact Hd0 | exact Hds | reflexivity |].
  next_part. take_lit.
  apply acc_seq, acc_opt_take, acc_class; [reflexivity|]. next_part.
  apply acc_star; [exact Hbody | reflexivity | exact Hk].
Qed.

(** The pattern of a context line takes nothing of a marked line or of a
    fence. *)
Lemma ctx_line_skip (x : ascii) (t : string) (k : cont) (caps c : captures) :
  Py.isspace x = false -> Py.isdigit x = false ->
  kaccepts k (String Py.nl (String x t)) caps c ->
  accepts ctx_line_re (String Py.nl (String x t)) caps k c.
Proof.
  intros Hs Hd Hk. unfold ctx_line_re. cbn [rseq].
  apply acc_opt_skip; [|exact Hk].
  intros pos. cbn [run star andthen cmatch].
  change (Py.isspace Py.nl) with true. cbv iota. rewrite Hs, Hd. reflexivity.
Qed.

(** Up to two context lines before what the rest of the pattern takes, a
    marked line or a fence. *)
Lemma ctx_lines_take (ls : list numbered) (x : ascii) (t : string) (r : re)
    (k : cont) (caps c : captures) :
  (length ls <= 2)%nat -> Forall (fun l => numbered_ok l = true) ls ->
  Py.isspace x = false -> Py.isdigit x = false ->
  accepts r (String Py.nl (String x t)) caps k c ->
  accepts (RSeq ctx_line_re (RSeq ctx_line_re r))
    (show_ctx_lines ls (String Py.nl (String x t))) caps k c.
Proof.
  intros Hlen Hok Hs Hd Hr.
  destruct ls as [|l1 [|l2 [|l3 ls]]]; cbn [show_ctx_lines];
    [| | |simpl in Hlen; lia].
  - apply acc_seq, ctx_line_skip; [exact Hs | exact Hd |]. next_part.
    apply acc_seq, ctx_line_skip; [exact Hs | exact Hd |]. next_part. exact Hr.
  - inversion Hok as [|? ? H1 _]; subst.
    apply acc_seq, ctx_line_take; [assumption|]. next_part.
    apply acc_seq, ctx_line_skip; [exact Hs | exact Hd |]. next_part. exact Hr.
  - inversion Hok as [|? ? H1 Hok2]; subst.
    inversion Hok2 as [|? ? H2 _]; subst.
    apply acc_seq. unfold show_ctx at 2.
    apply ctx_line_take; [assumption|]. next_part.
    apply acc_seq, ctx_line_take; [assumption|]. next_part. exact Hr.
Qed.

(** The marked line: its number and its text are the two groups. *)
Lemma anchor_take (l : numbered) (t : string) (r : re) (k : cont)
    (caps c : captures) :
  numbered_ok l = true ->
  accepts r (String Py.nl t)
    (("source_line", num_body l)
       :: ("source_lineno", String (num_d0 l) (num_ds l)) :: caps) k c ->
  accepts
    (RSeq (RStar CSpace) (RSeq (RLit ">") (RSeq (RPlus CSpace)
       (RSeq (RGroup "source_lineno" (RPlus CDigit)) (RSeq (RLit ":")
          (RSeq (RClass CSpace)
             (RSeq (RGroup "source_line" (RStar CDot)) r)))))))
    (show_anchor l (String Py.nl t)) caps k c.
Proof.
  intros Hok Hr. apply numbered_ok_parts in Hok.
  destruct Hok as (Hws & Hd0 & Hds & Hbody).
  unfold show_anchor, number_and_text.
  apply acc_seq.
  apply (acc_star _ _ _ CSpace (Py.str1 Py.nl)); [reflexivity | reflexivity |].
  next_part. take_lit.
  apply acc_seq, acc_plus;
    [reflexivity | exact Hws | apply stops_space_digit; exact Hd0 |].
  next_part.
  apply acc_seq, acc_group_plus; [exact Hd0 | exact Hds | reflexivity |].
  next_part. take_lit. take_class.
  apply acc_seq, acc_group_star; [exact Hbody | reflexivity |].
  next_part. exact Hr.
Qed.

(** No language follows the opening fence. *)
Lemma language_skip (t : string) (k : cont) (caps c : captures) :
  kaccepts k (String Py.nl t) caps c ->
  accepts (ROpt (RGroup "language" (RPlus CWord))) (String Py.nl t) caps k c.
Proof.
  intros Hk. apply acc_opt_skip; [|exact Hk]. intros pos. reflexivity.
Qed.

(** The closing fence. *)
Lemma closing_fence (k : cont) (caps c : captures) :
  kaccepts k NL caps c ->
  accepts (RSeq (RStar CSpace) fence_re) (String Py.nl ("```" ++ NL)) caps k c.
Proof.
  intros Hk. apply acc_seq.
  apply (acc_star _ _ _ CSpace (Py.str1 Py.nl)); [reflexivity | reflexivity |].
  next_part. apply acc_alt_l. eapply acc_lit_eq; [reflexivity | exact Hk].
Qed.

(** The definition line and its ellipsis. *)
Lemma def_take (d : numbered) (t : string) (k : cont) (caps c : captures) :
  numbered_ok d = true ->
  kaccepts k t
    (("def_line", num_body d)
       :: ("def_lineno", String (num_d0 d) (num_ds d)) :: caps) c ->
  accepts def_group_re (show_ctx d (show_ellipsis t)) caps k c.
Proof.
  intros Hok Hk. apply numbered_ok_parts in Hok.
  destruct Hok as (Hws & Hd0 & Hds & Hbody).
  unfold def_group_re, show_ctx, show_ellipsis, number_and_text.
  cbn [rseq]. apply acc_opt_take, acc_seq, acc_opt_take, acc_seq.
  apply (acc_plus _ _ _ CSpace Py.nl (String " " (num_ws d)));
    [reflexivity | exact Hws | apply stops_space_digit; exact Hd0 |].
  next_part.
  apply acc_seq, acc_group_plus; [exact Hd0 | exact Hds | reflexivity |].
  next_part. take_lit. take_class.
  apply acc_group_star; [exact Hbody | reflexivity |].
  next_part. apply acc_seq.
  apply (acc_plus _ _ _ CSpace Py.nl "  "); [reflexivity.. |].
  next_part. apply acc_lit. exact Hk.
Qed.

Lemma lstrip_ws_app (u : string) (x : ascii) (t : string) :
  all_chars Py.isspace u = true -> Py.isspace x = false ->
  Py.lstrip (u ++ String x t) = String x t.
Proof.
  intros Hu Hx. induction u as [|a u IH]; simpl.
  - rewrite Hx. reflexivity.
  - simpl in Hu. apply andb_true_iff in Hu. destruct Hu as [Ha Hu].
    rewrite Ha. auto.
Qed.

Lemma all_class_chars (cc : cclass) (u : string) :
  all_class cc u -> all_chars (cmatch cc) u = true.
Proof.
  induction u as [|a u IH]; simpl; [reflexivity|].
  intros [Ha Hu]. rewrite Ha. auto.
Qed.

(** Whitespace and an ellipsis: the text starts with both. *)
Lemma ws_dots_needed (k : cont) (pos : nat) (w : string) (caps c : captures) :
  run (RSeq (RPlus CSpace) (RLit "...")) pos w caps k = Some c ->
  ws_dots w = true.
Proof.
  intros H. apply run_sound in H.
  destruct H as (p1 & s1 & c1 & H & _). cbn [matches] in H.
  destruct H as (p2 & s2 & c2 & (u & Hne & -> & Hu & _) & (-> & _)).
  destruct u as [|a u]; [congruence|].
  destruct Hu as [Ha Hu]. simpl in Ha.
  cbn [append ws_dots]. rewrite Ha.
  change ("..." ++ s1) with (String "." (".." ++ s1)).
  rewrite lstrip_ws_app; [reflexivity | | reflexivity].
  apply (all_class_chars CSpace). exact Hu.
Qed.

Lemma star_dead_until (cc : cclass) (caps : captures) (k : cont) (s : string) :
  stops cc s = true ->
  forall u,
    (forall v w, u = v ++ w -> krejects k (w ++ s) caps) ->
    forall pos, star cc pos (u ++ s) caps k = None.
Proof.
  intros Hs. induction u as [|a u IH]; intros H pos.
  - cbn [append]. rewrite star_stop by exact Hs. apply (H "" "" eq_refl).
  - cbn [append star].
    rewrite IH by (intros v w ->; apply (H (String a v) w); reflexivity).
    pose proof (H "" (String a u) eq_refl pos) as Hk.
    cbn [append] in Hk. rewrite Hk.
    destruct (cmatch cc a); reflexivity.
Qed.

Lemma has_dots_suffix (v w : string) :
  has_dots (v ++ w) = false -> has_dots w = false.
Proof.
  induction v as [|a v IH]; [auto|]. cbn [append has_dots].
  intros H. apply orb_false_iff in H. tauto.
Qed.

(** An ellipsis at the start of a text that ends with a newline and more
    is in the text before the newline. *)
Lemma has_prefix_dots_app (x t : string) :
  x <> "" -> has_prefix "..." (x ++ String Py.nl t) = true ->
  has_prefix "..." x = true.
Proof.
  intros Hne. destruct x as [|x1 [|x2 [|x3 x]]]; cbn; try congruence;
    rewrite ?andb_false_r; congruence.
Qed.

Lemma lstrip_dots_app (w t : string) :
  has_dots w = false ->
  has_prefix "..." (Py.lstrip (String Py.nl t)) = false ->
  has_prefix "..." (Py.lstrip (w ++ String Py.nl t)) = false.
Proof.
  intros Hw Ht. induction w as [|a w IH]; [exact Ht|].
  cbn [has_dots] in Hw. apply orb_false_iff in Hw. destruct Hw as [Hp Hw].
  cbn [append Py.lstrip]. destruct (Py.isspace a); [auto|].
  destruct (has_prefix "..." (String a (w ++ String Py.nl t))) eqn:E;
    [|reflexivity].
  apply (has_prefix_dots_app (String a w)) in E; congruence.
Qed.

Lemma ws_dots_app (w t : string) :
  has_dots w = false ->
  has_prefix "..." (Py.lstrip (String Py.nl t)) = false ->
  ws_dots (w ++ String Py.nl t) = false.
Proof.
  intros Hw Ht. destruct w as [|a w].
  - cbn [append ws_dots]. change (Py.isspace Py.nl) with true.
    cbn [andb]. exact Ht.
  - cbn [append ws_dots].
    cbn [has_dots] in Hw. apply orb_false_iff in Hw. destruct Hw as [_ Hw].
    rewrite (lstrip_dots_app w t Hw Ht). apply andb_false_r.
Qed.

Lemma krejects_ws_dots (k : cont) (s : string) (caps : captures) :
  ws_dots s = false ->
  krejects (andthen (RSeq (RPlus CSpace) (RLit "...")) k) s caps.
Proof.
  intros H pos. unfold andthen.
  destruct (run (RSeq (RPlus CSpace) (RLit "...")) pos s caps k) eqn:E;
    [|reflexivity].
  apply ws_dots_needed in E. congruence.
Qed.

Lemma rej_group_star_until (k : cont) (caps : captures) (name : string)
    (cc : cclass) (u s : string) :
  stops cc s = true ->
  (forall v w g, u = v ++ w -> krejects (with_group name g k) (w ++ s) caps) ->
  rejects (RGroup name (RStar cc)) (u ++ s) caps k.
Proof.
  intros Hs H pos. cbn [run]. apply star_dead_until; [exact Hs|].
  intros v w E pos'. apply (H v w _ E).
Qed.

Lemma digit_not_colon (a : ascii) :
  Py.isdigit a = true -> Ascii.eqb ":" a = false.
Proof.
  destruct a as [[] [] [] [] [] [] [] []]; try reflexivity; discriminate.
Qed.

Lemma digit_not_dot (a : ascii) :
  Py.isdigit a = true -> Ascii.eqb "." a = false.
Proof.
  destruct a as [[] [] [] [] [] [] [] []]; try reflexivity; discriminate.
Qed.

Lemma isdigit_not_space (a : ascii) :
  Py.isspace a = true -> Py.isdigit a = false.
Proof.
  destruct a as [[] [] [] [] [] [] [] []]; try reflexivity; discriminate.
Qed.

Lemma def_line_tail_space (k : cont) (pos : nat) (a : ascii) (t : string)
    (caps : captures) :
  Py.isspace a = true ->
  andthen def_line_tail k pos (String a t) caps = None.
Proof.
  intros Ha. unfold andthen, def_line_tail. cbn [run cmatch].
  rewrite (isdigit_not_space a Ha). reflexivity.
Qed.

(** A numbered line without three dots in a row, before a line that does
    not start with an ellipsis, is no definition line with its ellipsis. *)
Lemma def_line_tail_rejects (k : cont) (caps : captures) (d0 : ascii)
    (ds body t : string) :
  Py.isdigit d0 = true -> all_chars Py.isdigit ds = true ->
  has_dots body = false ->
  has_prefix "..." (Py.lstrip (String Py.nl t)) = false ->
  krejects
    (andthen def_line_tail (andthen (RSeq (RPlus CSpace) (RLit "...")) k))
    (String d0 (ds ++ ":" ++ String " " (body ++ String Py.nl t))) caps.
Proof.
  intros Hd0 Hds Hbody Ht. apply krejects_andthen. unfold def_line_tail.
  apply rej_seq.
  change (String d0 (ds ++ ":" ++ String " " (body ++ String Py.nl t)))
    with (String d0 ds ++ ":" ++ String " " (body ++ String Py.nl t)).
  apply rej_group_plus_exact.
  - cbn [all_chars cmatch]. rewrite Hd0. exact Hds.
  - reflexivity.
  - intros g pos' a u Ha. cbn [run lit andthen].
    rewrite (digit_not_colon a Ha). reflexivity.
  - intros g. apply krejects_with_group, krejects_andthen, rej_seq.
    apply rej_lit_take, krejects_andthen, rej_seq, rej_class_take.
    apply krejects_andthen, rej_group_star_until; [reflexivity|].
    intros v w g' E. apply krejects_with_group, krejects_ws_dots.
    apply ws_dots_app; [|exact Ht].
    apply (has_dots_suffix v). rewrite <- E. exact Hbody.
Qed.

(** No definition line: the block starts with a context line. *)
Lemma def_skip_ctx (l : numbered) (t : string) (k : cont)
    (caps c : captures) :
  numbered_ok l = true -> has_dots (num_body l) = false ->
  has_prefix "..." (Py.lstrip (String Py.nl t)) = false ->
  kaccepts k (show_ctx l (String Py.nl t)) caps c ->
  accepts def_group_re (show_ctx l (String Py.nl t)) caps k c.
Proof.
  intros Hok Hdots Ht Hk. apply numbered_ok_parts in Hok.
  destruct Hok as (Hws & Hd0 & Hds & _).
  unfold def_group_re. cbn [rseq]. apply acc_opt_skip; [|exact Hk].
  unfold show_ctx, number_and_text.
  apply rej_seq, rej_opt.
  - apply rej_seq.
    change (String Py.nl (String " " (num_ws l ++ String (num_d0 l)
              (num_ds l ++ ":" ++ String " " (num_body l ++ String Py.nl t)))))
      with (String Py.nl (String " " (num_ws l)) ++ String (num_d0 l)
              (num_ds l ++ ":" ++ String " " (num_body l ++ String Py.nl t))).
    apply rej_plus_exact.
    + cbn [all_chars cmatch]. exact Hws.
    + apply stops_space_digit. exact Hd0.
    + intros pos' a u Ha. apply def_line_tail_space. exact Ha.
    + apply def_line_tail_rejects; assumption.
  - apply krejects_ws_dots. cbn [ws_dots].
    change (String " " (num_ws l ++ String (num_d0 l)
              (num_ds l ++ ":" ++ String " " (num_body l ++ String Py.nl t))))
      with (String " " (num_ws l) ++ String (num_d0 l)
              (num_ds l ++ ":" ++ String " " (num_body l ++ String Py.nl t))).
    rewrite lstrip_ws_app;
      [| exact Hws | apply isspace_not_digit; exact Hd0].
    cbn [has_prefix]. rewrite (digit_not_dot _ Hd0). reflexivity.
Qed.

(** No definition line: the block starts with the marked line. *)
Lemma def_skip_anchor (t : string) (k : cont) (caps c : captures) :
  kaccepts k (String Py.nl (String ">" t)) caps c ->
  accepts def_group_re (String Py.nl (String ">" t)) caps k c.
Proof.
  intros Hk. unfold def_group_re. cbn [rseq]. apply acc_opt_skip; [|exact Hk].
  apply rej_seq, rej_opt.
  - apply rej_seq.
    change (String Py.nl (String ">" t)) with (NL ++ String ">" t).
    apply rej_plus_exact; [reflexivity | reflexivity | |].
    + intros pos' a u Ha. apply def_line_tail_space. exact Ha.
    + intros pos. reflexivity.
  - apply krejects_ws_dots. reflexivity.
Qed.

Lemma show_ctx_lines_nl (ls : list numbered) (t : string) :
  exists t', show_ctx_lines ls (String Py.nl t) = String Py.nl t'.
Proof. destruct ls; cbn [show_ctx_lines]; unfold show_ctx; eauto. Qed.

(** The line after a context line does not start with an ellipsis. *)
Lemma no_ellipsis_next (ls : list numbered) (a : numbered) (t : string) :
  Forall (fun l => numbered_ok l = true) ls ->
  has_prefix "..." (Py.lstrip (show_ctx_lines ls (show_anchor a t))) = false.
Proof.
  intros Hok. destruct ls as [|l ls]; cbn [show_ctx_lines]; [reflexivity|].
  inversion Hok as [|? ? Hl _]; subst. apply numbered_ok_parts in Hl.
  destruct Hl as (Hws & Hd0 & _).
  unfold show_ctx, number_and_text.
  change (String Py.nl (String " " (num_ws l ++ String (num_d0 l) ?x)))
    with (String Py.nl (String " " (num_ws l)) ++ String (num_d0 l) x).
  rewrite lstrip_ws_app; [| exact Hws | apply isspace_not_digit; exact Hd0].
  cbn [has_prefix]. rewrite (digit_not_dot _ Hd0). reflexivity.
Qed.

Lemma rmatch_accepts (r : re) (s : string) (c : captures) :
  accepts r s [] (fun _ _ caps => Some caps) c -> Re.rmatch r s = Some c.
Proof. intros H. apply H. Qed.

(** What the pattern takes after the opening fence and the language. *)
Lemma block_lines_parse (before : list numbered) (anchor : numbered)
    (after : list numbered) (caps : captures) :
  (length before <= 2)%nat -> (length after <= 2)%nat ->
  Forall (fun l => numbered_ok l = true) before ->
  numbered_ok anchor = true ->
  Forall (fun l => numbered_ok l = true) after ->
  accepts
    (rseq [ ctx_line_re; ctx_line_re;
            RStar CSpace; RLit ">"; RPlus CSpace;
            RGroup "source_lineno" (RPlus CDigit); RLit ":"; RClass CSpace;
            RGroup "source_line" (RStar CDot);
            ctx_line_re; ctx_line_re; RStar CSpace; fence_re ])
    (show_ctx_lines before
       (show_anchor anchor
          (show_ctx_lines after (String Py.nl ("```" ++ NL)))))
    caps (fun _ _ caps => Some caps)
    (("source_line", num_body anchor)
       :: ("source_lineno", String (num_d0 anchor) (num_ds anchor)) :: caps).
Proof.
  intros Hb Ha Hokb Hok Hoka. cbn [rseq].
  destruct (show_ctx_lines_nl after ("```" ++ NL)) as (ta & Ea).
  unfold show_anchor at 1.
  apply ctx_lines_take; [exact Hb | exact Hokb | reflexivity | reflexivity |].
  change (String Py.nl (String ">" (String " " (number_and_text anchor
            (show_ctx_lines after (String Py.nl ("```" ++ NL)))))))
    with (show_anchor anchor
            (show_ctx_lines after (String Py.nl ("```" ++ NL)))).
  rewrite Ea. apply anchor_take; [exact Hok|]. rewrite <- Ea.
  apply ctx_lines_take; [exact Ha | exact Hoka | reflexivity | reflexivity |].
  apply closing_fence. intros pos. reflexivity.
Qed.

(** The pattern of a context block reads a rendered block: the text of the
    marked line is the group [source_line]. *)
Lemma block_parse (def : option numbered) (before : list numbered)
    (anchor : numbered) (after : list numbered) :
  (length before <= 2)%nat -> (length after <= 2)%nat ->
  Forall (fun l => numbered_ok l = true) before ->
  numbered_ok anchor = true ->
  Forall (fun l => numbered_ok l = true) after ->
  match def with
  | Some d => numbered_ok d = true
  | None =>
      match before with
      | l :: _ => has_dots (num_body l) = false
      | [] => True
      end
  end ->
  Re.rmatch SOURCE_TEXT_RE (show_block def before anchor after)
  = Some (("source_line", num_body anchor)
            :: ("source_lineno", String (num_d0 anchor) (num_ds anchor))
            :: def_groups def).
Proof.
  intros Hb Ha Hokb Hok Hoka Hdef. apply rmatch_accepts.
  unfold SOURCE_TEXT_RE, show_block. cbn [rseq].
  apply acc_seq, acc_alt_l. eapply acc_lit_eq; [reflexivity|]. next_part.
  destruct def as [d|].
  - unfold show_ctx at 1. apply acc_seq, language_skip. next_part.
    apply acc_seq.
    change (String Py.nl (String " " (number_and_text d ?x)))
      with (show_ctx d x).
    apply def_take; [exact Hdef|]. next_part.
    apply (block_lines_parse before anchor after (def_groups (Some d)));
      assumption.
  - destruct before as [|l rest].
    + cbn [show_ctx_lines]. unfold show_anchor at 1.
      apply acc_seq, language_skip. next_part.
      apply acc_seq, def_skip_anchor. next_part.
      apply (block_lines_parse [] anchor after []); assumption.
    + cbn [show_ctx_lines].
      destruct (show_ctx_lines_nl rest
                  (String ">" (String " " (number_and_text anchor
                     (show_ctx_lines after (String Py.nl ("```" ++ NL)))))))
        as (t1 & E1).
      change (String Py.nl (String ">" (String " " (number_and_text anchor
                (show_ctx_lines after (String Py.nl ("```" ++ NL)))))))
        with (show_anchor anchor
                (show_ctx_lines after (String Py.nl ("```" ++ NL)))) in E1.
      assert (Hnext : has_prefix "..." (Py.lstrip (String Py.nl t1)) = false).
      { rewrite <- E1.
        apply (no_ellipsis_next rest anchor
                 (show_ctx_lines after (String Py.nl ("```" ++ NL)))).
        inversion Hokb; assumption. }
      assert (Hl : numbered_ok l = true) by (inversion Hokb; assumption).
      assert (Hrest :
        accepts
          (RSeq ctx_line_re (RSeq ctx_line_re (RSeq (RStar CSpace)
             (RSeq (RLit ">") (RSeq (RPlus CSpace)
                (RSeq (RGroup "source_lineno" (RPlus CDigit))
                   (RSeq (RLit ":") (RSeq (RClass CSpace)
                      (RSeq (RGroup "source_line" (RStar CDot))
                         (RSeq ctx_line_re (RSeq ctx_line_re
                            (RSeq (RStar CSpace) fence_re))))))))))))
          (show_ctx l (String Py.nl t1)) []
          (fun _ _ caps => Some caps)
          (("source_line", num_body anchor)
             :: ("source_lineno", String (num_d0 anchor) (num_ds anchor))
             :: [])).
      { rewrite <- E1.
        apply (block_lines_parse (l :: rest) anchor after []); assumption. }
      rewrite E1. unfold show_ctx at 1.
      apply acc_seq, language_skip. next_part.
      change (String Py.nl (String " " (number_and_text l (String Py.nl t1))))
        with (show_ctx l (String Py.nl t1)).
      apply acc_seq, def_skip_ctx; assumption.
Qed.

(** ** Lines, blanks and numbers *)

Lemma not_linebreak_newline (c : ascii) :
  not_linebreak c = true -> not_newline c = true.
Proof.
  unfold not_linebreak, not_newline. intros H.
  destruct (Ascii.eqb_spec c Py.nl) as [-> |]; [discriminate H | reflexivity].
Qed.

Lemma not_linebreak_cr (c : ascii) :
  not_linebreak c = true -> Ascii.eqb c Py.cr = false.
Proof.
  unfold not_linebreak. intros H.
  destruct (Ascii.eqb_spec c Py.cr) as [-> |]; [discriminate H | reflexivity].
Qed.

Lemma isspace_linebreak (c : ascii) :
  Py.islinebreak c = true -> Py.isspace c = true.
Proof.
  destruct c as [[] [] [] [] [] [] [] []]; vm_compute; intros H;
    try discriminate H; reflexivity.
Qed.

(** *** [for line in fobj] *)

Lemma readlines_aux_line (u rest cur : string) :
  single_line u = true ->
  Py.readlines_aux (u ++ String Py.nl rest) cur
  = (cur ++ u ++ NL) :: Py.readlines_aux rest "".
Proof.
  revert cur. induction u as [|a u IH]; intros cur Hu.
  - cbn [append Py.readlines_aux]. rewrite Ascii.eqb_refl. reflexivity.
  - cbn [single_line all_chars] in Hu. apply andb_true_iff in Hu.
    destruct Hu as [Ha Hu]. unfold not_newline in Ha.
    apply negb_true_iff in Ha.
    cbn [append Py.readlines_aux]. rewrite Ha, IH by exact Hu.
    unfold Py.str1. rewrite append_assoc. reflexivity.
Qed.

(** A line of a text file: some text without a newline, and a newline. *)
Lemma readlines_join0 (ls : list string) :
  Forall (fun l => exists u, l = u ++ NL /\ single_line u = true) ls ->
  Py.readlines (Py.join0 ls) = ls.
Proof.
  unfold Py.readlines. induction 1 as [|l ls (u & -> & Hu) _ IH];
    [reflexivity|].
  rewrite join0_cons. unfold NL, Py.str1. rewrite append_assoc.
  cbn [append]. rewrite (readlines_aux_line u _ "" Hu), IH. reflexivity.
Qed.

(** *** [str.splitlines()] *)

Lemma splitlines_aux_line (u rest cur : string) :
  all_chars not_linebreak u = true ->
  Py.splitlines_aux false (u ++ String Py.nl rest) cur
  = (cur ++ u) :: Py.splitlines_aux false rest "".
Proof.
  revert cur. induction u as [|a u IH]; intros cur Hu.
  - cbn [append Py.splitlines_aux].
    change (Py.islinebreak Py.nl) with true. cbn iota.
    rewrite !append_nil_r.
    destruct rest as [|c2 rest']; [reflexivity|].
    change (Ascii.eqb Py.nl Py.cr) with false. reflexivity.
  - cbn [all_chars] in Hu. apply andb_true_iff in Hu.
    destruct Hu as [Ha Hu]. unfold not_linebreak in Ha.
    apply negb_true_iff in Ha.
    cbn [append Py.splitlines_aux]. rewrite Ha, IH by exact Hu.
    unfold Py.str1. rewrite append_assoc. reflexivity.
Qed.

Lemma splitlines_bodies (bodies : list string) :
  Forall (fun b => all_chars not_linebreak b = true) bodies ->
  Py.splitlines false (Py.join0 (map (fun b => b ++ NL) bodies)) = bodies.
Proof.
  unfold Py.splitlines. induction 1 as [|b bodies Hb _ IH]; [reflexivity|].
  cbn [map]. rewrite join0_cons. unfold NL, Py.str1.
  rewrite append_assoc. cbn [append].
  rewrite (splitlines_aux_line b _ "" Hb). fold NL. unfold NL, Py.str1 in IH.
  rewrite IH. reflexivity.
Qed.

(** *** Blanks at the ends *)

Lemma rstrip_ws (w : string) :
  all_chars Py.isspace w = true -> Py.rstrip w = "".
Proof.
  induction w as [|a w IH]; [reflexivity|]. cbn [all_chars Py.rstrip].
  intros H. apply andb_true_iff in H. destruct H as [Ha Hw].
  rewrite (IH Hw), Ha. reflexivity.
Qed.

Lemma rstrip_app_ws (b w : string) :
  all_chars Py.isspace w = true -> Py.rstrip (b ++ w) = Py.rstrip b.
Proof.
  intros Hw. induction b as [|a b IH]; cbn [append Py.rstrip].
  - apply rstrip_ws. exact Hw.
  - rewrite IH. reflexivity.
Qed.

Lemma rstrip_nonspace (c : ascii) (t : string) :
  Py.isspace c = false -> Py.rstrip (String c t) = String c (Py.rstrip t).
Proof.
  intros Hc. cbn [Py.rstrip]. rewrite Hc.
  destruct (Py.rstrip t); reflexivity.
Qed.

Lemma rstrip_app_nonspace (u : string) (c : ascii) (t : string) :
  Py.isspace c = false ->
  Py.rstrip (u ++ String c t) = u ++ String c (Py.rstrip t).
Proof.
  intros Hc. induction u as [|a u IH]; cbn [append].
  - apply rstrip_nonspace. exact Hc.
  - cbn [Py.rstrip]. rewrite IH.
    destruct u; reflexivity.
Qed.

(** The first character that is not a blank starts the stripped text. *)
Lemma strip_starts (ws : string) (c : ascii) (t : string) :
  all_chars Py.isspace ws = true -> Py.isspace c = false ->
  Py.strip (ws ++ String c t) = String c (Py.rstrip t).
Proof.
  intros Hws Hc. unfold Py.strip.
  rewrite rstrip_app_nonspace by exact Hc.
  apply lstrip_ws_app; assumption.
Qed.

Lemma all_chars_spaces (n : nat) : all_chars Py.isspace (Py.spaces n) = true.
Proof. induction n as [|n IH]; [reflexivity|]. cbn. exact IH. Qed.

(** *** [str(n)] and [int(s)] *)

Lemma uint_digits (d : Decimal.uint) :
  all_chars Py.isdigit (NilEmpty.string_of_uint d) = true.
Proof.
  induction d; cbn [NilEmpty.string_of_uint all_chars];
    [reflexivity | rewrite IHd; reflexivity ..].
Qed.

Lemma str_positive (p : positive) :
  Py.str (Z.pos p) = NilEmpty.string_of_uint (Pos.to_uint p).
Proof.
  unfold Py.str. cbn [Z.to_int NilZero.string_of_int].
  unfold NilZero.string_of_uint.
  pose proof (DecimalPos.Unsigned.to_uint_nonnil p) as H.
  destruct (Pos.to_uint p); [congruence | reflexivity ..].
Qed.

(** The decimal digits of a positive number. *)
Lemma str_digits (n : Z) :
  0 < n ->
  exists d0 ds,
    Py.str n = String d0 ds
    /\ Py.isdigit d0 = true /\ all_chars Py.isdigit ds = true.
Proof.
  destruct n as [|p|p]; try lia. intros _. rewrite str_positive.
  pose proof (uint_digits (Pos.to_uint p)) as Hd.
  pose proof (DecimalPos.Unsigned.to_uint_nonnil p) as Hn.
  destruct (NilEmpty.string_of_uint (Pos.to_uint p)) as [|d0 ds] eqn:E.
  - exfalso. destruct (Pos.to_uint p); try discriminate E. congruence.
  - cbn [all_chars] in Hd. apply andb_true_iff in Hd.
    exists d0, ds. tauto.
Qed.

Lemma int_str (n : Z) : 0 < n -> Py.int (Py.str n) = Ok n.
Proof.
  destruct n as [|p|p]; try lia. intros _.
  unfold Py.int, Py.str. cbn [Z.to_int NilZero.string_of_int].
  rewrite NilZero.usu by apply DecimalPos.Unsigned.to_uint_nonnil.
  unfold Z.of_uint. rewrite DecimalPos.Unsigned.of_to. reflexivity.
Qed.

(** *** Reading back what was written *)

Lemma universal_newlines_id (s : string) :
  all_chars (fun c => negb (Ascii.eqb c Py.cr)) s = true ->
  universal_newlines s = s.
Proof.
  induction s as [|c s IH]; [reflexivity|]. cbn [all_chars].
  intros H. apply andb_true_iff in H. destruct H as [Hc Hs].
  apply negb_true_iff in Hc. cbn [universal_newlines].
  rewrite Hc, (IH Hs). reflexivity.
Qed.

(** ** The lines of a context block *)

Lemma join0_app (a b : list string) :
  Py.join0 (a ++ b) = Py.join0 a ++ Py.join0 b.
Proof.
  induction a as [|x a IH]; [reflexivity|].
  change ((x :: a) ++ b)%list with (x :: (a ++ b))%list.
  rewrite !join0_cons, IH, append_assoc. reflexivity.
Qed.

Lemma parse_ctx_loop_closed (fence : string) (close : Z * string)
    (rest : list (Z * string)) :
  Py.strip (snd close) = fence ->
  forall (pre : list (Z * string)) (acc : list string),
    Forall (fun l => Py.strip (snd l) <> fence) pre ->
    parse_ctx_loop fence (pre ++ close :: rest) acc
    = Ok (Py.join0 acc ++ Py.join0 (map snd pre) ++ snd close, rest).
Proof.
  intros Hclose. induction pre as [|[i l] pre IH]; intros acc Hpre.
  - destruct close as [j c]. cbn [app parse_ctx_loop map snd] in *.
    rewrite Hclose, String_eqb_refl, join0_app, (join0_cons c []).
    change (Py.join0 []) with "". rewrite append_nil_r. reflexivity.
  - apply Forall_cons_iff in Hpre. destruct Hpre as [Hl Hpre'].
    cbn [snd] in Hl.
    cbn [app parse_ctx_loop map snd].
    destruct (String.eqb (Py.strip l) fence) eqn:E;
      [apply String.eqb_eq in E; contradiction|].
    rewrite IH by exact Hpre'.
    rewrite join0_app, (join0_cons l (map snd pre)), (join0_cons l []).
    change (Py.join0 []) with "". rewrite append_nil_r, !append_assoc.
    reflexivity.
Qed.

Lemma parse_ctx_loop_open (fence : string) :
  forall (ls : list (Z * string)) (acc : list string),
    Forall (fun l => Py.strip (snd l) <> fence) ls ->
    parse_ctx_loop fence ls acc = Raise StopIteration.
Proof.
  induction ls as [|[i l] ls IH]; intros acc Hls; [reflexivity|].
  apply Forall_cons_iff in Hls. destruct Hls as [Hl Hls']. cbn [snd] in Hl.
  cbn [parse_ctx_loop].
  destruct (String.eqb (Py.strip l) fence) eqn:E;
    [apply String.eqb_eq in E; contradiction|].
  apply IH. exact Hls'.
Qed.


(** ** The anchor builder: the context and the definition line *)

Lemma find_def_line_spec (lines : list string) (lvl start : Z) (n : nat) :
  (n < length lines)%nat ->
  exists r, find_def_line lines lvl start n = Ok r
            /\ definition_line_of lines lvl start (Z.of_nat n) r.
Proof.
  induction n as [|n IH]; intros Hn.
  - exists (None, None). split; [reflexivity|]. intros j l' Hj. lia.
  - cbn [find_def_line].
    destruct (getitem_nth lines (Z.of_nat (S n))) as (l & Hl & Hg);
      [unfold len_list; lia|].
    rewrite Hg. cbn [bind].
    assert (Hnext :
      starts_definition lvl l = false ->
      exists r, find_def_line lines lvl start n = Ok r
                /\ definition_line_of lines lvl start (Z.of_nat (S n)) r).
    { intros Hno. destruct IH as (r & Hr & Hdef); [lia|].
      exists r. split; [exact Hr|].
      destruct r as [[i|] [l0|]]; cbn [definition_line_of] in *; try tauto.
      - destruct Hdef as (Hi & Hs & Hnth & Hsd & Hbetween).
        split; [lia|]. split; [lia|]. split; [exact Hnth|].
        split; [exact Hsd|].
        intros j l' Hj Hj'.
        destruct (Z.eq_dec j (Z.of_nat (S n))) as [-> | Hne].
        + congruence.
        + apply (Hbetween j l'); [lia | exact Hj'].
      - intros j l' Hj Hjs Hj' Hsd.
        destruct (Z.eq_dec j (Z.of_nat (S n))) as [-> | Hne].
        + congruence.
        + destruct (Hdef j l') as (j' & l'' & Hj1 & Hj2 & Hj3);
            try assumption; [lia|].
          exists j', l''. split; [lia|]. split; assumption. }
    unfold starts_definition in Hnext.
    destruct (negb (Py.isempty (Py.strip l)) && (indent_lvl l <? lvl)) eqn:E;
      [|apply Hnext; reflexivity].
    pose proof E as E'. apply andb_true_iff in E'. destruct E' as [E' _].
    apply negb_true_iff in E'.
    destruct (first_token_exists l E') as (tok & Htok).
    rewrite Htok in Hnext |- *. cbn [bind andb] in Hnext |- *.
    destruct (is_def_token tok) eqn:Etok; [|apply Hnext; reflexivity].
    assert (Hsd : starts_definition lvl l = true).
    { unfold starts_definition. rewrite E, Htok. exact Etok. }
    destruct ((0 <=? Z.of_nat (S n)) && (Z.of_nat (S n) <? start)) eqn:Eb.
    + cbn [bind]. eexists. split; [reflexivity|].
      apply andb_true_iff in Eb. destruct Eb as [_ Eb].
      apply Z.ltb_lt in Eb.
      cbn [definition_line_of].
      split; [lia|]. split; [lia|]. split; [exact Hl|]. split; [exact Hsd|].
      intros j l' Hj. lia.
    + eexists. split; [reflexivity|]. cbn [definition_line_of].
      assert (Hstart : start <= Z.of_nat (S n)).
      { destruct (Z.ltb_spec (Z.of_nat (S n)) start) as [Hlt | Hge];
          [|exact Hge].
        destruct (Z.leb_spec 0 (Z.of_nat (S n))); [discriminate | lia]. }
      intros j l' Hj Hjs _ _. exists (Z.of_nat (S n)), l.
      split; [lia|]. split; [exact Hl | exact Hsd].
Qed.

Lemma source_text_of_lines_in_range (lines : list string) (new old : Z)
    (st : SourceText) :
  1 <= new -> source_text_of_lines lines new old = Ok st ->
  new <= len_list lines.
Proof.
  intros Hn H. unfold source_text_of_lines in H.
  destruct (Py.getitem lines (new - 1)) as [l|e] eqn:G; [|discriminate].
  unfold Py.getitem in G. fold (len_list lines) in G.
  replace (new - 1 <? 0) with false in G by lia.
  destruct ((new - 1 <? 0) || (len_list lines <=? new - 1)) eqn:E;
    [discriminate | lia].
Qed.

Lemma source_text_of_lines_definition (lines : list string) (new old : Z)
    (st : SourceText) :
  1 <= new -> source_text_of_lines lines new old = Ok st ->
  definition_line_of lines (indent_lvl (source_line st)) (start_idx st)
    (new - 1) (def_line_idx st, def_line st).
Proof.
  intros Hn H.
  pose proof (source_text_of_lines_in_range lines new old st Hn H) as Hr.
  unfold source_text_of_lines in H.
  destruct (Py.getitem lines (new - 1)) as [l|e] eqn:G; [|discriminate].
  cbn [bind] in H.
  destruct (find_def_line_spec lines (indent_lvl l)
              (Z.max 0 (new - 1 - CONTEXT_LINES)) (Z.to_nat (new - 1)))
    as ([di dl] & Hfind & Hdef); [unfold len_list in Hr; lia|].
  rewrite Hfind in H. cbn [bind] in H. inversion H; subst st; clear H.
  cbn [source_line start_idx def_line_idx def_line].
  rewrite Z2Nat.id in Hdef by lia. exact Hdef.
Qed.

Lemma slice_in_range {A} (l : list A) (a b : Z) :
  0 <= a <= len_list l -> 0 <= b <= len_list l ->
  Py.slice l a b = firstn (Z.to_nat (b - a)) (skipn (Z.to_nat a) l).
Proof.
  unfold len_list. intros Ha Hb. unfold Py.slice, Py.clip_index.
  replace (a <? 0) with false by lia. replace (b <? 0) with false by lia.
  rewrite !Z.min_l by lia. reflexivity.
Qed.

Lemma source_text_of_lines_window (lines : list string) (new old : Z) :
  1 <= new <= len_list lines ->
  exists st,
    source_text_of_lines lines new old = Ok st
    /\ new_lineno st = new
    /\ old_lineno st = old
    /\ nth_error lines (Z.to_nat (new - 1)) = Some (source_line st)
    /\ start_idx st = Z.max 0 (new - 3)
    /\ end_idx st = Z.min (len_list lines) (new + 2)
    /\ text st
       = Py.join0 (firstn (Z.to_nat (end_idx st - start_idx st))
                     (skipn (Z.to_nat (start_idx st)) lines)).
Proof.
  intros Hn. unfold source_text_of_lines.
  destruct (getitem_nth lines (new - 1)) as (l & Hnth & Hg); [lia|].
  rewrite Hg. cbn [bind].
  destruct (find_def_line_ok lines (indent_lvl l)
              (Z.max 0 (new - 1 - CONTEXT_LINES)) (Z.to_nat (new - 1)))
    as ([di dl] & ->); [unfold len_list in Hn; lia|].
  cbn [bind]. eexists. split; [reflexivity|].
  cbn [new_lineno old_lineno source_line start_idx end_idx text].
  unfold CONTEXT_LINES.
  repeat split; try assumption; try (f_equal; lia).
  rewrite slice_in_range by lia. reflexivity.
Qed.


(** ** The lines of a rendered entry *)

(** Appended texts, with the parentheses to the right. *)
Ltac str_norm := repeat (progress (rewrite ?append_assoc; cbn [append])).

Lemma number_and_text_app (l : numbered) (a b : string) :
  number_and_text l a ++ b = number_and_text l (a ++ b).
Proof. unfold number_and_text. str_norm. reflexivity. Qed.

Lemma show_ctx_render (l : numbered) (next : string) :
  NL ++ render_ctx l ++ next = show_ctx l next.
Proof.
  unfold render_ctx, show_ctx, NL, Py.str1. cbn [append].
  rewrite number_and_text_app. reflexivity.
Qed.

Lemma show_anchor_render (l : numbered) (next : string) :
  NL ++ render_anchor l ++ next = show_anchor l next.
Proof.
  unfold render_anchor, show_anchor, NL, Py.str1. cbn [append].
  rewrite number_and_text_app. reflexivity.
Qed.

Lemma lines_text_app (a b : list string) (next : string) :
  lines_text (a ++ b) next = lines_text a (lines_text b next).
Proof. unfold lines_text. apply fold_right_app. Qed.

Lemma lines_text_ctx (ls : list numbered) (next : string) :
  lines_text (map render_ctx ls) next = show_ctx_lines ls next.
Proof.
  induction ls as [|l ls IH]; [reflexivity|].
  cbn [map lines_text fold_right show_ctx_lines].
  fold (lines_text (map render_ctx ls) next). rewrite IH.
  apply show_ctx_render.
Qed.

(** The text of a rendered block is the text that the pattern reads. *)
Lemma block_text_show (def : option numbered) (before : list numbered)
    (anchor : numbered) (after : list numbered) :
  "```" ++ lines_text (render_block def before anchor after)
             (String Py.nl ("```" ++ NL))
  = show_block def before anchor after.
Proof.
  unfold show_block, render_block. f_equal.
  rewrite lines_text_app, lines_text_app.
  cbn [lines_text fold_right].
  fold (lines_text (map render_ctx after) (String Py.nl ("```" ++ NL))).
  rewrite lines_text_ctx, show_anchor_render, lines_text_ctx.
  destruct def as [d|]; [|reflexivity].
  cbn [lines_text fold_right]. rewrite show_ctx_render. reflexivity.
Qed.

Lemma lines_text_join0 (ls : list string) (next : string) :
  NL ++ Py.join0 (map (fun l => l ++ NL) ls) ++ next
  = lines_text ls (NL ++ next).
Proof.
  induction ls as [|l ls IH]; cbn [map lines_text fold_right].
  - reflexivity.
  - fold (lines_text ls (NL ++ next)). rewrite <- IH.
    rewrite join0_cons, !append_assoc. reflexivity.
Qed.

Lemma block_text_lines (block : list string) :
  block_text block
  = "```" ++ lines_text block (String Py.nl ("```" ++ NL)).
Proof.
  unfold block_text.
  change (String Py.nl ("```" ++ NL)) with (NL ++ "```" ++ NL).
  rewrite <- lines_text_join0. reflexivity.
Qed.

(** [sep.join(ls)] and a last separator. *)
Lemma join_NL (ls : list string) :
  ls <> [] ->
  Py.join NL ls ++ NL = Py.join0 (map (fun l => l ++ NL) ls).
Proof.
  unfold Py.join. induction ls as [|l ls IH]; [congruence|]. intros _.
  destruct ls as [|l2 ls].
  - cbn [String.concat map]. rewrite (join0_cons (l ++ NL) []).
    change (Py.join0 []) with "". rewrite append_nil_r. reflexivity.
  - change (String.concat NL (l :: l2 :: ls))
      with (l ++ NL ++ String.concat NL (l2 :: ls)).
    cbn [map]. rewrite join0_cons, !append_assoc.
    rewrite IH by discriminate. reflexivity.
Qed.

(** ** The parser on the lines of a rendered entry *)

Lemma enumerate_from_app {A} (a b : list A) :
  forall i,
    enumerate_from i (a ++ b)
    = (enumerate_from i a
       ++ enumerate_from (i + Z.of_nat (length a)) b)%list.
Proof.
  induction a as [|x a IH]; intros i.
  - cbn [app enumerate_from length]. f_equal. lia.
  - cbn [app enumerate_from length]. rewrite IH. do 3 f_equal. lia.
Qed.

Lemma map_snd_enumerate {A} (l : list A) :
  forall i, map snd (enumerate_from i l) = l.
Proof.
  induction l as [|x l IH]; intros i; [reflexivity|].
  cbn [enumerate_from map snd]. rewrite IH. reflexivity.
Qed.

(** One step of the loop on a line that opens no block. *)
Lemma iter_loop_line (i : Z) (line : string) (rest : list (Z * string))
    (ev : EntryValues) :
  Py.startswith "```" line = false ->
  iter_loop ((i, line) :: rest) ev
  = match Re.rmatch ENTRY_HEADER_RE line with
    | Some entry_header =>
        let new_vals :=
          update_groups header_groups entry_header
            (ev_set "ignorefile_lineno" (Py.str (i + 1)) []) in
        if Dict.mem String.eqb "msg_id" ev
        then ev :: iter_loop rest new_vals
        else
          iter_loop rest
            (update_groups header_groups entry_header
               (ev_set "ignorefile_lineno" (Py.str (i + 1)) ev))
    | None =>
        match Re.rmatch LIST_ITEM_RE line with
        | Some list_item =>
            match Re.group "key" list_item, Re.group "value" list_item with
            | Some key, Some value => iter_loop rest (ev_set key value ev)
            | _, _ => iter_loop rest ev
            end
        | None => iter_loop rest ev
        end
    end.
Proof. intros H. cbn [iter_loop]. rewrite H. reflexivity. Qed.

Lemma iter_loop_inert (l : Z * string) (rest : list (Z * string))
    (ev : EntryValues) :
  inert l = true -> iter_loop (l :: rest) ev = iter_loop rest ev.
Proof.
  destruct l as [i line]. unfold inert. cbn [snd]. intros H.
  apply andb_true_iff in H. destruct H as [Hs H].
  apply negb_true_iff in Hs. rewrite iter_loop_line by exact Hs.
  destruct (Re.rmatch ENTRY_HEADER_RE line); [discriminate|].
  destruct (Re.rmatch LIST_ITEM_RE line); [discriminate | reflexivity].
Qed.

Lemma iter_loop_skip (pre rest : list (Z * string)) (ev : EntryValues) :
  forallb inert pre = true -> iter_loop (pre ++ rest) ev = iter_loop rest ev.
Proof.
  induction pre as [|l pre IH]; [reflexivity|]. cbn [forallb app].
  intros H. apply andb_true_iff in H. destruct H as [Hl Hpre].
  rewrite iter_loop_inert by exact Hl. apply IH. exact Hpre.
Qed.

(** A header line: the record in progress is yielded, and a new one
    starts. *)
Lemma iter_loop_header (i : Z) (p lineno : string) (w d : ascii)
    (ds sym : string) (rest : list (Z * string)) (ev : EntryValues) :
  single_line p = true ->
  all_chars Py.isdigit lineno = true -> lineno <> "" ->
  Py.isword w = true -> Py.isdigit d = true ->
  all_chars Py.isdigit ds = true -> no_space sym = true ->
  ev = [] \/ Dict.mem String.eqb "msg_id" ev = true ->
  iter_loop ((i, header_line p lineno w d ds sym) :: rest) ev
  = (last_entry ev
     ++ iter_loop rest
          [ ("ignorefile_lineno", Py.str (i + 1)); ("path", p);
            ("lineno", lineno); ("msg_id", String w (String d ds));
            ("symbol", sym) ])%list.
Proof.
  intros Hp Hl Hl0 Hw Hd Hds Hsym Hev.
  rewrite iter_loop_line by reflexivity.
  rewrite header_parse by assumption. cbv zeta.
  unfold last_entry. destruct Hev as [-> | Hev].
  - reflexivity.
  - rewrite Hev. reflexivity.
Qed.

Lemma iter_loop_item (i : Z) (key pad value : string)
    (rest : list (Z * string)) (ev : EntryValues) :
  item_label key pad -> single_line value = true ->
  iter_loop ((i, item_line (key ++ pad) value) :: rest) ev
  = iter_loop rest (ev_set key value ev).
Proof.
  intros Hk Hv. rewrite iter_loop_line by reflexivity.
  replace (Re.rmatch ENTRY_HEADER_RE (item_line (key ++ pad) value))
    with (@None captures) by reflexivity.
  rewrite item_parse by assumption.
  inversion Hk; reflexivity.
Qed.

(** A context block: the lines from the opening fence to the closing fence
    are the context of the record in progress. *)
Lemma iter_loop_block (i : Z) (block : list string)
    (rest : list (Z * string)) (ev : EntryValues) :
  Forall block_line_ok block ->
  forall j j',
    iter_loop ((i, fence_line)
                 :: enumerate_from j (map (fun l => l ++ NL) block)
                 ++ (j', fence_line) :: rest) ev
    = iter_loop rest (ev_set "ctx_src_text" (block_text block) ev).
Proof.
  intros Hblock j j'. rewrite iter_loop_fence by reflexivity.
  rewrite consume_from_spec.
  change (Py.slice_to 3 fence_line) with "```".
  rewrite (parse_ctx_loop_closed "```" (j', fence_line) rest eq_refl).
  - cbn [snd]. rewrite map_snd_enumerate.
    rewrite (join0_cons ("```" ++ NL) []).
    change (Py.join0 []) with "". rewrite append_nil_r.
    unfold block_text, fence_line. rewrite !append_assoc. reflexivity.
  - generalize j. clear - Hblock.
    induction Hblock as [|l block [_ Hl] _ IH];
      intros j; cbn [map enumerate_from]; constructor; [exact Hl | apply IH].
Qed.

(** The lines of a rendered entry: the record in progress is yielded, and
    the record of the entry is in progress after them. *)
Lemma chunk_parse (i : Z) (p lineno : string) (w d : ascii)
    (ds sym msg aut dat : string) (block : list string)
    (rest : list string) (ev : EntryValues) :
  single_line p = true ->
  all_chars Py.isdigit lineno = true -> lineno <> "" ->
  Py.isword w = true -> Py.isdigit d = true ->
  all_chars Py.isdigit ds = true -> no_space sym = true ->
  single_line msg = true -> single_line aut = true ->
  single_line dat = true ->
  Forall block_line_ok block ->
  ev = [] \/ Dict.mem String.eqb "msg_id" ev = true ->
  exists j,
    iter_loop
      (enumerate_from i
         (chunk_lines p lineno w d ds sym msg aut dat block ++ rest)) ev
    = (last_entry ev
       ++ iter_loop (enumerate_from j rest)
            (record_of (Py.str (i + 1)) p lineno (String w (String d ds))
               sym msg aut dat block))%list.
Proof.
  intros Hp Hl Hl0 Hw Hd Hds Hsym Hmsg Haut Hdat Hblock Hev.
  unfold chunk_lines. rewrite <- !app_assoc.
  cbn [app enumerate_from]. rewrite enumerate_from_app.
  cbn [app enumerate_from].
  eexists.
  rewrite iter_loop_header by assumption. f_equal.
  rewrite iter_loop_inert by reflexivity.
  change (item_line "message" msg) with (item_line ("message" ++ "") msg).
  rewrite (iter_loop_item _ "message" "" msg _ _ label_message Hmsg).
  change (item_line "author " aut) with (item_line ("author" ++ " ") aut).
  rewrite (iter_loop_item _ "author" " " aut _ _ label_author Haut).
  change (item_line "date   " dat) with (item_line ("date" ++ "   ") dat).
  rewrite (iter_loop_item _ "date" "   " dat _ _ label_date Hdat).
  rewrite iter_loop_inert by reflexivity.
  rewrite (iter_loop_block _ block _ _ Hblock).
  rewrite iter_loop_inert by reflexivity.
  rewrite iter_loop_inert by reflexivity.
  reflexivity.
Qed.

(** ** The context block of an anchor, line by line *)

Lemma plain_single_line (s : string) : plain s = true -> single_line s = true.
Proof. apply all_chars_impl, not_linebreak_newline. Qed.

Lemma plain_cr_free (s : string) : plain s = true -> cr_free s = true.
Proof.
  apply all_chars_impl. intros c H. rewrite (not_linebreak_cr c H).
  reflexivity.
Qed.

Lemma plain_app (a b : string) :
  plain (a ++ b) = plain a && plain b.
Proof. apply all_chars_app. Qed.

Lemma plain_digits (s : string) :
  all_chars Py.isdigit s = true -> plain s = true.
Proof.
  apply all_chars_impl. intros c.
  destruct c as [[] [] [] [] [] [] [] []]; try reflexivity; discriminate.
Qed.

Lemma plain_digit (c : ascii) :
  Py.isdigit c = true -> not_linebreak c = true.
Proof.
  destruct c as [[] [] [] [] [] [] [] []]; try reflexivity; discriminate.
Qed.

Lemma plain_word (c : ascii) : Py.isword c = true -> not_linebreak c = true.
Proof.
  destruct c as [[] [] [] [] [] [] [] []]; try reflexivity; discriminate.
Qed.

Lemma plain_no_space (s : string) : no_space s = true -> plain s = true.
Proof.
  apply all_chars_impl. intros c. unfold not_space.
  destruct c as [[] [] [] [] [] [] [] []]; try reflexivity; discriminate.
Qed.

Lemma plain_spaces (n : nat) : plain (Py.spaces n) = true.
Proof. induction n as [|n IH]; [reflexivity | exact IH]. Qed.

Lemma line_body_spec (l b : string) : line_body l = Some b -> l = b ++ NL.
Proof.
  revert b. induction l as [|c l IH]; intros b; [discriminate|].
  cbn [line_body]. destruct l as [|c2 l].
  - destruct (Ascii.eqb_spec c Py.nl) as [-> |]; [|discriminate].
    intros H. inversion H. reflexivity.
  - destruct (line_body (String c2 l)) as [b'|]; [|discriminate].
    intros H. inversion H. cbn [append]. rewrite <- (IH b' eq_refl).
    reflexivity.
Qed.

(** The lines of a context that are shown as they are, without their
    newlines. *)
Lemma window_bodies (ls : list string) :
  forallb window_line ls = true ->
  exists bodies,
    ls = map (fun b => b ++ NL) bodies
    /\ Forall (fun b => plain b = true /\ Py.isempty (Py.strip b) = false)
         bodies.
Proof.
  induction ls as [|l ls IH]; cbn [forallb]; intros H.
  - exists []. split; [reflexivity | constructor].
  - apply andb_true_iff in H. destruct H as [Hl Hls].
    destruct (IH Hls) as (bodies & -> & Hb). unfold window_line in Hl.
    destruct (line_body l) as [b|] eqn:E; [|discriminate].
    apply line_body_spec in E. subst l.
    apply andb_true_iff in Hl. destruct Hl as [Hp Hn].
    apply negb_true_iff in Hn.
    exists (b :: bodies). split; [reflexivity|]. constructor; auto.
Qed.

Lemma str_parts (k : Z) :
  0 < k ->
  Py.str k = String (str_d0 k) (str_ds k)
  /\ Py.isdigit (str_d0 k) = true /\ all_chars Py.isdigit (str_ds k) = true.
Proof.
  intros Hk. destruct (str_digits k Hk) as (d0 & ds & E & Hd0 & Hds).
  unfold str_d0, str_ds. rewrite E. auto.
Qed.

Lemma numbered_line_ok (lead : string) (pad k : Z) (body : string) :
  0 < k -> all_chars Py.isspace lead = true -> plain lead = true ->
  plain body = true ->
  wellnumbered (numbered_line lead pad k body).
Proof.
  intros Hk Hlead Hplain Hbody. destruct (str_parts k Hk) as (_ & Hd0 & Hds).
  unfold wellnumbered, numbered_ok, numbered_line.
  cbn [num_ws num_d0 num_ds num_body].
  rewrite all_chars_app, Hlead, all_chars_spaces, Hd0, Hds.
  rewrite (plain_single_line body Hbody), plain_app, Hplain, plain_spaces.
  auto.
Qed.

Lemma render_ctx_eq (pad k : Z) (body : string) :
  0 < k ->
  "  " ++ Py.rjust pad (Py.str k) ++ ":" ++ " " ++ body
  = render_ctx (numbered_line " " pad k body).
Proof.
  intros Hk. destruct (str_parts k Hk) as (E & _).
  unfold render_ctx, numbered_line, number_and_text, Py.rjust.
  cbn [num_ws num_d0 num_ds num_body]. rewrite E at 2.
  str_norm. rewrite append_nil_r. reflexivity.
Qed.

Lemma render_anchor_eq (pad k : Z) (body : string) :
  0 < k ->
  "> " ++ Py.rjust pad (Py.str k) ++ ":" ++ " " ++ body
  = render_anchor (numbered_line "" pad k body).
Proof.
  intros Hk. destruct (str_parts k Hk) as (E & _).
  unfold render_anchor, numbered_line, number_and_text, Py.rjust.
  cbn [num_ws num_d0 num_ds num_body]. rewrite E at 2.
  str_norm. rewrite append_nil_r. reflexivity.
Qed.

Section CtxLines.
Variable st : SourceText.
Variable lineno pad : Z.

Lemma ctx_src_lines_app (a b : list string) :
  forall off,
    ctx_src_lines st lineno pad off (a ++ b)
    = (ctx_src_lines st lineno pad off a
       ++ ctx_src_lines st lineno pad (off + Z.of_nat (length a)) b)%list.
Proof.
  induction a as [|x a IH]; intros off.
  - cbn [app ctx_src_lines length]. f_equal. lia.
  - cbn [app ctx_src_lines length]. rewrite IH. do 3 f_equal. lia.
Qed.

(** The lines of the context other than the marked line. *)
Lemma ctx_src_lines_ctx (bodies : list string) :
  forall off,
    0 < start_idx st + off + 1 ->
    lineno < start_idx st + off + 1
    \/ start_idx st + off + Z.of_nat (length bodies) < lineno ->
    Forall (fun b => plain b = true /\ Py.isempty (Py.strip b) = false)
      bodies ->
    ctx_src_lines st lineno pad off bodies
    = map render_ctx (number_from pad (start_idx st + off + 1) bodies).
Proof.
  induction bodies as [|b bodies IH]; intros off Hpos Hne Hb;
    [reflexivity|].
  inversion Hb as [|? ? [_ Hblank] Hb']; subst.
  cbn [ctx_src_lines number_from map length] in *.
  rewrite Hblank. cbn [negb].
  replace (lineno =? start_idx st + off + 1) with false by lia.
  rewrite <- render_ctx_eq by exact Hpos. f_equal.
  rewrite IH; [| lia | lia | exact Hb'].
  do 2 f_equal. lia.
Qed.

(** The marked line. *)
Lemma ctx_src_lines_anchor (b : string) (off : Z) :
  lineno = start_idx st + off + 1 -> 0 < lineno ->
  Py.isempty (Py.strip b) = false ->
  ctx_src_lines st lineno pad off [b]
  = [render_anchor (numbered_line "" pad lineno b)].
Proof.
  intros E Hpos Hblank. cbn [ctx_src_lines]. rewrite Hblank. cbn [negb].
  rewrite <- E, Z.eqb_refl, <- render_anchor_eq by exact Hpos. reflexivity.
Qed.

End CtxLines.

Lemma number_from_length (pad : Z) (bodies : list string) :
  forall k, length (number_from pad k bodies) = length bodies.
Proof.
  induction bodies as [|b bodies IH]; intros k; [reflexivity|].
  cbn [number_from length]. rewrite IH. reflexivity.
Qed.

Lemma number_from_ok (pad : Z) (bodies : list string) :
  forall k,
    0 < k ->
    Forall (fun b => plain b = true /\ Py.isempty (Py.strip b) = false)
      bodies ->
    Forall wellnumbered (number_from pad k bodies).
Proof.
  induction bodies as [|b bodies IH]; intros k Hk Hb; [constructor|].
  inversion Hb as [|? ? [Hp _] Hb']; subst. cbn [number_from].
  constructor; [|apply IH; [lia | exact Hb']].
  apply numbered_line_ok; auto.
Qed.

Lemma has_prefix_app_l (p a b : string) :
  has_prefix p a = true -> has_prefix p (a ++ b) = true.
Proof.
  revert a. induction p as [|c p IH]; intros a; [reflexivity|].
  destruct a as [|x a]; [discriminate|]. cbn [has_prefix append].
  intros H. apply andb_true_iff in H. destruct H as [-> H].
  apply IH. exact H.
Qed.

Lemma has_dots_app_l (a b : string) :
  has_dots (a ++ b) = false -> has_dots a = false.
Proof.
  induction a as [|x a IH]; [reflexivity|]. cbn [append has_dots].
  intros H. apply orb_false_iff in H. destruct H as [H1 H2].
  rewrite (IH H2), orb_false_r.
  destruct (has_prefix "..." (String x a)) eqn:E; [|reflexivity].
  apply (has_prefix_app_l "..." (String x a) b) in E.
  cbn [append] in E. congruence.
Qed.

(** The lines for the definition line. *)
Lemma def_src_lines_some (st : SourceText) (pad di : Z) (dl : string) :
  def_line st = Some dl -> def_line_idx st = Some di ->
  dl <> "" -> 1 <= di -> di + 1 + CONTEXT_LINES < new_lineno st ->
  def_src_lines st pad
  = [ render_ctx (numbered_line " " pad (di + 1) (Py.rstrip dl)); "  ..." ].
Proof.
  intros Hdl Hdi Hne Hpos Hfar. unfold def_src_lines.
  rewrite Hdl, Hdi. cbn [truthy_str truthy_int].
  replace (Py.isempty dl) with false
    by (destruct dl; [exfalso; apply Hne; reflexivity | reflexivity]).
  replace (di =? 0) with false by lia. cbn [negb andb].
  replace (di + 1 + CONTEXT_LINES <? new_lineno st) with true by lia.
  f_equal. apply (render_ctx_eq pad (di + 1) (Py.rstrip dl)). lia.
Qed.

Lemma def_src_lines_none (st : SourceText) (pad : Z) :
  def_line st = None -> def_src_lines st pad = [].
Proof. intros H. unfold def_src_lines. rewrite H. reflexivity. Qed.

Lemma starts_definition_nonempty (lvl : Z) (l : string) :
  starts_definition lvl l = true -> l <> "".
Proof. intros H ->. discriminate H. Qed.

(** The rendered context block of an anchor. *)
Lemma anchored_shape (lines : list string) (st : SourceText) :
  anchored lines st ->
  exists def before anchor after,
    block_src_lines st = render_block def before anchor after
    /\ (length before <= 2)%nat /\ (length after <= 2)%nat
    /\ Forall wellnumbered before /\ wellnumbered anchor
    /\ Forall wellnumbered after
    /\ match def with
       | Some d => wellnumbered d
       | None =>
           match before with
           | l :: _ => has_dots (num_body l) = false
           | [] => True
           end
       end
    /\ nth_error lines (Z.to_nat (new_lineno st - 1))
       = Some (num_body anchor ++ NL).
Proof.
  intros (Hn & Hst & Hwin & Hdef).
  pose proof (source_text_of_lines_in_range _ _ _ _ Hn Hst) as Hlen.
  pose proof (source_text_of_lines_definition _ _ _ _ Hn Hst) as Hdl.
  destruct (source_text_of_lines_window lines (new_lineno st) (old_lineno st))
    as (st' & Hst' & _ & _ & Hsrc & Hstart & Hend & Htext); [lia|].
  assert (st' = st) by congruence. subst st'.
  set (n := new_lineno st) in *. set (s := start_idx st) in *.
  set (e := end_idx st) in *.
  assert (Hs : 0 <= s <= n - 1) by lia.
  assert (He : n <= e <= len_list lines) by lia.
  assert (Hes : e - s <= 5) by lia.
  rewrite slice_in_range in Hwin by lia.
  destruct (window_bodies _ Hwin) as (bodies & HW & Hbodies).
  assert (Hlb : length bodies = Z.to_nat (e - s)).
  { rewrite <- (length_map (fun b => b ++ NL) bodies), <- HW.
    rewrite length_firstn, length_skipn. unfold len_list in He. lia. }
  assert (Hsplit : Py.splitlines false (text st) = bodies).
  { rewrite Htext, HW. apply splitlines_bodies.
    eapply Forall_impl; [|exact Hbodies]. intros b [Hb _]. exact Hb. }
  assert (Hat : forall i, (i < Z.to_nat (e - s))%nat ->
            nth_error lines (Z.to_nat s + i)
            = option_map (fun b => b ++ NL) (nth_error bodies i)).
  { intros i Hi. rewrite <- nth_error_map, <- HW.
    rewrite nth_error_firstn, nth_error_skipn.
    replace (i <? Z.to_nat (e - s))%nat with true; [reflexivity|].
    symmetry. apply Nat.ltb_lt. exact Hi. }
  assert (Hanchor : exists b,
             nth_error bodies (Z.to_nat (n - 1 - s)) = Some b
             /\ nth_error lines (Z.to_nat (n - 1)) = Some (b ++ NL)).
  { pose proof (Hat (Z.to_nat (n - 1 - s))) as H.
    replace (Z.to_nat s + Z.to_nat (n - 1 - s))%nat with (Z.to_nat (n - 1))
      in H by lia.
    destruct (nth_error bodies (Z.to_nat (n - 1 - s))) as [b|] eqn:E.
    - exists b. split; [reflexivity|]. apply H. lia.
    - apply nth_error_None in E. lia. }
  destruct Hanchor as (b & Hb & Hline).
  destruct (nth_error_split _ _ Hb) as (before & after & Hba & Hbl).
  revert Hsplit. subst bodies. intros Hsplit.
  rewrite length_app in Hlb. cbn [length] in Hlb.
  apply Forall_app in Hbodies. destruct Hbodies as [Hokb Hoka].
  inversion Hoka as [|? ? [Hpb Hnb] Hoka']; subst.
  set (pad := Py.len (Py.str (e + 1))).
  assert (Hctx :
    ctx_src_lines st n pad 0 (before ++ b :: after)
    = (map render_ctx (number_from pad (s + 1) before)
       ++ render_anchor (numbered_line "" pad n b)
       :: map render_ctx (number_from pad (n + 1) after))%list).
  { change (b :: after) with ([b] ++ after)%list.
    rewrite !ctx_src_lines_app.
    rewrite (ctx_src_lines_ctx st n pad before 0);
      [| lia | right; lia | exact Hokb].
    rewrite (ctx_src_lines_anchor st n pad b); [| lia | lia | exact Hnb].
    rewrite (ctx_src_lines_ctx st n pad after);
      [| cbn [length]; lia | left; cbn [length]; lia | exact Hoka'].
    cbn [app length]. do 4 f_equal; lia. }
  assert (Hblock :
    block_src_lines st
    = (def_src_lines st pad
       ++ map render_ctx (number_from pad (s + 1) before)
       ++ render_anchor (numbered_line "" pad n b)
       :: map render_ctx (number_from pad (n + 1) after))%list).
  { unfold block_src_lines. cbv zeta. fold e pad n. rewrite Hsplit, Hctx.
    reflexivity. }
  assert (Hwb : Forall wellnumbered (number_from pad (s + 1) before))
    by (apply number_from_ok; [lia | exact Hokb]).
  assert (Hwa : Forall wellnumbered (number_from pad (n + 1) after))
    by (apply number_from_ok; [lia | exact Hoka']).
  assert (Hwn : wellnumbered (numbered_line "" pad n b))
    by (apply numbered_line_ok; [lia | reflexivity | reflexivity | exact Hpb]).
  destruct (def_line_idx st) as [di|] eqn:Edi;
    destruct (def_line st) as [dl|] eqn:Edl;
    cbn [definition_line_of] in Hdl; try contradiction.
  - destruct Hdl as (Hdi & Hdis & _ & Hsd & _).
    exists (Some (numbered_line " " pad (di + 1) (Py.rstrip dl))),
      (number_from pad (s + 1) before), (numbered_line "" pad n b),
      (number_from pad (n + 1) after).
    rewrite !number_from_length.
    split; [|split; [lia | split; [lia | split; [exact Hwb |
      split; [exact Hwn | split; [exact Hwa | split; [|exact Hline]]]]]]].
    + rewrite Hblock.
      rewrite (def_src_lines_some st pad di dl Edl Edi);
        [reflexivity | | lia |].
      * eapply starts_definition_nonempty. exact Hsd.
      * unfold CONTEXT_LINES. fold n. lia.
    + apply numbered_line_ok; [lia | reflexivity | reflexivity | exact Hdef].
  - exists None, (number_from pad (s + 1) before), (numbered_line "" pad n b),
      (number_from pad (n + 1) after).
    rewrite !number_from_length.
    split; [|split; [lia | split; [lia | split; [exact Hwb |
      split; [exact Hwn | split; [exact Hwa | split; [|exact Hline]]]]]]].
    + rewrite Hblock, (def_src_lines_none st pad Edl). reflexivity.
    + destruct before as [|b0 before']; cbn [number_from]; [exact I|].
      cbn [num_body numbered_line]. cbn [length] in Hbl.
      apply (has_dots_app_l b0 NL). apply Hdef; [lia|].
      pose proof (Hat O) as H0. rewrite Nat.add_0_r in H0.
      rewrite H0 by lia. reflexivity.
Qed.

(** ** The lines of a rendered entry are read back one by one *)

Ltac plain_parts :=
  unfold plain;
  repeat (progress (rewrite ?all_chars_app; cbn [all_chars append andb])).

Lemma wellnumbered_parts (l : numbered) :
  wellnumbered l ->
  all_chars Py.isspace (num_ws l) = true /\ Py.isdigit (num_d0 l) = true
  /\ all_chars Py.isdigit (num_ds l) = true
  /\ plain (num_ws l) = true /\ plain (num_body l) = true.
Proof.
  intros (Hok & Hws & Hbody). apply numbered_ok_parts in Hok. tauto.
Qed.

Lemma number_and_text_plain (l : numbered) :
  wellnumbered l -> plain (number_and_text l "") = true.
Proof.
  intros H. apply wellnumbered_parts in H.
  destruct H as (_ & Hd0 & Hds & Hws & Hbody).
  apply plain_digit in Hd0. apply plain_digits in Hds.
  unfold number_and_text. unfold plain in *. plain_parts.
  rewrite Hws, Hd0, Hds, Hbody. reflexivity.
Qed.

Lemma not_fence (c : ascii) (t : string) :
  Ascii.eqb c "`" = false -> String c t <> "```".
Proof. intros H E. inversion E; subst. discriminate H. Qed.

Lemma strip_nonspace (c : ascii) (t : string) :
  Py.isspace c = false -> Py.strip (String c t) = String c (Py.rstrip t).
Proof. intros H. exact (strip_starts "" c t eq_refl H). Qed.

Lemma render_ctx_ok (l : numbered) :
  wellnumbered l -> block_line_ok (render_ctx l).
Proof.
  intros H. split.
  - unfold render_ctx. pose proof (number_and_text_plain l H) as Hp.
    unfold plain in *. cbn [all_chars]. rewrite Hp. reflexivity.
  - apply wellnumbered_parts in H. destruct H as (Hws & Hd0 & _).
    unfold render_ctx. cbn [append]. rewrite number_and_text_app.
    unfold number_and_text.
    change (String " " (num_ws l ++ String (num_d0 l) ?x))
      with (String " " (num_ws l) ++ String (num_d0 l) x).
    rewrite strip_starts;
      [| cbn [all_chars]; exact Hws | apply isspace_not_digit; exact Hd0].
    apply not_fence.
    destruct (num_d0 l) as [[] [] [] [] [] [] [] []];
      try reflexivity; discriminate.
Qed.

Lemma render_anchor_ok (l : numbered) :
  wellnumbered l -> block_line_ok (render_anchor l).
Proof.
  intros H. split.
  - unfold render_anchor. pose proof (number_and_text_plain l H) as Hp.
    unfold plain in *. cbn [all_chars append]. rewrite Hp. reflexivity.
  - unfold render_anchor. cbn [append].
    rewrite strip_nonspace by reflexivity.
    apply not_fence. reflexivity.
Qed.

Lemma ellipsis_ok : block_line_ok "  ...".
Proof. split; [reflexivity | vm_compute; discriminate]. Qed.

Lemma render_block_ok (def : option numbered) (before : list numbered)
    (anchor : numbered) (after : list numbered) :
  match def with Some d => wellnumbered d | None => True end ->
  Forall wellnumbered before -> wellnumbered anchor ->
  Forall wellnumbered after ->
  Forall block_line_ok (render_block def before anchor after).
Proof.
  intros Hd Hb Ha Haf. unfold render_block.
  assert (Hmap : forall ls, Forall wellnumbered ls ->
                   Forall block_line_ok (map render_ctx ls)).
  { intros ls H. apply Forall_map. eapply Forall_impl; [|exact H].
    intros l. apply render_ctx_ok. }
  apply Forall_app. split.
  - destruct def as [d|]; [|constructor].
    constructor; [apply render_ctx_ok; exact Hd|].
    constructor; [apply ellipsis_ok | constructor].
  - apply Forall_app. split; [apply Hmap; exact Hb|].
    constructor; [apply render_anchor_ok; exact Ha | apply Hmap; exact Haf].
Qed.

Lemma render_block_nonempty (def : option numbered) (before : list numbered)
    (anchor : numbered) (after : list numbered) :
  render_block def before anchor after <> [].
Proof.
  unfold render_block. intros H. apply app_eq_nil in H. destruct H as [_ H].
  apply app_eq_nil in H. destruct H as [_ H]. discriminate.
Qed.

Lemma readlines_lines (ls : list string) (rest : string) :
  Forall text_line ls ->
  Py.readlines (Py.join0 ls ++ rest) = (ls ++ Py.readlines rest)%list.
Proof.
  unfold Py.readlines. induction 1 as [|l ls (u & -> & Hu) _ IH];
    [reflexivity|].
  rewrite join0_cons. unfold NL, Py.str1. rewrite !append_assoc.
  cbn [append app].
  rewrite (readlines_aux_line u _ "" (plain_single_line u Hu)).
  rewrite <- IH. reflexivity.
Qed.

Lemma cr_free_lines (ls : list string) :
  Forall text_line ls -> cr_free (Py.join0 ls) = true.
Proof.
  induction 1 as [|l ls (u & -> & Hu) _ IH]; [reflexivity|].
  rewrite join0_cons. unfold cr_free in *. rewrite !all_chars_app.
  rewrite IH. apply plain_cr_free in Hu. unfold cr_free in Hu. rewrite Hu.
  reflexivity.
Qed.

Lemma text_line_plain (u : string) : plain u = true -> text_line (u ++ NL).
Proof. intros H. exists u. auto. Qed.

Lemma text_lines_check (ls : list string) :
  forallb (fun l => match line_body l with
                    | Some b => plain b
                    | None => false
                    end) ls = true ->
  Forall text_line ls.
Proof.
  induction ls as [|l ls IH]; cbn [forallb]; intros H; [constructor|].
  apply andb_true_iff in H. destruct H as [Hl Hls].
  constructor; [|apply IH; exact Hls].
  destruct (line_body l) as [b|] eqn:E; [|discriminate].
  apply line_body_spec in E. exists b. auto.
Qed.

Lemma lstrip_char_hash (t : string) :
  Py.lstrip_char Py.nl (NL ++ String "#" t) = String "#" t.
Proof. reflexivity. Qed.

Lemma join_NL_next (ls : list string) (rest : string) :
  ls <> [] ->
  Py.join NL ls ++ NL ++ rest
  = Py.join0 (map (fun l => l ++ NL) ls) ++ rest.
Proof.
  intros H. rewrite <- (join_NL ls H), append_assoc. reflexivity.
Qed.

(** The text of an entry with an anchor is the text of its lines. *)
Lemma dumps_entry_chunk (e : Entry) (st : SourceText) (w d : ascii)
    (ds : string) :
  srctxt e = Some st -> msg_id e = String w (String d ds) ->
  block_src_lines st <> [] ->
  _dumps_entry e
  = Py.join0
      (chunk_lines (path e) (Py.str (new_lineno st)) w d ds (symbol e)
         (msg_text e) (author e) (date e) (block_src_lines st)).
Proof.
  intros Hst Hid Hne. unfold _dumps_entry. rewrite Hst.
  change (def_src_lines st ?a ++ ctx_src_lines st ?b ?c 0 ?x)%list
    with (block_src_lines st).
  cbv beta iota zeta. unfold ENTRY_TEMPLATE.
  change ("## File " ++ ?x) with (String "#" ("# File " ++ x)).
  rewrite lstrip_char_hash, Hid.
  unfold chunk_lines. rewrite join0_app.
  rewrite !join0_cons. rewrite join0_app, !join0_cons.
  change (Py.join0 []) with "". rewrite append_nil_r.
  rewrite <- (join_NL (block_src_lines st) Hne).
  unfold header_line, header_tail, item_line, fence_line, NL, Py.str1.
  str_norm. reflexivity.
Qed.

Lemma chunk_lines_text (p lineno : string) (w d : ascii)
    (ds sym msg aut dat : string) (block : list string) :
  plain p = true -> all_chars Py.isdigit lineno = true ->
  Py.isword w = true -> Py.isdigit d = true ->
  all_chars Py.isdigit ds = true -> no_space sym = true ->
  plain msg = true -> plain aut = true -> plain dat = true ->
  Forall block_line_ok block ->
  Forall text_line (chunk_lines p lineno w d ds sym msg aut dat block).
Proof.
  intros Hp Hl Hw Hd Hds Hsym Hmsg Haut Hdat Hblock.
  apply plain_digits in Hl, Hds. apply plain_word in Hw.
  apply plain_digit in Hd. apply plain_no_space in Hsym.
  unfold plain in *.
  assert (Hitem : forall label v,
             plain label = true -> plain v = true ->
             text_line (item_line label v)).
  { intros label v Hlabel Hv.
    exists ("-" ++ String " " ("`" ++ label ++ ":" ++ String " "
              (v ++ "`"))).
    split.
    - unfold item_line, NL, Py.str1. str_norm. reflexivity.
    - unfold plain in *. plain_parts. rewrite Hlabel, Hv. reflexivity. }
  unfold chunk_lines. apply Forall_app. split.
  - repeat constructor.
    + exists ("##" ++ String " " ("File" ++ String " " (p ++ String " " ("-"
                ++ String " " ("Line" ++ String " " (lineno ++ String " " ("-"
                ++ String " " (String w (String d (ds ++ String " " ("("
                ++ sym ++ ")"))))))))))).
      split.
      * unfold header_line, header_tail, NL, Py.str1. str_norm. reflexivity.
      * plain_parts. rewrite Hp, Hl, Hw, Hd, Hds, Hsym. reflexivity.
    + exists "". split; reflexivity.
    + apply Hitem; [reflexivity | exact Hmsg].
    + apply Hitem; [reflexivity | exact Haut].
    + apply Hitem; [reflexivity | exact Hdat].
    + exists "". split; reflexivity.
    + exists "```". split; reflexivity.
  - apply Forall_app. split.
    + apply Forall_map. eapply Forall_impl; [|exact Hblock].
      intros l [Hpl _]. apply text_line_plain. exact Hpl.
    + repeat constructor.
      * exists "```". split; reflexivity.
      * exists "". split; reflexivity.
      * exists "". split; reflexivity.
Qed.

(** ** The record of a rendered entry is normalized to the entry *)

Lemma source_text_of_lines_old (lines : list string) (n old old' : Z)
    (st : SourceText) :
  source_text_of_lines lines n old = Ok st ->
  n = new_lineno st
  /\ source_text_of_lines lines n old'
     = Ok (mkSourceText n old' (source_line st) (text st) (start_idx st)
             (end_idx st) (def_line_idx st) (def_line st)).
Proof.
  unfold source_text_of_lines.
  destruct (Py.getitem lines (n - 1)) as [l|]; [|discriminate].
  cbn [bind].
  destruct (find_def_line lines (indent_lvl l)
              (Z.max 0 (n - 1 - CONTEXT_LINES)) (Z.to_nat (n - 1)))
    as [[di dl]|]; [|discriminate].
  cbn [bind]. intros H. inversion H. split; reflexivity.
Qed.

(** A line that is where the catalog says is found there. *)
Lemma find_same_line (lines : list string) (body : string) (n : Z) :
  1 <= n ->
  nth_error lines (Z.to_nat (n - 1)) = Some (body ++ NL) ->
  find_in_lines lines body n = Ok n.
Proof.
  intros Hn Hline. apply (find_in_lines_at lines body n 0 n); [lia | |].
  - intros m Hm. cbn [Z.of_nat] in Hm. lia.
  - cbn [Z.of_nat]. rewrite Z.sub_0_r, Z.add_0_r.
    unfold Py.set2. rewrite Z.eqb_refl. cbn [first_matching].
    assert (H : is_matching_line lines body (n - 1) = true).
    { apply is_matching_line_spec. split; [lia|].
      exists (body ++ NL). replace (n - 1 + 1 - 1) with (n - 1) by lia.
      split; [exact Hline | apply rstrip_app_ws; reflexivity]. }
    rewrite H. f_equal. lia.
Qed.

Lemma record_fields (ln p lineno msgid sym msg aut dat : string)
    (block : list string) :
  let r := record_of ln p lineno msgid sym msg aut dat block in
  ev_getitem r "ctx_src_text" = Ok (block_text block)
  /\ ev_getitem r "path" = Ok p
  /\ ev_getitem r "lineno" = Ok lineno
  /\ ev_getitem r "msg_id" = Ok msgid
  /\ ev_getitem r "symbol" = Ok sym
  /\ ev_getitem r "message" = Ok msg
  /\ ev_getitem r "author" = Ok aut
  /\ ev_getitem r "date" = Ok dat.
Proof. repeat split; reflexivity. Qed.

Lemma wellnumbered_ok (ls : list numbered) :
  Forall wellnumbered ls -> Forall (fun l => numbered_ok l = true) ls.
Proof. apply Forall_impl. intros l [H _]. exact H. Qed.

(** The normalizer finds the anchor of a rendered entry where the catalog
    says, and returns the entry, with that line as the old line of the
    anchor. *)
Lemma init_record (fs : FileSystem) (ln : string) (e : Entry)
    (st : SourceText) (lines : list string) :
  srctxt e = Some st ->
  source_lines fs (path e) = Ok lines ->
  anchored lines st ->
  _init_entry_item fs (record_for ln e)
  = Ok (relocated (key_of e (source_line st), e)).
Proof.
  intros Hst Hlines Ha.
  destruct (anchored_shape lines st Ha)
    as (def & before & anchor & after & Hblock & Hlb & Hla & Hwb & Hwn & Hwa
        & Hdef & Hline).
  destruct Ha as (Hn & Hsrc & _ & _).
  unfold record_for. rewrite Hst.
  destruct (record_fields ln (path e) (Py.str (new_lineno st)) (msg_id e)
              (symbol e) (msg_text e) (author e) (date e)
              (block_src_lines st))
    as (F0 & F1 & F2 & F3 & F4 & F5 & F6 & F7).
  unfold _init_entry_item.
  rewrite F0, F1, F2, F3, F4, F5, F6, F7. cbn [bind].
  rewrite Hblock, block_text_lines, block_text_show.
  rewrite block_parse;
    [| exact Hlb | exact Hla | apply wellnumbered_ok; exact Hwb
     | apply Hwn | apply wellnumbered_ok; exact Hwa |].
  - change (group_str "source_line" _) with (Ok (num_body anchor)).
    cbn [bind]. rewrite int_str by lia. cbn [bind].
    unfold resolve_anchor, find_source_text_lineno, read_source_text.
    rewrite Hlines. cbn [bind].
    rewrite (find_same_line lines (num_body anchor) (new_lineno st) Hn Hline).
    cbn [bind].
    destruct (source_text_of_lines_old lines (new_lineno st) (old_lineno st)
                (new_lineno st) st Hsrc) as [_ Hnew].
    rewrite Hnew. cbn [bind].
    unfold relocated, key_of, relocated_anchor.
    cbn [fst snd source_line msg_id path symbol msg_text]. rewrite Hst.
    reflexivity.
  - destruct def as [d|]; [apply Hdef | exact Hdef].
Qed.

(** ** The records of a catalog that [dumps] wrote *)

Lemma is_msg_id_parts (s : string) :
  is_msg_id s = true ->
  exists w d ds,
    s = String w (String d ds)
    /\ Py.isword w = true /\ Py.isdigit d = true
    /\ all_chars Py.isdigit ds = true.
Proof.
  destruct s as [|w [|d ds]]; try discriminate. cbn [is_msg_id].
  rewrite !andb_true_iff. intros [[Hw Hd] Hds]. exists w, d, ds. auto.
Qed.

(** The lines of an entry that is read back. *)
Lemma renderable_chunk (fs : FileSystem) (e : Entry) :
  renderable fs e ->
  exists st w d ds,
    srctxt e = Some st
    /\ msg_id e = String w (String d ds)
    /\ _dumps_entry e
       = Py.join0
           (chunk_lines (path e) (Py.str (new_lineno st)) w d ds (symbol e)
              (msg_text e) (author e) (date e) (block_src_lines st))
    /\ Forall text_line
         (chunk_lines (path e) (Py.str (new_lineno st)) w d ds (symbol e)
            (msg_text e) (author e) (date e) (block_src_lines st))
    /\ forall i rest ev,
         ev = [] \/ Dict.mem String.eqb "msg_id" ev = true ->
         exists j,
           iter_loop
             (enumerate_from i
                (chunk_lines (path e) (Py.str (new_lineno st)) w d ds
                   (symbol e) (msg_text e) (author e) (date e)
                   (block_src_lines st) ++ rest)) ev
           = (last_entry ev
              ++ iter_loop (enumerate_from j rest)
                   (record_for (Py.str (i + 1)) e))%list.
Proof.
  intros (st & lines & Hst & Hf & Hlines & Ha).
  destruct Hf as (Hp & Hid & Hsym & Hmsg & Haut & Hdat).
  destruct (is_msg_id_parts _ Hid) as (w & d & ds & Eid & Hw & Hd & Hds).
  destruct (anchored_shape lines st Ha)
    as (def & before & anchor & after & Hblock & _ & _ & Hwb & Hwn & Hwa
        & Hdef & _).
  assert (Hok : Forall block_line_ok (block_src_lines st)).
  { rewrite Hblock. apply render_block_ok; try assumption.
    destruct def; [exact Hdef | exact I]. }
  assert (Hne : block_src_lines st <> [])
    by (rewrite Hblock; apply render_block_nonempty).
  destruct Ha as (Hn & _).
  destruct (str_parts (new_lineno st)) as (Estr & Hd0 & Hdss); [lia|].
  assert (Hdigits : all_chars Py.isdigit (Py.str (new_lineno st)) = true)
    by (rewrite Estr; cbn [all_chars]; rewrite Hd0; exact Hdss).
  exists st, w, d, ds.
  split; [exact Hst|]. split; [exact Eid|].
  split; [apply dumps_entry_chunk; assumption|].
  split; [apply chunk_lines_text; assumption|].
  intros i rest ev Hev. unfold record_for. rewrite Hst, Eid.
  apply chunk_parse; try assumption; try (apply plain_single_line; assumption).
  rewrite Estr. discriminate.
Qed.

(** The parser on the text of entries: the record in progress, then the
    records of the entries. *)
Lemma entries_parse (fs : FileSystem) (entries : list Entry) :
  Forall (renderable fs) entries ->
  forall i ev,
    ev = [] \/ Dict.mem String.eqb "msg_id" ev = true ->
    exists recs,
      Forall2 (fun r e => exists ln, r = record_for ln e) recs entries
      /\ iter_loop
           (enumerate_from i
              (Py.readlines (Py.join0 (map _dumps_entry entries)))) ev
         = (last_entry ev ++ recs)%list.
Proof.
  induction 1 as [|e entries He _ IH]; intros i ev Hev.
  - exists []. split; [constructor|]. cbn [map]. rewrite app_nil_r.
    reflexivity.
  - destruct (renderable_chunk fs e He)
      as (st & w & d & ds & Hst & Eid & Htext & Hlines & Hparse).
    cbn [map]. rewrite join0_cons, Htext, (readlines_lines _ _ Hlines).
    destruct (Hparse i (Py.readlines (Py.join0 (map _dumps_entry entries)))
                ev Hev) as (j & ->).
    destruct (IH j (record_for (Py.str (i + 1)) e)) as (recs & Hrecs & ->).
    { right. unfold record_for. rewrite Hst. reflexivity. }
    exists (record_for (Py.str (i + 1)) e :: recs). split.
    + constructor; [eauto | exact Hrecs].
    + f_equal. unfold last_entry, record_for. rewrite Hst. reflexivity.
Qed.

Lemma header_text_lines :
  IGNOREFILE_HEADER = Py.join0 (Py.readlines IGNOREFILE_HEADER)
  /\ Forall text_line (Py.readlines IGNOREFILE_HEADER)
  /\ forallb inert (enumerate_from 0 (Py.readlines IGNOREFILE_HEADER)) = true.
Proof.
  split; [vm_compute; reflexivity|]. split.
  - apply text_lines_check. vm_compute. reflexivity.
  - vm_compute. reflexivity.
Qed.

(** The records of the text of [dumps]. *)
Lemma records_of_dumps (fs : FileSystem) (ignorefile : Catalog) :
  Forall (renderable fs) (dumps_entries ignorefile) ->
  exists recs,
    Forall2 (fun r e => exists ln, r = record_for ln e) recs
      (dumps_entries ignorefile)
    /\ records_of_text (dumps ignorefile) = recs.
Proof.
  intros H. destruct header_text_lines as (Hh & Hlines & Hinert).
  unfold records_of_text, dumps. cbv zeta. rewrite join0_cons.
  pose proof (readlines_lines _
                (Py.join0 (map _dumps_entry (dumps_entries ignorefile)))
                Hlines) as HR.
  rewrite <- Hh in HR. rewrite HR.
  rewrite enumerate_from_app, (iter_loop_skip _ _ _ Hinert).
  destruct (entries_parse fs _ H
              (0 + Z.of_nat (length (Py.readlines IGNOREFILE_HEADER))) [])
    as (recs & Hrecs & ->); [left; reflexivity|].
  exists recs. split; [exact Hrecs | reflexivity].
Qed.

(** The text of [dumps] has no carriage return. *)
Lemma dumps_cr_free (fs : FileSystem) (ignorefile : Catalog) :
  Forall (renderable fs) (dumps_entries ignorefile) ->
  cr_free (dumps ignorefile) = true.
Proof.
  intros H. unfold dumps. cbv zeta. rewrite join0_cons.
  unfold cr_free. rewrite all_chars_app.
  replace (all_chars (fun c => negb (Ascii.eqb c Py.cr)) IGNOREFILE_HEADER)
    with true by (vm_compute; reflexivity).
  cbn [andb]. induction H as [|e entries He _ IH]; [reflexivity|].
  cbn [map]. rewrite join0_cons, all_chars_app, IH, andb_true_r.
  destruct (renderable_chunk fs e He)
    as (st & w & d & ds & _ & _ & -> & Hlines & _).
  apply (cr_free_lines _ Hlines).
Qed.

(** ** The files after [dump] *)

Lemma tmp_path_neq (p : string) : String.eqb (p ++ ".tmp") p = false.
Proof.
  destruct (String.eqb_spec (p ++ ".tmp") p) as [E|]; [|reflexivity].
  apply (f_equal String.length) in E. rewrite length_append in E.
  simpl in E. lia.
Qed.

Lemma dump_target (fs : FileSystem) (c : Catalog) (p : string) :
  dump fs c p p = Some (Text (universal_newlines (dumps c))).
Proof. unfold dump, write_text. rewrite String.eqb_refl. reflexivity. Qed.

Lemma dump_other (fs : FileSystem) (c : Catalog) (p q : string) :
  q <> p -> q <> p ++ ".tmp" -> dump fs c p q = fs q.
Proof.
  intros H1 H2. unfold dump, write_text, remove.
  apply String.eqb_neq in H1, H2. rewrite H1, H2. reflexivity.
Qed.


(** ** A catalog that is written and read back *)

Lemma load_loop_items (fs : FileSystem) :
  forall records items catalog log,
    Forall2 (fun v ke => _init_entry_item fs v = Ok ke) records items ->
    load_loop fs records catalog log
    = Ok (fold_left (fun c ke => Dict.set Key_eqb (fst ke) (snd ke) c)
            items catalog, log).
Proof.
  induction records as [|v records IH]; intros items catalog log H;
    inversion H as [|? ke ? items' Hv Hrest]; subst; [reflexivity|].
  cbn [load_loop fold_left]. rewrite Hv. destruct ke as [k e].
  apply IH. exact Hrest.
Qed.

Lemma set_new (k : Key) (e : Entry) (c : Catalog) :
  ~ In k (Dict.keys c) -> Dict.set Key_eqb k e c = (c ++ [(k, e)])%list.
Proof.
  unfold Dict.keys. induction c as [|[k' e'] c IH]; intros H; [reflexivity|].
  cbn [Dict.set map fst In app] in *.
  destruct (Key_eqb k' k) eqn:E.
  - apply Key_eqb_eq in E. tauto.
  - rewrite IH by tauto. reflexivity.
Qed.

Lemma fold_set_distinct (items : list (Key * Entry)) :
  forall c : Catalog,
    NoDup (Dict.keys c ++ map fst items) ->
    fold_left (fun c ke => Dict.set Key_eqb (fst ke) (snd ke) c) items c
    = (c ++ items)%list.
Proof.
  induction items as [|[k e] items IH]; intros c H; cbn [fold_left map fst snd].
  - rewrite app_nil_r. reflexivity.
  - cbn [map fst] in H. rewrite set_new.
    + rewrite IH.
      * rewrite <- app_assoc. reflexivity.
      * unfold Dict.keys. rewrite map_app. cbn [map fst].
        rewrite <- app_assoc. exact H.
    + apply NoDup_remove_2 in H. intros Hin. apply H.
      apply in_or_app. left. exact Hin.
Qed.

Lemma catalog_of_items_distinct (items : list (Key * Entry)) :
  NoDup (map fst items) -> catalog_of_items items = items.
Proof. intros H. apply (fold_set_distinct items []). exact H. Qed.

Section SortMap.
Context {A B K : Type} (f : A -> B) (key : B -> K) (leb : K -> K -> bool).

Lemma insert_sorted_map (x : A) (l : list A) :
  map f (insert_sorted (fun a => key (f a)) leb x l)
  = insert_sorted key leb (f x) (map f l).
Proof.
  induction l as [|y l IH]; [reflexivity|]. cbn [insert_sorted map].
  destruct (leb (key (f x)) (key (f y))); cbn [map]; [reflexivity|].
  rewrite IH. reflexivity.
Qed.

Lemma stable_sort_map (l : list A) :
  map f (stable_sort (fun a => key (f a)) leb l)
  = stable_sort key leb (map f l).
Proof.
  induction l as [|x l IH]; [reflexivity|].
  cbn [stable_sort fold_right map].
  fold (stable_sort (fun a => key (f a)) leb l).
  fold (stable_sort key leb (map f l)).
  rewrite insert_sorted_map, IH. reflexivity.
Qed.
End SortMap.

Lemma filter_map_snd {A B} (p : B -> bool) (l : list (A * B)) :
  filter p (map snd l) = map snd (filter (fun x => p (snd x)) l).
Proof.
  induction l as [|x l IH]; [reflexivity|]. cbn [map filter].
  destruct (p (snd x)); cbn [map]; rewrite IH; reflexivity.
Qed.

Lemma dumps_entries_items (ignorefile : Catalog) :
  dumps_entries ignorefile = map snd (dumped_items ignorefile).
Proof.
  unfold dumps_entries, dumped_items, Dict.values.
  rewrite filter_map_snd. symmetry. apply (stable_sort_map snd).
Qed.

Lemma NoDup_map_filter {A B} (f : A -> B) (p : A -> bool) (l : list A) :
  NoDup (map f l) -> NoDup (map f (filter p l)).
Proof.
  induction l as [|x l IH]; [auto|]. cbn [map filter]. intros H.
  inversion H as [|? ? Hx Hl]; subst. destruct (p x); [|auto].
  cbn [map]. constructor; [|auto]. intros Hin. apply Hx.
  apply in_map_iff in Hin. destruct Hin as (y & Hy & Hin).
  apply filter_In in Hin. apply in_map_iff. exists y. tauto.
Qed.

Lemma dumped_items_perm (ignorefile : Catalog) :
  Permutation (dumped_items ignorefile)
    (filter (fun ke => has_srctxt (snd ke)) ignorefile).
Proof. apply stable_sort_perm. Qed.

Lemma dumped_items_distinct (ignorefile : Catalog) :
  NoDup (Dict.keys ignorefile) -> NoDup (map fst (dumped_items ignorefile)).
Proof.
  intros H.
  apply (Permutation_NoDup
           (l := map fst (filter (fun ke => has_srctxt (snd ke)) ignorefile))).
  - apply Permutation_map, Permutation_sym, dumped_items_perm.
  - apply NoDup_map_filter. exact H.
Qed.

Lemma dumped_items_In (ignorefile : Catalog) (ke : Key * Entry) :
  In ke (dumped_items ignorefile) ->
  In ke ignorefile /\ has_srctxt (snd ke) = true.
Proof.
  intros H. apply (Permutation_in _ (dumped_items_perm ignorefile)) in H.
  apply filter_In in H. exact H.
Qed.

Lemma relocated_fst (items : list (Key * Entry)) :
  map fst (map relocated items) = map fst items.
Proof. rewrite map_map. reflexivity. Qed.

Lemma source_lines_dump (fs : FileSystem) (c : Catalog) (p q : string) :
  q <> p -> q <> p ++ ".tmp" ->
  source_lines (dump fs c p) q = source_lines fs q.
Proof.
  intros H1 H2. unfold source_lines, read_text.
  rewrite dump_other by assumption. reflexivity.
Qed.

(** An item that is written is read back. *)
Lemma round_trips_item (fs : FileSystem) (c : Catalog) (p : string)
    (ke : Key * Entry) :
  round_trips fs p ke -> has_srctxt (snd ke) = true ->
  renderable (dump fs c p) (snd ke)
  /\ forall ln,
       _init_entry_item (dump fs c p) (record_for ln (snd ke))
       = Ok (relocated ke).
Proof.
  unfold round_trips, has_srctxt. destruct ke as [k e]. cbn [fst snd].
  destruct (srctxt e) as [st|] eqn:Hst; [|discriminate].
  intros (Hk & Hf & Hp1 & Hp2 & lines & Hlines & Ha) _.
  assert (Hlines' : source_lines (dump fs c p) (path e) = Ok lines)
    by (rewrite source_lines_dump; assumption).
  split.
  - exists st, lines. auto.
  - intros ln. rewrite (init_record _ ln e st lines Hst Hlines' Ha).
    rewrite Hk. reflexivity.
Qed.

(** The catalog that is read back from what [dump] wrote. *)
Lemma load_dump (fs : FileSystem) (ignorefile : Catalog) (p : string) :
  NoDup (Dict.keys ignorefile) ->
  Forall (round_trips fs p) ignorefile ->
  load (dump fs ignorefile p) p
  = Ok (map relocated (dumped_items ignorefile)).
Proof.
  intros Hnd Hall.
  assert (Hitems : forall ke, In ke (dumped_items ignorefile) ->
            renderable (dump fs ignorefile p) (snd ke)
            /\ forall ln,
                 _init_entry_item (dump fs ignorefile p)
                   (record_for ln (snd ke))
                 = Ok (relocated ke)).
  { intros ke Hin. apply dumped_items_In in Hin. destruct Hin as [Hin Hs].
    apply round_trips_item; [|exact Hs].
    rewrite Forall_forall in Hall. apply Hall. exact Hin. }
  assert (Hrender : Forall (renderable (dump fs ignorefile p))
                      (dumps_entries ignorefile)).
  { rewrite dumps_entries_items. apply Forall_map, Forall_forall.
    intros ke Hin. apply Hitems. exact Hin. }
  destruct (records_of_dumps _ _ Hrender) as (recs & Hrecs & Hrec).
  unfold load, load_log, exists_, _iter_entry_values, read_text.
  rewrite dump_target. cbn [negb bind].
  rewrite (universal_newlines_id _ (dumps_cr_free _ _ Hrender)), Hrec.
  rewrite (load_loop_items _ recs (map relocated (dumped_items ignorefile))).
  - cbn [bind fst]. f_equal. apply catalog_of_items_distinct.
    rewrite relocated_fst. apply dumped_items_distinct. exact Hnd.
  - rewrite dumps_entries_items in Hrecs. clear - Hrecs Hitems.
    revert recs Hrecs.
    induction (dumped_items ignorefile) as [|ke items IH]; intros recs Hrecs;
      inversion Hrecs as [|r ? recs' ? (ln & Hr) Hrest]; subst;
      cbn [map]; constructor.
    + apply Hitems. left. reflexivity.
    + apply IH; [|exact Hrest]. intros ke' Hin. apply Hitems. right.
      exact Hin.
Qed.

(** *** Writing again what was read back *)

Section SortId.
Context {A K : Type} (key key' : A -> K) (leb : K -> K -> bool).

Lemma stable_sort_id (l : list A) :
  StronglySorted (fun x y => leb (key x) (key y) = true) l ->
  stable_sort key leb l = l.
Proof.
  induction 1 as [|x l Hs IH Hall]; [reflexivity|].
  cbn [stable_sort fold_right]. fold (stable_sort key leb l). rewrite IH.
  destruct l as [|y l]; [reflexivity|]. cbn [insert_sorted].
  inversion Hall as [|? ? Hxy _]; subst. rewrite Hxy. reflexivity.
Qed.

Lemma stable_sort_ext (l : list A) :
  (forall x, key x = key' x) ->
  stable_sort key leb l = stable_sort key' leb l.
Proof.
  intros H. induction l as [|x l IH]; [reflexivity|].
  cbn [stable_sort fold_right]. fold (stable_sort key leb l).
  fold (stable_sort key' leb l). rewrite IH.
  generalize (stable_sort key' leb l). intros l'.
  induction l' as [|y l' IH']; [reflexivity|]. cbn [insert_sorted].
  rewrite !H, IH'. reflexivity.
Qed.
End SortId.

Lemma ctx_src_lines_start (st st' : SourceText) (lineno pad : Z)
    (lines : list string) :
  start_idx st = start_idx st' ->
  forall off,
    ctx_src_lines st lineno pad off lines
    = ctx_src_lines st' lineno pad off lines.
Proof.
  intros H. induction lines as [|l lines IH]; intros off; [reflexivity|].
  cbn [ctx_src_lines]. rewrite H, IH. reflexivity.
Qed.

Lemma dumps_entry_relocated (e : Entry) :
  _dumps_entry (relocated_entry e) = _dumps_entry e.
Proof.
  destruct e as [? ? ? ? ? ? [st|]]; [|reflexivity].
  unfold _dumps_entry, relocated_entry, relocated.
  cbn [snd srctxt option_map relocated_anchor new_lineno end_idx text].
  rewrite (ctx_src_lines_start (relocated_anchor st) st) by reflexivity.
  reflexivity.
Qed.

Lemma sort_key_relocated (e : Entry) :
  sort_key (relocated_entry e) = sort_key e.
Proof. destruct e as [? ? ? ? ? ? [[]|]]; reflexivity. Qed.

Lemma has_srctxt_relocated (e : Entry) :
  has_srctxt (relocated_entry e) = has_srctxt e.
Proof. destruct e as [? ? ? ? ? ? [[]|]]; reflexivity. Qed.

Lemma filter_all {A} (p : A -> bool) (l : list A) :
  Forall (fun x => p x = true) l -> filter p l = l.
Proof.
  induction 1 as [|x l Hx _ IH]; [reflexivity|]. cbn [filter].
  rewrite Hx, IH. reflexivity.
Qed.

(** The entries that [dumps] writes for the catalog that was read back are
    the entries that it wrote, each as it is after a reload. *)
Lemma dumps_entries_relocated (ignorefile : Catalog) :
  dumps_entries (map relocated (dumped_items ignorefile))
  = map relocated_entry (dumps_entries ignorefile).
Proof.
  unfold dumps_entries at 1. unfold Dict.values.
  replace (map snd (map relocated (dumped_items ignorefile)))
    with (map relocated_entry (dumps_entries ignorefile))
    by (rewrite dumps_entries_items, !map_map; reflexivity).
  rewrite filter_all.
  - rewrite <- (stable_sort_map relocated_entry sort_key key_leb).
    rewrite (stable_sort_ext _ sort_key key_leb _ sort_key_relocated).
    f_equal. apply stable_sort_id. unfold dumps_entries.
    apply stable_sort_sorted; [apply key_leb_total | apply key_leb_trans].
  - apply Forall_map. rewrite dumps_entries_items. apply Forall_map.
    apply Forall_forall. intros ke Hin. rewrite has_srctxt_relocated.
    apply dumped_items_In in Hin. tauto.
Qed.

Lemma dumps_relocated (ignorefile : Catalog) :
  dumps (map relocated (dumped_items ignorefile)) = dumps ignorefile.
Proof.
  unfold dumps. cbv zeta. rewrite dumps_entries_relocated, map_map.
  do 2 f_equal. apply map_ext. apply dumps_entry_relocated.
Qed.

(** An item whose anchor has one line number is as it is after a
    reload. *)
Lemma relocated_same (ke : Key * Entry) :
  (exists st, srctxt (snd ke) = Some st /\ old_lineno st = new_lineno st) ->
  relocated ke = ke.
Proof.
  destruct ke as [k [? ? ? ? ? ? s]]. cbn [snd srctxt].
  intros (st & -> & Hold). destruct st. cbn in Hold. subst.
  reflexivity.
Qed.

(* ================================================================== *)
(** * Part III: further properties of the code *)
(* ================================================================== *)

(** ** The anchor resolver: which line the search returns *)

Section Search.
Variable lines : list string.
Variable txt : string.

Lemma first_matching_set2_Some (a b r : Z) :
  first_matching lines txt (Py.set2 a b) = Some r ->
  (r = a + 1 \/ r = b + 1) /\ is_matching_line lines txt (r - 1) = true.
Proof.
  intros H. split; [|eapply first_matching_Some; exact H].
  destruct (set2_cases a b) as [[_ E] | [_ [E | E]]]; rewrite E in H;
    simpl in H;
    repeat match type of H with
           | (if ?c then _ else _) = _ => destruct c
           end; inversion H; auto.
Qed.

Lemma first_matching_set2_None (a b : Z) :
  first_matching lines txt (Py.set2 a b) = None ->
  is_matching_line lines txt a = false
  /\ is_matching_line lines txt b = false.
Proof.
  intros H.
  destruct (set2_cases a b) as [[<- E] | [_ [E | E]]]; rewrite E in H;
    simpl in H;
    destruct (is_matching_line lines txt a);
    try destruct (is_matching_line lines txt b); try discriminate; auto.
Qed.

(** The offsets below the one that gives the result have no matching line
    on either side. *)
Lemma search_offsets_first (idx : Z) :
  forall (n a : nat) (r : Z),
    search_offsets lines txt idx (map Z.of_nat (seq a n)) = Ok r ->
    exists off : nat,
      (a <= off < a + n)%nat
      /\ (forall o : nat, (a <= o < off)%nat ->
            is_matching_line lines txt (idx - Z.of_nat o) = false
            /\ is_matching_line lines txt (idx + Z.of_nat o) = false)
      /\ (r = idx - Z.of_nat off + 1 \/ r = idx + Z.of_nat off + 1)
      /\ is_matching_line lines txt (r - 1) = true.
Proof.
  induction n as [|n IH]; intros a r H; simpl in H; [discriminate|].
  destruct (first_matching lines txt
              (Py.set2 (idx - Z.of_nat a) (idx + Z.of_nat a))) as [r'|] eqn:E.
  - inversion H; subst r'. apply first_matching_set2_Some in E.
    exists a. split; [lia|]. split; [intros o Ho; lia|]. exact E.
  - apply first_matching_set2_None in E.
    destruct (IH (S a) r H) as (off & Hoff & Hlow & Hr & Hm).
    exists off. split; [lia|]. split; [|split; assumption].
    intros o Ho. destruct (Nat.eq_dec o a) as [-> | Hne]; [exact E|].
    apply Hlow. lia.
Qed.

Lemma search_offsets_none (idx : Z) :
  forall (n a : nat) (e : exn),
    search_offsets lines txt idx (map Z.of_nat (seq a n)) = Raise e ->
    e = ObsoleteEntry "source text not found"
    /\ (forall o : nat, (a <= o < a + n)%nat ->
          is_matching_line lines txt (idx - Z.of_nat o) = false
          /\ is_matching_line lines txt (idx + Z.of_nat o) = false).
Proof.
  induction n as [|n IH]; intros a e H; simpl in H.
  - inversion H. split; [reflexivity | intros o Ho; lia].
  - destruct (first_matching lines txt
                (Py.set2 (idx - Z.of_nat a) (idx + Z.of_nat a))) eqn:E;
      [discriminate|].
    apply first_matching_set2_None in E.
    destruct (IH (S a) e H) as (He & Hall). split; [exact He|].
    intros o Ho. destruct (Nat.eq_dec o a) as [-> | Hne]; [tauto|].
    apply Hall. lia.
Qed.

(** A matching line at distance [o] from [old]. *)
Lemma line_matches_at (old m : Z) (o : nat) :
  line_matches lines txt m -> Z.abs (m - old) = Z.of_nat o ->
  is_matching_line lines txt (old - 1 - Z.of_nat o) = true
  \/ is_matching_line lines txt (old - 1 + Z.of_nat o) = true.
Proof.
  intros Hm Ho.
  destruct (Z.abs_spec (m - old)) as [[_ E] | [_ E]]; rewrite E in Ho.
  - right. apply is_matching_line_spec.
    replace (old - 1 + Z.of_nat o + 1) with m by lia. exact Hm.
  - left. apply is_matching_line_spec.
    replace (old - 1 - Z.of_nat o + 1) with m by lia. exact Hm.
Qed.

End Search.

Lemma find_in_lines_closest (lines : list string) (txt : string)
    (old r : Z) :
  find_in_lines lines txt old = Ok r ->
  line_matches lines txt r
  /\ Z.abs (r - old) <= 99
  /\ (forall m, line_matches lines txt m ->
        Z.abs (r - old) <= Z.abs (m - old)).
Proof.
  intros H. unfold find_in_lines, Py.range in H.
  apply search_offsets_first in H.
  destruct H as (off & Hoff & Hlow & Hr & Hm).
  assert (Habs : Z.abs (r - old) = Z.of_nat off) by lia.
  split; [|split].
  - apply is_matching_line_spec in Hm.
    replace (r - 1 + 1) with r in Hm by lia. exact Hm.
  - lia.
  - intros m Hmm. rewrite Habs.
    destruct (Z_lt_le_dec (Z.abs (m - old)) (Z.of_nat off)) as [Hlt | Hle];
      [exfalso | exact Hle].
    destruct (Hlow (Z.to_nat (Z.abs (m - old)))) as [Ha Hb]; [lia|].
    destruct (line_matches_at lines txt old m (Z.to_nat (Z.abs (m - old))) Hmm)
      as [E | E]; [lia | congruence | congruence].
Qed.

(** X1. The line that the resolver returns holds the recorded text, lies
    within 99 lines of the recorded number, and no line with that text is
    closer to the recorded number. *)
Theorem find_source_text_lineno_closest :
  forall (fs : FileSystem) (path : string) (lines : list string)
         (old_source_line : string) (old_lineno r : Z),
    source_lines fs path = Ok lines ->
    find_source_text_lineno fs path old_source_line old_lineno = Ok r ->
    line_matches lines old_source_line r
    /\ Z.abs (r - old_lineno) <= 99
    /\ (forall m, line_matches lines old_source_line m ->
          Z.abs (r - old_lineno) <= Z.abs (m - old_lineno)).
Proof.
  intros fs p lines txt old r Hlines H.
  unfold find_source_text_lineno in H. rewrite Hlines in H. simpl in H.
  apply find_in_lines_closest. exact H.
Qed.

Lemma find_source_text_lineno_closest_witness :
  line_matches (example_lines 11 [1; 11]) "x = 1" 1
  /\ Z.abs (1 - 6) <= 99
  /\ (forall m, line_matches (example_lines 11 [1; 11]) "x = 1" m ->
        Z.abs (1 - 6) <= Z.abs (m - 6)).
Proof.
  apply (find_source_text_lineno_closest
           (one_file "a.py" (example_text 11 [1; 11])) "a.py").
  - vm_compute. reflexivity.
  - vm_compute. reflexivity.
Defined.

(** X2. The resolver raises [ObsoleteEntry] exactly when no line within 99
    lines of the recorded number holds the recorded text, and returns a
    line number otherwise. *)
Theorem find_source_text_lineno_obsolete_iff :
  forall (fs : FileSystem) (path : string) (lines : list string)
         (old_source_line : string) (old_lineno : Z),
    source_lines fs path = Ok lines ->
    let found :=
      find_source_text_lineno fs path old_source_line old_lineno in
    (found = Raise (ObsoleteEntry "source text not found")
     <-> (forall m, Z.abs (m - old_lineno) <= 99 ->
            ~ line_matches lines old_source_line m))
    /\ ((exists r, found = Ok r)
        <-> (exists m, Z.abs (m - old_lineno) <= 99
                       /\ line_matches lines old_source_line m)).
Proof.
  intros fs p lines txt old Hlines found.
  assert (Hfound : found = find_in_lines lines txt old).
  { unfold found, find_source_text_lineno. rewrite Hlines. reflexivity. }
  assert (Hnone :
    found = Raise (ObsoleteEntry "source text not found") ->
    forall m, Z.abs (m - old) <= 99 -> ~ line_matches lines txt m).
  { intros H m Hm Hmatch. rewrite Hfound in H.
    unfold find_in_lines, Py.range in H.
    apply search_offsets_none in H. destruct H as [_ Hall].
    destruct (Hall (Z.to_nat (Z.abs (m - old)))) as [Ha Hb]; [lia|].
    destruct (line_matches_at lines txt old m (Z.to_nat (Z.abs (m - old)))
                Hmatch) as [E | E]; [lia | congruence | congruence]. }
  assert (Hsome :
    forall r, found = Ok r ->
    exists m, Z.abs (m - old) <= 99 /\ line_matches lines txt m).
  { intros r H. exists r. rewrite Hfound in H.
    unfold find_in_lines, Py.range in H.
    apply search_offsets_first in H.
    destruct H as (off & Hoff & _ & Hr & Hm).
    apply is_matching_line_spec in Hm.
    replace (r - 1 + 1) with r in Hm by lia. split; [lia | exact Hm]. }
  assert (Hcases :
    (exists r, found = Ok r)
    \/ found = Raise (ObsoleteEntry "source text not found")).
  { rewrite Hfound. unfold find_in_lines.
    destruct (search_offsets_cases lines txt (old - 1) (Py.range 100))
      as [(r & Hr & _) | Hr]; [left; eauto | right; exact Hr]. }
  split; split.
  - exact Hnone.
  - intros Hall. destruct Hcases as [(r & Hr) | Hr]; [|exact Hr].
    destruct (Hsome r Hr) as (m & Hm & Hmatch).
    exfalso. exact (Hall m Hm Hmatch).
  - intros (r & Hr). exact (Hsome r Hr).
  - intros (m & Hm & Hmatch). destruct Hcases as [Hr | Hr]; [exact Hr|].
    exfalso. exact (Hnone Hr m Hm Hmatch).
Qed.

Lemma find_source_text_lineno_obsolete_iff_witness :
  let lines := example_lines 11 [1; 11] in
  let found :=
    find_source_text_lineno (one_file "a.py" (example_text 11 [1; 11]))
      "a.py" "y = 2" 6 in
  (found = Raise (ObsoleteEntry "source text not found")
   <-> (forall m, Z.abs (m - 6) <= 99 -> ~ line_matches lines "y = 2" m))
  /\ ((exists r, found = Ok r)
      <-> (exists m, Z.abs (m - 6) <= 99 /\ line_matches lines "y = 2" m)).
Proof.
  apply (find_source_text_lineno_obsolete_iff
           (one_file "a.py" (example_text 11 [1; 11])) "a.py").
  vm_compute. reflexivity.
Defined.

(** ** The source line cache *)

Section DictFacts.
Context {V : Type}.

Lemma dict_get_set (k k' : string) (v : V) (d : @Dict.t string V) :
  Dict.get String.eqb k (Dict.set String.eqb k' v d)
  = if String.eqb k' k then Some v else Dict.get String.eqb k d.
Proof.
  induction d as [|[k0 v0] d IH]; simpl.
  - destruct (String.eqb k' k); reflexivity.
  - destruct (String.eqb k0 k') eqn:E0; simpl.
    + apply String.eqb_eq in E0. subst k'.
      destruct (String.eqb k0 k); reflexivity.
    + rewrite IH. destruct (String.eqb k0 k) eqn:E1; [|reflexivity].
      apply String.eqb_eq in E1. subst k.
      rewrite String.eqb_sym, E0. reflexivity.
Qed.

Lemma dict_get_popitem (k : string) (v : V) (d : @Dict.t string V) :
  Dict.get String.eqb k (Dict.popitem d) = Some v ->
  Dict.get String.eqb k d = Some v.
Proof.
  unfold Dict.popitem. induction d as [|[k0 v0] d IH]; [auto|].
  destruct d as [|kv d']; [discriminate|].
  change (removelast ((k0, v0) :: kv :: d'))
    with ((k0, v0) :: removelast (kv :: d')).
  cbn [Dict.get]. destruct (String.eqb k0 k); auto.
Qed.

Lemma dict_set_length (k : string) (v : V) (d : @Dict.t string V) :
  (length (Dict.set String.eqb k v d) <= S (length d))%nat.
Proof.
  induction d as [|[k0 v0] d IH]; simpl; [lia|].
  destruct (String.eqb k0 k); simpl; lia.
Qed.

Lemma dict_popitem_length (d : @Dict.t string V) :
  d <> [] -> S (length (Dict.popitem d)) = length d.
Proof.
  unfold Dict.popitem. intros H.
  destruct (exists_last H) as (d' & a & ->).
  rewrite removelast_last, length_app. simpl. lia.
Qed.

End DictFacts.

(** X3. While the files do not change, the cache is transparent: a call of
    [read_source_lines] on a cache that holds the lines of the files as they
    are returns what reading the file returns, and leaves such a cache. *)
Theorem read_source_lines_coherent :
  forall (fs : FileSystem) (cache : SrcCache) (path : string),
    coherent fs cache ->
    fst (read_source_lines fs cache path) = source_lines fs path
    /\ coherent fs (snd (read_source_lines fs cache path)).
Proof.
  intros fs cache p Hco. unfold read_source_lines.
  destruct (Dict.get String.eqb p cache) as [lines|] eqn:G.
  - split; [|exact Hco]. cbn [fst].
    destruct (Hco p lines G) as (s & Hs & ->).
    unfold source_lines, read_text. rewrite Hs. reflexivity.
  - set (cache1 := if Z.of_nat (length cache) >? 2
                   then Dict.popitem cache else cache).
    assert (Hco1 : coherent fs cache1).
    { unfold cache1. destruct (Z.of_nat (length cache) >? 2); [|exact Hco].
      intros q lines Hq. apply (Hco q lines).
      apply dict_get_popitem. exact Hq. }
    unfold source_lines.
    destruct (read_text fs p) as [s|e] eqn:R; cbn [fst snd bind].
    + split; [reflexivity|].
      intros q lines Hq. rewrite dict_get_set in Hq.
      destruct (String.eqb p q) eqn:E.
      * apply String.eqb_eq in E. subst q. inversion Hq; subst lines.
        exists s. split; [|reflexivity].
        unfold read_text in R. destruct (fs p) as [[c| |]|]; congruence.
      * apply (Hco1 q lines Hq).
    + split; [reflexivity | exact Hco1].
Qed.

Lemma read_source_lines_coherent_witness :
  (fst (read_source_lines three_project
          [("a.py", Py.splitlines true def_first_text)] "a.py")
   = source_lines three_project "a.py"
   /\ coherent three_project
        (snd (read_source_lines three_project
                [("a.py", Py.splitlines true def_first_text)] "a.py")))
  /\ (fst (read_source_lines three_project
             [("a.py", Py.splitlines true def_first_text)] "pylint-ignore.md")
      = source_lines three_project "pylint-ignore.md"
      /\ coherent three_project
           (snd (read_source_lines three_project
                   [("a.py", Py.splitlines true def_first_text)]
                   "pylint-ignore.md"))).
Proof.
  assert (H : coherent three_project
                [("a.py", Py.splitlines true def_first_text)]).
  { intros p lines H. cbn [Dict.get] in H.
    destruct (String.eqb "a.py" p) eqn:E; [|discriminate].
    apply String.eqb_eq in E. subst p. injection H as <-.
    exists def_first_text. split; reflexivity. }
  split; apply (read_source_lines_coherent three_project _ _ H).
Defined.

(** X4. The cache never grows beyond three files: a call on a cache of at
    most three files leaves a cache of at most three files. *)
Theorem read_source_lines_cache_bound :
  forall (fs : FileSystem) (cache : SrcCache) (path : string),
    (length cache <= 3)%nat ->
    (length (snd (read_source_lines fs cache path)) <= 3)%nat.
Proof.
  intros fs cache p Hlen. unfold read_source_lines.
  destruct (Dict.get String.eqb p cache); [exact Hlen|].
  set (cache1 := if Z.of_nat (length cache) >? 2
                 then Dict.popitem cache else cache).
  assert (H1 : (length cache1 <= 2)%nat).
  { unfold cache1. destruct (Z.of_nat (length cache) >? 2) eqn:E; [|lia].
    assert (Hne : cache <> []) by (intros ->; simpl in E; discriminate).
    pose proof (dict_popitem_length cache Hne). lia. }
  destruct (read_text fs p); cbn [snd]; [|lia].
  pose proof (dict_set_length p (Py.splitlines true a) cache1). lia.
Qed.

Lemma read_source_lines_cache_bound_witness :
  (length (snd (read_source_lines (one_file "d.py" "pass")
                  [("a.py", []); ("b.py", []); ("c.py", [])] "d.py"))
   <= 3)%nat.
Proof.
  apply (read_source_lines_cache_bound (one_file "d.py" "pass")
           [("a.py", []); ("b.py", []); ("c.py", [])] "d.py").
  simpl. lia.
Defined.

(** ** The anchor builder: the context and the definition line *)

(** X5. The definition line of an anchor is the nearest line above it that
    is not blank, is indented less than the anchor and starts with [def] or
    [class], provided that line lies before the context and is not the
    first line of the file; when the nearest such line is in the context,
    or there is none below the first line, no definition line is
    recorded. *)
Theorem read_source_text_definition_line :
  forall (fs : FileSystem) (path : string) (lines : list string)
         (new old : Z) (st : SourceText),
    source_lines fs path = Ok lines ->
    1 <= new ->
    read_source_text fs path new old = Ok st ->
    definition_line_of lines (indent_lvl (source_line st)) (start_idx st)
      (new - 1) (def_line_idx st, def_line st).
Proof.
  intros fs p lines n old st Hlines Hn H.
  unfold read_source_text in H. rewrite Hlines in H. cbn [bind] in H.
  apply (source_text_of_lines_definition lines n old st Hn H).
Qed.

Lemma read_source_text_definition_line_witness :
  definition_line_of (Py.splitlines true def_second_text) 4 3 (6 - 1)
    (Some 1, Some ("def f():" ++ NL)).
Proof.
  exact (read_source_text_definition_line
           (one_file "a.py" def_second_text) "a.py"
           (Py.splitlines true def_second_text) 6 6
           (mkSourceText 6 6 ("    return a" ++ NL)
              ("    b = 2" ++ NL ++ "    c = 3" ++ NL ++ "    return a" ++ NL
               ++ "    # end" ++ NL ++ "x = 0" ++ NL)
              3 8 (Some 1) (Some ("def f():" ++ NL)))
           eq_refl ltac:(lia) eq_refl).
Defined.

(** X6. For every line of the file, [read_source_text] returns, and the
    anchor it returns holds that line, the two numbers, and as context the
    lines from two lines before to two lines after, as far as the file has
    them. *)
Theorem read_source_text_window :
  forall (fs : FileSystem) (path : string) (lines : list string)
         (new old : Z),
    source_lines fs path = Ok lines ->
    1 <= new <= len_list lines ->
    exists st,
      read_source_text fs path new old = Ok st
      /\ new_lineno st = new
      /\ old_lineno st = old
      /\ nth_error lines (Z.to_nat (new - 1)) = Some (source_line st)
      /\ start_idx st = Z.max 0 (new - 3)
      /\ end_idx st = Z.min (len_list lines) (new + 2)
      /\ text st
         = Py.join0 (firstn (Z.to_nat (end_idx st - start_idx st))
                       (skipn (Z.to_nat (start_idx st)) lines)).
Proof.
  intros fs p lines n old Hlines Hn.
  unfold read_source_text. rewrite Hlines. cbn [bind].
  apply source_text_of_lines_window. exact Hn.
Qed.

Lemma read_source_text_window_witness :
  exists st,
    read_source_text (one_file "a.py" def_first_text) "a.py" 2 7 = Ok st
    /\ new_lineno st = 2
    /\ old_lineno st = 7
    /\ nth_error (Py.splitlines true def_first_text) (Z.to_nat (2 - 1))
       = Some (source_line st)
    /\ start_idx st = Z.max 0 (2 - 3)
    /\ end_idx st
       = Z.min (len_list (Py.splitlines true def_first_text)) (2 + 2)
    /\ text st
       = Py.join0 (firstn (Z.to_nat (end_idx st - start_idx st))
                     (skipn (Z.to_nat (start_idx st))
                        (Py.splitlines true def_first_text))).
Proof.
  apply (read_source_text_window (one_file "a.py" def_first_text) "a.py").
  - reflexivity.
  - vm_compute. split; discriminate.
Defined.

(** X7. A line number beyond the end of the file raises [IndexError]; a
    line number from [1 - len(lines)] to 0 does not: it counts from the end
    of the file, and the anchor holds the line of number
    [len(lines) + new_lineno], a context that starts with the file and no
    definition line. *)
Theorem read_source_text_out_of_range :
  forall (fs : FileSystem) (path : string) (lines : list string)
         (new old : Z),
    source_lines fs path = Ok lines ->
    (len_list lines < new \/ new <= - len_list lines ->
     read_source_text fs path new old = Raise IndexError)
    /\
    (1 - len_list lines <= new <= 0 ->
     exists st,
       read_source_text fs path new old = Ok st
       /\ nth_error lines (Z.to_nat (len_list lines + new - 1))
          = Some (source_line st)
       /\ start_idx st = 0
       /\ def_line_idx st = None /\ def_line st = None).
Proof.
  intros fs p lines n old Hlines.
  unfold read_source_text. rewrite Hlines. cbn [bind].
  unfold source_text_of_lines, len_list. split.
  - intros Hn. unfold Py.getitem.
    destruct (n - 1 <? 0) eqn:E.
    + replace ((n - 1 + Z.of_nat (length lines) <? 0)
               || (Z.of_nat (length lines) <=? n - 1 + Z.of_nat (length lines)))
        with true by lia.
      reflexivity.
    + replace ((n - 1 <? 0) || (Z.of_nat (length lines) <=? n - 1))
        with true by lia.
      reflexivity.
  - intros Hn.
    assert (Hg : exists l,
               nth_error lines (Z.to_nat (Z.of_nat (length lines) + n - 1))
               = Some l
               /\ Py.getitem lines (n - 1) = Ok l).
    { unfold Py.getitem. replace (n - 1 <? 0) with true by lia.
      replace ((n - 1 + Z.of_nat (length lines) <? 0)
               || (Z.of_nat (length lines) <=? n - 1 + Z.of_nat (length lines)))
        with false by lia.
      replace (n - 1 + Z.of_nat (length lines))
        with (Z.of_nat (length lines) + n - 1) by lia.
      destruct (nth_error lines (Z.to_nat (Z.of_nat (length lines) + n - 1)))
        as [l|] eqn:N; [eauto|].
      apply nth_error_None in N. lia. }
    destruct Hg as (l & Hnth & ->). cbn [bind].
    replace (Z.to_nat (n - 1)) with O by lia. cbn [find_def_line bind].
    eexists. split; [reflexivity|].
    cbn [source_line start_idx def_line_idx def_line].
    unfold CONTEXT_LINES. repeat split; try assumption. lia.
Qed.

Lemma read_source_text_out_of_range_witness :
  read_source_text (one_file "a.py" def_first_text) "a.py" 8 8
  = Raise IndexError
  /\ exists st,
       read_source_text (one_file "a.py" def_first_text) "a.py" 0 0 = Ok st
       /\ nth_error (Py.splitlines true def_first_text)
            (Z.to_nat (len_list (Py.splitlines true def_first_text) + 0 - 1))
          = Some (source_line st)
       /\ start_idx st = 0
       /\ def_line_idx st = None /\ def_line st = None.
Proof.
  split.
  - apply (proj1 (read_source_text_out_of_range
                    (one_file "a.py" def_first_text) "a.py"
                    (Py.splitlines true def_first_text) 8 8 eq_refl)).
    left. vm_compute. reflexivity.
  - apply (proj2 (read_source_text_out_of_range
                    (one_file "a.py" def_first_text) "a.py"
                    (Py.splitlines true def_first_text) 0 0 eq_refl)).
    vm_compute. split; discriminate.
Defined.

(** ** The context block of a record *)

(** X8. [_parse_ctx_src_text] returns the fence, a newline and the lines up
    to and with the first line that is the fence once stripped, and leaves
    the lines after it in the iterator; when no line closes the block it
    raises [StopIteration]. *)
Theorem _parse_ctx_src_text_to_closing_fence :
  forall (fence : string) (pre : list (Z * string)) (close : Z * string)
         (rest : list (Z * string)),
    Forall (fun l => Py.strip (snd l) <> fence) pre ->
    (Py.strip (snd close) = fence ->
     _parse_ctx_src_text fence (pre ++ close :: rest)
     = Ok (fence ++ NL ++ Py.join0 (map snd pre) ++ snd close, rest))
    /\ _parse_ctx_src_text fence pre = Raise StopIteration.
Proof.
  intros fence pre close rest Hpre. unfold _parse_ctx_src_text. split.
  - intros Hclose. rewrite parse_ctx_loop_closed by assumption.
    rewrite (join0_cons (fence ++ NL) []).
    change (Py.join0 []) with "". rewrite append_nil_r, !append_assoc.
    reflexivity.
  - apply parse_ctx_loop_open. exact Hpre.
Qed.

Lemma _parse_ctx_src_text_to_closing_fence_witness :
  _parse_ctx_src_text "```"
    ([(7, "> 5:     return a" ++ NL)] ++ (8, "```" ++ NL) :: [(9, NL)])
  = Ok ("```" ++ NL ++ Py.join0 (map snd [(7, "> 5:     return a" ++ NL)])
        ++ snd (8, "```" ++ NL), [(9, NL)])
  /\ _parse_ctx_src_text "```" [(7, "> 5:     return a" ++ NL)]
     = Raise StopIteration.
Proof.
  destruct (_parse_ctx_src_text_to_closing_fence "```"
              [(7, "> 5:     return a" ++ NL)] (8, "```" ++ NL) [(9, NL)])
    as [H1 H2].
  - repeat constructor. vm_compute. discriminate.
  - split; [apply H1; reflexivity | exact H2].
Defined.

(** ** Invariants of a loaded catalog *)

Lemma bind_Ok_inv {A B} (m : result A) (f : A -> result B) (b : B) :
  bind m f = Ok b -> exists a, m = Ok a /\ f a = Ok b.
Proof. destruct m; simpl; intros H; [eauto | discriminate]. Qed.

(** What [_init_entry_item] returns: the key repeats the four fields of the
    entry, and its source line and the anchor of the entry are what the
    [try] statement gives for the path of the entry, the line marked in
    the block and the line number of the header. *)
Lemma _init_entry_item_Ok (fs : FileSystem) (v : EntryValues) (k : Key)
    (e : Entry) :
  _init_entry_item fs v = Ok (k, e) ->
  k = key_of e (key_source_line k)
  /\ exists t m line s n,
       ev_getitem v "ctx_src_text" = Ok t
       /\ Re.rmatch SOURCE_TEXT_RE t = Some m
       /\ Re.group "source_line" m = Some line
       /\ ev_getitem v "lineno" = Ok s
       /\ Py.int s = Ok n
       /\ resolve_anchor fs (path e) line n
          = Ok (srctxt e, key_source_line k).
Proof.
  unfold _init_entry_item. intros H.
  apply bind_Ok_inv in H. destruct H as (t & Ht & H).
  destruct (Re.rmatch SOURCE_TEXT_RE t) as [m|] eqn:Em; [|discriminate].
  apply bind_Ok_inv in H. destruct H as (p & Hp & H).
  apply bind_Ok_inv in H. destruct H as (line & Hline & H).
  apply bind_Ok_inv in H. destruct H as (s & Hs & H).
  apply bind_Ok_inv in H. destruct H as (n & Hn & H).
  apply bind_Ok_inv in H. destruct H as ([st sl] & Hres & H).
  apply bind_Ok_inv in H. destruct H as (f1 & _ & H).
  apply bind_Ok_inv in H. destruct H as (f2 & Hf2 & H).
  apply bind_Ok_inv in H. destruct H as (f3 & _ & H).
  apply bind_Ok_inv in H. destruct H as (f4 & _ & H).
  apply bind_Ok_inv in H. destruct H as (f5 & _ & H).
  apply bind_Ok_inv in H. destruct H as (f6 & _ & H).
  inversion H; subst k e; clear H. cbn [path srctxt key_source_line].
  split; [reflexivity|].
  assert (f2 = p) by congruence. subst f2.
  unfold group_str in Hline.
  destruct (Re.group "source_line" m) as [line'|] eqn:Eg; [|discriminate].
  inversion Hline; subst line'.
  exists t, m, line, s, n. auto 10.
Qed.

Lemma In_set (k k0 : Key) (e e0 : Entry) (c : Catalog) :
  In (k, e) (Dict.set Key_eqb k0 e0 c) -> (k, e) = (k0, e0) \/ In (k, e) c.
Proof.
  induction c as [|[k' v'] c IH]; simpl.
  - intros [H | []]. left. congruence.
  - destruct (Key_eqb k' k0) eqn:E; simpl.
    + apply Key_eqb_eq in E. subst k'. intros [H | H]; [left | right; right];
        congruence.
    + intros [H | H]; [right; left; exact H|].
      destruct (IH H); auto.
Qed.

Lemma In_fold_set (items : list (Key * Entry)) :
  forall (c : Catalog) (ke : Key * Entry),
    In ke (fold_left (fun c ke => Dict.set Key_eqb (fst ke) (snd ke) c)
             items c) ->
    In ke items \/ In ke c.
Proof.
  induction items as [|[k0 e0] items IH]; intros c [k e] H; simpl in *;
    [auto|].
  destruct (IH _ _ H) as [Hin | Hin]; [auto|].
  apply In_set in Hin. destruct Hin as [Heq | Hin]; auto.
Qed.

Lemma get_None_keys (k : Key) (c : Catalog) :
  Dict.get Key_eqb k c = None -> ~ In k (Dict.keys c).
Proof.
  unfold Dict.keys. induction c as [|[k' v'] c IH]; simpl; [tauto|].
  destruct (Key_eqb k' k) eqn:E; [discriminate|].
  intros H [Heq | Hin]; [|exact (IH H Hin)].
  subst k'. rewrite Key_eqb_refl in E. discriminate.
Qed.

(** A catalog that [load] returns is made of the items of some records. *)
Lemma load_items (fs : FileSystem) (p : string) (c : Catalog) :
  load fs p = Ok c ->
  exists records, c = catalog_of_items (loaded_items fs records).
Proof.
  unfold load, load_log. destruct (exists_ fs p); cbn [negb].
  - unfold _iter_entry_values.
    destruct (read_text fs p) as [content|e]; cbn [bind]; [|discriminate].
    destruct (load_loop_result fs (records_of_text content)
                (records_of_text content) [] [])
      as [(log' & H & _) | (q & H & _)];
      [apply incl_refl | apply records_located | constructor | |];
      rewrite H; cbn [bind fst]; [|discriminate].
    intros E. inversion E. eexists. reflexivity.
  - cbn [bind fst]. intros E. inversion E. exists []. reflexivity.
Qed.

Lemma In_loaded_items (fs : FileSystem) (records : list EntryValues)
    (ke : Key * Entry) :
  In ke (loaded_items fs records) ->
  exists v, In v records /\ _init_entry_item fs v = Ok ke.
Proof.
  unfold loaded_items. rewrite in_flat_map. intros (v & Hv & H).
  exists v. split; [exact Hv|].
  destruct (_init_entry_item fs v); simpl in H; [|tauto].
  destruct H as [-> | []]. reflexivity.
Qed.

(** X9. Every entry of a loaded catalog is filed under the key made of its
    own [msg_id], [path], [symbol] and [msg_text]. When the entry has an
    anchor, the source line of the key is the source line of the anchor,
    which is the line of number [new_lineno] of the file at [path] as it is
    now, and [new_lineno] is within 99 lines of [old_lineno]. *)
Theorem load_entries_keyed :
  forall (fs : FileSystem) (ignorefile_path : string) (catalog : Catalog)
         (k : Key) (e : Entry),
    load fs ignorefile_path = Ok catalog ->
    In (k, e) catalog ->
    k = key_of e (key_source_line k)
    /\ match srctxt e with
       | Some st =>
           key_source_line k = source_line st
           /\ 1 <= new_lineno st
           /\ Z.abs (new_lineno st - old_lineno st) <= 99
           /\ exists lines,
                source_lines fs (path e) = Ok lines
                /\ nth_error lines (Z.to_nat (new_lineno st - 1))
                   = Some (source_line st)
       | None => True
       end.
Proof.
  intros fs p c k e H Hin. apply load_items in H.
  destruct H as (records & ->). unfold catalog_of_items in Hin.
  apply In_fold_set in Hin. destruct Hin as [Hin | []].
  apply In_loaded_items in Hin. destruct Hin as (v & _ & Hinit).
  apply _init_entry_item_Ok in Hinit.
  destruct Hinit as (Hk & t & m & line & s & n & _ & _ & _ & _ & _ & Hres).
  split; [exact Hk|].
  destruct (resolve_anchor_cases fs (path e) line n)
    as [(new & st & Hfind & Hread & Hnew & Hold & Hr)
       | [(_ & Hr) | (ex & Hr & _)]];
    rewrite Hr in Hres; [| |discriminate]; inversion Hres as [[Hst Hsl]];
    [|exact I].
  unfold find_source_text_lineno in Hfind.
  unfold read_source_text in Hread.
  destruct (source_lines fs (path e)) as [lines|] eqn:Hlines;
    [|discriminate].
  cbn [bind] in Hfind, Hread.
  apply find_in_lines_closest in Hfind.
  destruct Hfind as ((Hpos & l & Hl & _) & Habs & _).
  assert (Hrange : 1 <= new <= len_list lines).
  { split; [exact Hpos|]. unfold len_list.
    assert (Z.to_nat (new - 1) < length lines)%nat; [|lia].
    apply nth_error_Some. congruence. }
  destruct (source_text_of_lines_window lines new n Hrange)
    as (st' & Hst' & _ & _ & Hnth & _).
  assert (st' = st) by congruence. subst st'.
  split; [reflexivity|]. rewrite Hnew, Hold.
  split; [exact Hpos|]. split; [exact Habs|].
  exists lines. split; [reflexivity | exact Hnth].
Qed.

Lemma load_entries_keyed_witness :
  let e := mkEntry "W0511" "a.py" "fixme" "TODO one" "A. Author" "2020-07-17"
             (Some (mkSourceText 2 2 ("    a = 1" ++ NL)
                      ("def f():" ++ NL ++ "    a = 1" ++ NL
                       ++ "    b = 2" ++ NL ++ "    c = 3" ++ NL)
                      0 4 None None)) in
  let k := key_of e ("    a = 1" ++ NL) in
  k = key_of e (key_source_line k)
  /\ match srctxt e with
     | Some st =>
         key_source_line k = source_line st
         /\ 1 <= new_lineno st
         /\ Z.abs (new_lineno st - old_lineno st) <= 99
         /\ exists lines,
              source_lines three_project (path e) = Ok lines
              /\ nth_error lines (Z.to_nat (new_lineno st - 1))
                 = Some (source_line st)
     | None => True
     end.
Proof.
  intros e k.
  apply (load_entries_keyed three_project "pylint-ignore.md"
           (catalog_of_items
              (loaded_items three_project (records_of_text three_records)))).
  - vm_compute. reflexivity.
  - vm_compute. left. reflexivity.
Defined.

Lemma keys_set (k : Key) (e : Entry) (c : Catalog) :
  Dict.keys (Dict.set Key_eqb k e c)
  = if Dict.mem Key_eqb k c then Dict.keys c
    else (Dict.keys c ++ [k])%list.
Proof.
  unfold Dict.mem, Dict.keys. induction c as [|[k' v'] c IH]; simpl;
    [reflexivity|].
  destruct (Key_eqb k' k) eqn:E; simpl; [reflexivity|].
  rewrite IH. destruct (Dict.get Key_eqb k c); reflexivity.
Qed.

Lemma NoDup_keys_set (k : Key) (e : Entry) (c : Catalog) :
  NoDup (Dict.keys c) -> NoDup (Dict.keys (Dict.set Key_eqb k e c)).
Proof.
  intros H. rewrite keys_set. unfold Dict.mem.
  destruct (Dict.get Key_eqb k c) eqn:G; [exact H|].
  apply NoDup_app; [exact H | repeat constructor; simpl; tauto|].
  intros x Hx [<- | []]. exact (get_None_keys _ _ G Hx).
Qed.

Lemma NoDup_keys_fold (items : list (Key * Entry)) :
  forall c : Catalog,
    NoDup (Dict.keys c) ->
    NoDup (Dict.keys
             (fold_left (fun c ke => Dict.set Key_eqb (fst ke) (snd ke) c)
                items c)).
Proof.
  induction items as [|ke items IH]; intros c H; simpl; [exact H|].
  apply IH, NoDup_keys_set, H.
Qed.

(** X10. An entry of a loaded catalog is found under its own key: for every
    item of a catalog that [load] returned, [find_entry] with the key of
    the item returns the entry of the item, by the exact match, so that no
    distance is computed and nothing is raised. *)
Theorem load_then_find_entry :
  forall (fs : FileSystem) (ignorefile_path : string) (catalog : Catalog)
         (k : Key) (e : Entry),
    load fs ignorefile_path = Ok catalog ->
    In (k, e) catalog ->
    find_entry catalog k = Ok (Some e).
Proof.
  intros fs p c k e H Hin. apply load_items in H.
  destruct H as (records & ->).
  assert (Hnd : NoDup (Dict.keys (catalog_of_items (loaded_items fs records))))
    by (apply NoDup_keys_fold; constructor).
  pose proof (get_In _ k e Hnd Hin) as Hget.
  unfold find_entry, Dict.mem, catalog_getitem. rewrite Hget. reflexivity.
Qed.

Lemma load_then_find_entry_witness :
  let e := mkEntry "W0511" "a.py" "fixme" "TODO one" "A. Author" "2020-07-17"
             (Some (mkSourceText 2 2 ("    a = 1" ++ NL)
                      ("def f():" ++ NL ++ "    a = 1" ++ NL
                       ++ "    b = 2" ++ NL ++ "    c = 3" ++ NL)
                      0 4 None None)) in
  find_entry
    (catalog_of_items
       (loaded_items three_project (records_of_text three_records)))
    (key_of e ("    a = 1" ++ NL))
  = Ok (Some e).
Proof.
  intros e.
  apply (load_then_find_entry three_project "pylint-ignore.md").
  - vm_compute. reflexivity.
  - vm_compute. left. reflexivity.
Defined.

(** ** The fuzzy matcher: what it returns and what it raises *)

Lemma keys_get (key : Key) (c : Catalog) :
  In key (Dict.keys c) -> exists e, Dict.get Key_eqb key c = Some e.
Proof.
  intros H. destruct (Dict.get Key_eqb key c) as [e|] eqn:G; [eauto|].
  exfalso. exact (get_None_keys _ _ G H).
Qed.

Lemma dist_pct_Raise (d : Z) (a b : string) (e : exn) :
  dist_pct d a b = Raise e -> e = ZeroDivisionError /\ both_empty a b = true.
Proof.
  unfold dist_pct, both_empty.
  destruct (Z.max (Py.len a) (Py.len b) =? 0); [|discriminate].
  intros H. inversion H. auto.
Qed.

(** The candidate at which the loop of [find_entry] raises. *)
Lemma find_matches_Raise (catalog : Catalog) (search_key : Key) (e : exn) :
  forall (candidate_keys : list Key) (matches : list Entry),
    incl candidate_keys (Dict.keys catalog) ->
    find_matches catalog search_key candidate_keys matches = Raise e ->
    e = ZeroDivisionError
    /\ exists key,
         In key candidate_keys
         /\ levenshtein (key_msg_text key) (key_msg_text search_key)
            <= FUZZY_MATCH_MAX_EDIT_DISTANCE_ABS
         /\ levenshtein (key_source_line key) (key_source_line search_key)
            <= FUZZY_MATCH_MAX_EDIT_DISTANCE_ABS
         /\ (both_empty (key_msg_text key) (key_msg_text search_key) = true
             \/ both_empty (key_source_line key)
                  (key_source_line search_key) = true).
Proof.
  induction candidate_keys as [|key rest IH]; intros matches Hincl H;
    [discriminate|].
  assert (Hrest : forall m,
             find_matches catalog search_key rest m = Raise e ->
             e = ZeroDivisionError
             /\ exists key0,
                  In key0 (key :: rest)
                  /\ levenshtein (key_msg_text key0) (key_msg_text search_key)
                     <= FUZZY_MATCH_MAX_EDIT_DISTANCE_ABS
                  /\ levenshtein (key_source_line key0)
                       (key_source_line search_key)
                     <= FUZZY_MATCH_MAX_EDIT_DISTANCE_ABS
                  /\ (both_empty (key_msg_text key0)
                        (key_msg_text search_key) = true
                      \/ both_empty (key_source_line key0)
                           (key_source_line search_key) = true)).
  { intros m Hm. destruct (IH m) as (He & key0 & Hin & Hrest); auto.
    - intros x Hx. apply Hincl. right. exact Hx.
    - split; [exact He|]. exists key0. split; [right; exact Hin | exact Hrest].
  }
  cbn [find_matches] in H.
  set (dm := levenshtein (key_msg_text key) (key_msg_text search_key)) in *.
  set (ds := levenshtein (key_source_line key) (key_source_line search_key))
    in *.
  destruct (dm >? FUZZY_MATCH_MAX_EDIT_DISTANCE_ABS) eqn:Em;
    [exact (Hrest _ H)|].
  destruct (ds >? FUZZY_MATCH_MAX_EDIT_DISTANCE_ABS) eqn:Es;
    [exact (Hrest _ H)|].
  assert (Hdm : dm <= FUZZY_MATCH_MAX_EDIT_DISTANCE_ABS)
    by (rewrite Z.gtb_ltb in Em; apply Z.ltb_ge in Em; exact Em).
  assert (Hds : ds <= FUZZY_MATCH_MAX_EDIT_DISTANCE_ABS)
    by (rewrite Z.gtb_ltb in Es; apply Z.ltb_ge in Es; exact Es).
  apply bind_Raise in H. destruct H as [H | (pm & _ & H)].
  { apply dist_pct_Raise in H. destruct H as [-> Hb].
    split; [reflexivity|]. exists key. simpl. auto 10. }
  apply bind_Raise in H. destruct H as [H | (ps & _ & H)].
  { apply dist_pct_Raise in H. destruct H as [-> Hb].
    split; [reflexivity|]. exists key. simpl. auto 10. }
  destruct (Qgtb pm _); [exact (Hrest _ H)|].
  destruct (Qgtb ps _); [exact (Hrest _ H)|].
  destruct (keys_get key catalog) as (e0 & Hget);
    [apply Hincl; left; reflexivity|].
  unfold catalog_getitem in H. rewrite Hget in H. cbn [bind] in H.
  exact (Hrest _ H).
Qed.

(** X12. [find_entry] raises nothing but [ZeroDivisionError], and that only
    when the search key is not in the catalog and, for some key of the
    catalog that shares [msg_id], [path] and [symbol] with it and lies
    within 4 edits in both texts, the two message texts are both empty or
    the two source lines are both empty. *)
Theorem find_entry_raises_only_on_empty_pair :
  forall (catalog : Catalog) (search_key : Key) (e : exn),
    find_entry catalog search_key = Raise e ->
    e = ZeroDivisionError
    /\ Dict.mem Key_eqb search_key catalog = false
    /\ exists key,
         In key (Dict.keys catalog)
         /\ is_candidate search_key key = true
         /\ levenshtein (key_msg_text key) (key_msg_text search_key) <= 4
         /\ levenshtein (key_source_line key) (key_source_line search_key)
            <= 4
         /\ (both_empty (key_msg_text key) (key_msg_text search_key) = true
             \/ both_empty (key_source_line key)
                  (key_source_line search_key) = true).
Proof.
  intros c k e H. unfold find_entry in H.
  destruct (Dict.mem Key_eqb k c) eqn:M.
  - exfalso. unfold Dict.mem in M. unfold catalog_getitem in H.
    destruct (Dict.get Key_eqb k c); [discriminate H | discriminate M].
  - apply bind_Raise in H. destruct H as [H | (ms & _ & H)].
    + apply find_matches_Raise in H.
      * destruct H as (He & key & Hin & Hm & Hs & Hb).
        apply filter_In in Hin. destruct Hin as [Hin Hc].
        split; [exact He|]. split; [reflexivity|]. exists key. auto 10.
      * intros x Hx. apply filter_In in Hx. tauto.
    + exfalso. destruct ms as [|e1 [|e2 ms]]; discriminate.
Qed.

Lemma find_entry_raises_only_on_empty_pair_witness :
  ZeroDivisionError = ZeroDivisionError
  /\ Dict.mem Key_eqb empty_line_search_key empty_line_catalog = false
  /\ exists key,
       In key (Dict.keys empty_line_catalog)
       /\ is_candidate empty_line_search_key key = true
       /\ levenshtein (key_msg_text key)
            (key_msg_text empty_line_search_key) <= 4
       /\ levenshtein (key_source_line key)
            (key_source_line empty_line_search_key) <= 4
       /\ (both_empty (key_msg_text key)
             (key_msg_text empty_line_search_key) = true
           \/ both_empty (key_source_line key)
                (key_source_line empty_line_search_key) = true).
Proof.
  apply (find_entry_raises_only_on_empty_pair empty_line_catalog
           empty_line_search_key ZeroDivisionError).
  vm_compute. reflexivity.
Defined.

(** X13. For a catalog of pairwise distinct keys in which no candidate has,
    with the search key, two empty message texts or two empty source
    lines, [find_entry] returns: the entry of the search key when the
    catalog has it, else the entry of the one key that shares [msg_id],
    [path] and [symbol] and lies within 4 edits and within 20% of the
    longer text on both the message text and the source line, and [None]
    when no key or more than one key does. *)
Theorem find_entry_without_empty_pairs :
  forall (catalog : Catalog) (search_key : Key),
    NoDup (Dict.keys catalog) ->
    no_empty_pair catalog search_key ->
    find_entry catalog search_key
    = Ok (match Dict.get Key_eqb search_key catalog with
          | Some e => Some e
          | None =>
              match filter (fun kv => qualifies search_key (fst kv)) catalog
              with
              | [(_, e)] => Some e
              | _ => None
              end
          end).
Proof.
  intros c k Hnd Hne. apply (find_entry_refines_spec c k Hnd Hne).
Qed.

Lemma find_entry_without_empty_pairs_witness :
  find_entry [(key_of fixme_entry "    return value", fixme_entry)]
    (mkKey "W0511" "a.py" "fixme" "TODO: refactoR" "    return value")
  = Ok (Some fixme_entry).
Proof.
  apply (find_entry_without_empty_pairs
           [(key_of fixme_entry "    return value", fixme_entry)]
           (mkKey "W0511" "a.py" "fixme" "TODO: refactoR"
              "    return value")).
  - repeat constructor. simpl. tauto.
  - intros key [<- | []] _. vm_compute. auto.
Defined.

(** ** Writing a catalog and reading it back *)

(** X14. A catalog of pairwise distinct keys is written by [dump] and read
    back by [load] as follows, provided every entry with an anchor is filed
    under its own key, has fields and context lines that are shown as they
    are, and an anchor that is the anchor of its line in its source file as
    it is now. The catalog read back has the items with an anchor, in the
    order of [(msg_id, new_lineno, msg_text)], each with the old line
    number of its anchor set to the new one; the items without an anchor
    are lost. *)
Theorem dump_load_roundtrip :
  forall (fs : FileSystem) (ignorefile : Catalog) (ignorefile_path : string),
    NoDup (Dict.keys ignorefile) ->
    Forall (round_trips fs ignorefile_path) ignorefile ->
    load (dump fs ignorefile ignorefile_path) ignorefile_path
    = Ok (map relocated (dumped_items ignorefile)).
Proof. intros fs c p Hnd Hall. apply load_dump; assumption. Qed.

Lemma dump_load_roundtrip_witness :
  load (dump (one_file "a.py" def_second_text) example_catalog
          "pylint-ignore.md") "pylint-ignore.md"
  = Ok (map relocated (dumped_items example_catalog)).
Proof.
  apply dump_load_roundtrip.
  - repeat constructor; simpl; intuition discriminate.
  - constructor; [|constructor; [|constructor; [|constructor]]].
    + unfold round_trips. cbn [snd srctxt example_item example_entry].
      split; [reflexivity|].
      split; [repeat split; vm_compute; reflexivity|].
      split; [discriminate|]. split; [discriminate|].
      exists (Py.splitlines true def_second_text).
      split; [reflexivity|].
      split; [vm_compute; discriminate|].
      split; [vm_compute; reflexivity|].
      split; vm_compute; reflexivity.
    + exact I.
    + unfold round_trips. cbn [snd srctxt example_item example_entry].
      split; [reflexivity|].
      split; [repeat split; vm_compute; reflexivity|].
      split; [discriminate|]. split; [discriminate|].
      exists (Py.splitlines true def_second_text).
      split; [reflexivity|].
      split; [vm_compute; discriminate|].
      split; [vm_compute; reflexivity|].
      split; [vm_compute; reflexivity|].
      intros _ l H. vm_compute in H. inversion H. reflexivity.
Defined.

(** X15. Under the same conditions, when every entry has an anchor whose old
    and new line numbers are the same, the catalog read back has exactly
    the items of the catalog that was written, in the order of
    [(msg_id, new_lineno, msg_text)]. *)
Theorem dump_load_same_items :
  forall (fs : FileSystem) (ignorefile : Catalog) (ignorefile_path : string),
    NoDup (Dict.keys ignorefile) ->
    Forall (round_trips fs ignorefile_path) ignorefile ->
    Forall (fun ke => exists st, srctxt (snd ke) = Some st
                                 /\ old_lineno st = new_lineno st)
      ignorefile ->
    load (dump fs ignorefile ignorefile_path) ignorefile_path
    = Ok (stable_sort (fun ke => sort_key (snd ke)) key_leb ignorefile)
    /\ Permutation
         (stable_sort (fun ke => sort_key (snd ke)) key_leb ignorefile)
         ignorefile.
Proof.
  intros fs c p Hnd Hall Hsame. split; [|apply stable_sort_perm].
  rewrite (load_dump fs c p Hnd Hall). f_equal.
  assert (Hfilter : filter (fun ke => has_srctxt (snd ke)) c = c).
  { apply filter_all. eapply Forall_impl; [|exact Hsame].
    intros ke (st & Hst & _). unfold has_srctxt. rewrite Hst. reflexivity. }
  unfold dumped_items. rewrite Hfilter.
  assert (Hid : forall l : list (Key * Entry),
             Forall (fun ke => exists st, srctxt (snd ke) = Some st
                                          /\ old_lineno st = new_lineno st)
               l ->
             map relocated l = l).
  { induction 1 as [|ke l Hke _ IH]; [reflexivity|]. cbn [map].
    rewrite (relocated_same ke Hke), IH. reflexivity. }
  apply Hid.
  apply (Permutation_Forall
           (Permutation_sym
              (stable_sort_perm (fun ke => sort_key (snd ke)) key_leb c))).
  exact Hsame.
Qed.

Lemma dump_load_same_items_witness :
  let c := [ example_item (example_entry "W0511" "TODO: b" 6 6);
             example_item (example_entry "C0111" "Missing docstring" 3 3) ] in
  load (dump (one_file "a.py" def_second_text) c "pylint-ignore.md")
    "pylint-ignore.md"
  = Ok (stable_sort (fun ke => sort_key (snd ke)) key_leb c)
  /\ Permutation (stable_sort (fun ke => sort_key (snd ke)) key_leb c) c.
Proof.
  intros c. apply dump_load_same_items.
  - repeat constructor; simpl; intuition discriminate.
  - constructor; [|constructor; [|constructor]].
    + unfold round_trips. cbn [snd srctxt example_item example_entry].
      split; [reflexivity|].
      split; [repeat split; vm_compute; reflexivity|].
      split; [discriminate|]. split; [discriminate|].
      exists (Py.splitlines true def_second_text).
      split; [reflexivity|].
      split; [vm_compute; discriminate|].
      split; [vm_compute; reflexivity|].
      split; vm_compute; reflexivity.
    + unfold round_trips. cbn [snd srctxt example_item example_entry].
      split; [reflexivity|].
      split; [repeat split; vm_compute; reflexivity|].
      split; [discriminate|]. split; [discriminate|].
      exists (Py.splitlines true def_second_text).
      split; [reflexivity|].
      split; [vm_compute; discriminate|].
      split; [vm_compute; reflexivity|].
      split; [vm_compute; reflexivity|].
      intros _ l H. vm_compute in H. inversion H. reflexivity.
  - constructor; [|constructor; [|constructor]]; eexists;
      (split; [reflexivity | vm_compute; reflexivity]).
Defined.

(** X16. Under the conditions of the round trip, writing the catalog that
    was read back gives the text that was written: the old line numbers
    and the order of the items, which the reload changes, do not show in
    the text. *)
Theorem dump_load_dump_same_text :
  forall (fs : FileSystem) (ignorefile : Catalog) (ignorefile_path : string),
    NoDup (Dict.keys ignorefile) ->
    Forall (round_trips fs ignorefile_path) ignorefile ->
    exists reloaded,
      load (dump fs ignorefile ignorefile_path) ignorefile_path = Ok reloaded
      /\ dumps reloaded = dumps ignorefile.
Proof.
  intros fs c p Hnd Hall. exists (map relocated (dumped_items c)).
  split; [apply load_dump; assumption | apply dumps_relocated].
Qed.

Lemma dump_load_dump_same_text_witness :
  exists reloaded,
    load (dump (one_file "a.py" def_second_text) example_catalog
            "pylint-ignore.md") "pylint-ignore.md" = Ok reloaded
    /\ dumps reloaded = dumps example_catalog.
Proof.
  apply dump_load_dump_same_text.
  - repeat constructor; simpl; intuition discriminate.
  - constructor; [|constructor; [|constructor; [|constructor]]].
    + unfold round_trips. cbn [snd srctxt example_item example_entry].
      split; [reflexivity|].
      split; [repeat split; vm_compute; reflexivity|].
      split; [discriminate|]. split; [discriminate|].
      exists (Py.splitlines true def_second_text).
      split; [reflexivity|].
      split; [vm_compute; discriminate|].
      split; [vm_compute; reflexivity|].
      split; vm_compute; reflexivity.
    + exact I.
    + unfold round_trips. cbn [snd srctxt example_item example_entry].
      split; [reflexivity|].
      split; [repeat split; vm_compute; reflexivity|].
      split; [discriminate|]. split; [discriminate|].
      exists (Py.splitlines true def_second_text).
      split; [reflexivity|].
      split; [vm_compute; discriminate|].
      split; [vm_compute; reflexivity|].
      split; [vm_compute; reflexivity|].
      intros _ l H. vm_compute in H. inversion H. reflexivity.
Defined.

(** ** The catalog that is read back, as a mapping *)







(** ** The three patterns read what the template writes *)

(** X17. [ENTRY_HEADER_RE] reads back the header line of the template: for a
    path without a newline (blanks, dashes and parentheses are allowed, and
    so is text that looks like the rest of a header), a line number above
    0, a message id made of a word character and digits, and a symbol
    without blanks, the groups of the match are the four values. *)
Theorem entry_header_read_back :
  forall (p msgid sym : string) (n : Z),
    single_line p = true -> 0 < n ->
    is_msg_id msgid = true -> no_space sym = true ->
    Re.rmatch ENTRY_HEADER_RE
      ("## File " ++ p ++ " - Line " ++ Py.str n ++ " - " ++ msgid
       ++ " (" ++ sym ++ ")" ++ NL)
    = Some [("symbol", sym); ("msg_id", msgid); ("lineno", Py.str n);
            ("path", p)].
Proof.
  intros p msgid sym n Hp Hn Hid Hsym.
  destruct (is_msg_id_parts _ Hid) as (w & d & ds & -> & Hw & Hd & Hds).
  destruct (str_parts n Hn) as (Estr & Hd0 & Hdss).
  rewrite <- (header_parse p (Py.str n) w d ds sym); try assumption.
  - reflexivity.
  - rewrite Estr. cbn [all_chars]. rewrite Hd0. exact Hdss.
  - rewrite Estr. discriminate.
Qed.

Lemma entry_header_read_back_witness :
  Re.rmatch ENTRY_HEADER_RE
    ("## File " ++ "my dir/a - Line 3 - W1 (x).py" ++ " - Line " ++ Py.str 12
     ++ " - " ++ "W0511" ++ " (" ++ "fixme" ++ ")" ++ NL)
  = Some [("symbol", "fixme"); ("msg_id", "W0511"); ("lineno", Py.str 12);
          ("path", "my dir/a - Line 3 - W1 (x).py")].
Proof.
  apply (entry_header_read_back "my dir/a - Line 3 - W1 (x).py" "W0511"
           "fixme" 12); try reflexivity.
Defined.

(** X18. [LIST_ITEM_RE] reads back the three list items of the template: for
    a value without a newline (backticks are allowed), the groups of the
    match are the key, without its padding, and the value. *)
Theorem list_item_read_back :
  forall value : string,
    single_line value = true ->
    Re.rmatch LIST_ITEM_RE ("- `message: " ++ value ++ "`" ++ NL)
    = Some [("value", value); ("key", "message")]
    /\ Re.rmatch LIST_ITEM_RE ("- `author : " ++ value ++ "`" ++ NL)
       = Some [("value", value); ("key", "author")]
    /\ Re.rmatch LIST_ITEM_RE ("- `date   : " ++ value ++ "`" ++ NL)
       = Some [("value", value); ("key", "date")].
Proof.
  intros value Hv. split; [|split].
  - apply (item_parse "message" "" value label_message Hv).
  - apply (item_parse "author" " " value label_author Hv).
  - apply (item_parse "date" "   " value label_date Hv).
Qed.

Lemma list_item_read_back_witness :
  Re.rmatch LIST_ITEM_RE ("- `message: " ++ "use `x` here" ++ "`" ++ NL)
  = Some [("value", "use `x` here"); ("key", "message")]
  /\ Re.rmatch LIST_ITEM_RE ("- `author : " ++ "use `x` here" ++ "`" ++ NL)
     = Some [("value", "use `x` here"); ("key", "author")]
  /\ Re.rmatch LIST_ITEM_RE ("- `date   : " ++ "use `x` here" ++ "`" ++ NL)
     = Some [("value", "use `x` here"); ("key", "date")].
Proof. apply list_item_read_back. reflexivity. Defined.

(** X19. [SOURCE_TEXT_RE] reads back the context block that [_dumps_entry]
    writes for an anchor of a file whose context lines are shown as they
    are: the pattern matches the fenced block, and its group [source_line]
    is the marked line of the file without its newline. *)
Theorem context_block_read_back :
  forall (lines : list string) (st : SourceText),
    anchored lines st ->
    exists m body,
      Re.rmatch SOURCE_TEXT_RE
        ("```" ++ NL ++ Py.join NL (block_src_lines st) ++ NL ++ "```" ++ NL)
      = Some m
      /\ Re.group "source_line" m = Some body
      /\ source_line st = body ++ NL.
Proof.
  intros lines st Ha.
  destruct (anchored_shape lines st Ha)
    as (def & before & anchor & after & Hblock & Hlb & Hla & Hwb & Hwn & Hwa
        & Hdef & Hline).
  destruct Ha as (Hn & Hsrc & _ & _).
  pose proof (source_text_of_lines_in_range _ _ _ _ Hn Hsrc) as Hlen.
  destruct (source_text_of_lines_window lines (new_lineno st) (old_lineno st))
    as (st' & Hst' & _ & _ & Hnth & _); [lia|].
  assert (st' = st) by congruence. subst st'.
  eexists. exists (num_body anchor). split; [|split].
  - rewrite join_NL_next by (rewrite Hblock; apply render_block_nonempty).
    change ("```" ++ NL ++ Py.join0 (map (fun l => l ++ NL)
              (block_src_lines st)) ++ "```" ++ NL)
      with (block_text (block_src_lines st)).
    rewrite Hblock, block_text_lines, block_text_show.
    apply block_parse;
      [ exact Hlb | exact Hla | apply wellnumbered_ok; exact Hwb
      | apply Hwn | apply wellnumbered_ok; exact Hwa
      | destruct def as [d|]; [apply Hdef | exact Hdef] ].
  - reflexivity.
  - congruence.
Qed.

Lemma context_block_read_back_witness :
  exists m body,
    Re.rmatch SOURCE_TEXT_RE
      ("```" ++ NL ++ Py.join NL (block_src_lines (example_anchor 6 3))
       ++ NL ++ "```" ++ NL)
    = Some m
    /\ Re.group "source_line" m = Some body
    /\ source_line (example_anchor 6 3) = body ++ NL.
Proof.
  apply (context_block_read_back (Py.splitlines true def_second_text)).
  split; [vm_compute; discriminate|].
  split; [vm_compute; reflexivity|].
  split; vm_compute; reflexivity.
Defined.

(** ** The order of the catalog does not show in the text *)

Section SortedUnique.
Context {A K : Type} (key : A -> K) (leb : K -> K -> bool).
Hypothesis leb_antisym :
  forall a b, leb a b = true -> leb b a = true -> a = b.

(** A list has one sorted arrangement when its keys are pairwise
    distinct. *)
Lemma sorted_perm_unique (l1 : list A) :
  forall l2,
    StronglySorted (fun x y => leb (key x) (key y) = true) l1 ->
    StronglySorted (fun x y => leb (key x) (key y) = true) l2 ->
    Permutation l1 l2 -> NoDup (map key l1) -> l1 = l2.
Proof.
  induction l1 as [|x l1 IH]; intros l2 H1 H2 Hp Hnd.
  - apply Permutation_nil in Hp. congruence.
  - destruct l2 as [|y l2];
      [apply Permutation_sym, Permutation_nil in Hp; discriminate|].
    inversion H1 as [|? ? H1' Hx]; subst.
    inversion H2 as [|? ? H2' Hy]; subst.
    inversion Hnd as [|? ? Hnotin Hnd']; subst.
    assert (Hxy : x = y).
    { assert (Hin : In y (x :: l1))
        by (apply (Permutation_in _ (Permutation_sym Hp)); left; reflexivity).
      destruct Hin as [E | Hin]; [exact E|]. exfalso.
      assert (Hin2 : In x (y :: l2))
        by (apply (Permutation_in _ Hp); left; reflexivity).
      destruct Hin2 as [E | Hin2]; [subst; apply Hnotin, in_map, Hin|].
      rewrite Forall_forall in Hx, Hy.
      apply Hnotin. rewrite (leb_antisym _ _ (Hx y Hin) (Hy x Hin2)).
      apply in_map. exact Hin. }
    subst y. f_equal. apply IH; try assumption.
    apply (Permutation_cons_inv Hp).
Qed.
End SortedUnique.

Lemma key_leb_antisym (a b : string * Z * string) :
  key_leb a b = true -> key_leb b a = true -> a = b.
Proof.
  unfold key_leb. rewrite (key_compare_antisym b a). intros H1 H2.
  apply key_compare_eq.
  destruct (key_compare a b); [reflexivity | discriminate H2 | discriminate H1].
Qed.

Lemma Permutation_filter_same {A} (p : A -> bool) (l1 l2 : list A) :
  Permutation l1 l2 -> Permutation (filter p l1) (filter p l2).
Proof.
  induction 1 as [| x l1 l2 _ IH | x y l | l1 l2 l3 _ IH1 _ IH2];
    cbn [filter].
  - constructor.
  - destruct (p x); [constructor|]; exact IH.
  - destruct (p x), (p y); try reflexivity. apply perm_swap.
  - exact (Permutation_trans IH1 IH2).
Qed.

(** X20. The text of [dumps] does not depend on the order of the catalog, as
    long as no two entries with an anchor have the same
    [(msg_id, new_lineno, msg_text)]: two catalogs with the same items
    give the same text. *)
Theorem dumps_order_independent :
  forall c1 c2 : Catalog,
    Permutation c1 c2 ->
    NoDup (map sort_key (filter has_srctxt (Dict.values c1))) ->
    dumps c1 = dumps c2.
Proof.
  intros c1 c2 Hp Hnd. unfold dumps. cbv zeta.
  assert (H : dumps_entries c1 = dumps_entries c2); [|rewrite H; reflexivity].
  unfold dumps_entries.
  assert (Hperm : Permutation (filter has_srctxt (Dict.values c1))
                    (filter has_srctxt (Dict.values c2)))
    by (apply Permutation_filter_same, Permutation_map, Hp).
  apply (sorted_perm_unique sort_key key_leb key_leb_antisym).
  - apply stable_sort_sorted; [apply key_leb_total | apply key_leb_trans].
  - apply stable_sort_sorted; [apply key_leb_total | apply key_leb_trans].
  - rewrite (stable_sort_perm sort_key key_leb), Hperm.
    symmetry. apply stable_sort_perm.
  - apply (Permutation_NoDup (l := map sort_key
                                     (filter has_srctxt (Dict.values c1))));
      [|exact Hnd].
    apply Permutation_map, Permutation_sym, stable_sort_perm.
Qed.

Lemma dumps_order_independent_witness :
  dumps example_catalog = dumps (rev example_catalog).
Proof.
  apply dumps_order_independent.
  - apply Permutation_rev.
  - vm_compute. repeat constructor; simpl; intuition discriminate.
Defined.

(** ** A context block that is never closed *)

(** X21. An opening fence that no later line closes ends the parse: the
    record in progress is yielded as it is, without the context block, and
    no line after the fence is read as a header or a list item. *)
Theorem unclosed_fence_ends_parse :
  forall (i : Z) (line : string) (rest : list (Z * string))
         (entry_vals : EntryValues),
    Py.startswith "```" line = true ->
    Forall (fun l => Py.strip (snd l) <> Py.slice_to 3 line) rest ->
    iter_loop ((i, line) :: rest) entry_vals = last_entry entry_vals.
Proof.
  intros i line rest ev Hs Hrest.
  rewrite iter_loop_fence by exact Hs. rewrite consume_from_spec.
  rewrite parse_ctx_loop_open by exact Hrest. reflexivity.
Qed.

Lemma unclosed_fence_ends_parse_witness :
  iter_loop
    ((6, "```" ++ NL)
       :: [ (7, "> 5:     return a" ++ NL);
            (8, "## File b.py - Line 1 - C0111 (doc)" ++ NL) ])
    [("msg_id", "W0511")]
  = last_entry [("msg_id", "W0511")].
Proof.
  apply unclosed_fence_ends_parse; [reflexivity|].
  repeat constructor; vm_compute; discriminate.
Defined.

(** ** The cache evicts the file that came last *)

Lemma firstn_removelast_2 {A} (l : list A) :
  (2 < length l)%nat -> firstn 2 (removelast l) = firstn 2 l.
Proof.
  intros H. destruct l as [|a [|b [|c l]]]; simpl in H; try lia.
  reflexivity.
Qed.

Lemma firstn_set_new {V} (k : string) (v : V) (d : @Dict.t string V) :
  Dict.get String.eqb k d = None -> (2 <= length d)%nat ->
  firstn 2 (Dict.set String.eqb k v d) = firstn 2 d.
Proof.
  intros G H. destruct d as [|[k1 v1] [|[k2 v2] d]]; simpl in H; try lia.
  cbn [Dict.get] in G. cbn [Dict.set].
  destruct (String.eqb k1 k); [discriminate|].
  destruct (String.eqb k2 k); [discriminate|]. reflexivity.
Qed.

Lemma get_popitem_None {V} (k : string) (d : @Dict.t string V) :
  Dict.get String.eqb k d = None ->
  Dict.get String.eqb k (Dict.popitem d) = None.
Proof.
  intros G. destruct (Dict.get String.eqb k (Dict.popitem d)) eqn:E;
    [|reflexivity].
  apply dict_get_popitem in E. congruence.
Qed.

(** X22. The cache evicts the entry that was added last: once two files are
    cached, they stay the first two entries of the cache through every
    call, whatever is read. *)
Theorem read_source_lines_keeps_first_two :
  forall (fs : FileSystem) (cache : SrcCache) (path : string),
    (2 <= length cache)%nat ->
    firstn 2 (snd (read_source_lines fs cache path)) = firstn 2 cache.
Proof.
  intros fs cache p Hlen. unfold read_source_lines.
  destruct (Dict.get String.eqb p cache) eqn:G; [reflexivity|].
  set (cache1 := if Z.of_nat (length cache) >? 2
                 then Dict.popitem cache else cache).
  assert (H1 : firstn 2 cache1 = firstn 2 cache
               /\ (2 <= length cache1)%nat
               /\ Dict.get String.eqb p cache1 = None).
  { unfold cache1. destruct (Z.of_nat (length cache) >? 2) eqn:E;
      [|auto]. unfold Dict.popitem.
    split; [apply firstn_removelast_2; lia|]. split.
    - assert (Hne : cache <> []) by (intros ->; simpl in Hlen; lia).
      pose proof (dict_popitem_length cache Hne) as Hp.
      unfold Dict.popitem in Hp. lia.
    - apply (get_popitem_None p cache G). }
  destruct H1 as (Hf & Hl & Hg).
  destruct (read_text fs p); cbn [snd]; [|exact Hf].
  rewrite firstn_set_new by assumption. exact Hf.
Qed.

Lemma read_source_lines_keeps_first_two_witness :
  firstn 2 (snd (read_source_lines (one_file "d.py" "pass")
                   [("a.py", []); ("b.py", []); ("c.py", [])] "d.py"))
  = firstn 2 [("a.py", []); ("b.py", []); ("c.py", [])].
Proof.
  apply read_source_lines_keeps_first_two. simpl. lia.
Defined.
